(** * Streaming G-code motion reconstruction and resampling

    A shallow embedding of [tools/4th_axis_post_processor/gcode_parser.py]:
    the line tokenizer (comment stripping, the three regular expressions),
    the two motion-state trackers ([parse_gcode_points],
    [parse_gcode_points_extrude]), the corner-adaptive resampler with its
    streaming batcher ([batch_points_for_spline]) and the point collector
    ([collect_sparse_points]).

    Conventions of the embedding.
    - A file is the list of its lines, in order; a line is a [string] whose
      characters are code points below 256.
    - Python floats are kept abstract: every definition is generic in a type
      [F] with the operations of the class [FloatOps].  Comparisons are
      boolean functions of their own ([<], [<=], [==] are not inter-derivable
      on floats), and nothing is assumed about them unless a theorem says so.
    - Python exceptions are modelled by [option]: [None] is a raised
      exception.  Generators are modelled by the list of values they yield.
    - Python [int]s are [Z]. *)

From Stdlib Require Import ZArith List Bool Ascii String Lia QArith.
Import ListNotations.
Local Open Scope Z_scope.

(** ** Floating-point interface *)

Class FloatOps (F : Type) : Type := {
  float_of_string : string -> F;      (* float(s), s matched by COORD_RE *)
  float_of_Z : Z -> F;                (* int -> float conversion, literals *)
  fadd : F -> F -> F;
  fsub : F -> F -> F;
  fmul : F -> F -> F;
  fdiv : F -> F -> F;                 (* numpy scalar division: never raises *)
  feqb : F -> F -> bool;              (* a == b *)
  fltb : F -> F -> bool;              (* a < b *)
  fleb : F -> F -> bool;              (* a <= b *)
  fnorm2 : F -> F -> F;               (* np.linalg.norm of a 2-vector *)
  fhypot : F -> F -> F;               (* math.hypot *)
  facos : F -> F;                     (* value of acos inside its domain *)
  fradians : F -> F;                  (* math.radians *)
  fceil : F -> option Z;              (* int(math.ceil(x)); raises on inf, nan *)
  ftrunc : F -> Z                     (* numpy astype(int): truncation *)
}.

(** ** Line tokenizer *)

Module Tok.

Definition code (c : ascii) : N := N_of_ascii c.

Definition in_range (lo hi : N) (c : ascii) : bool :=
  ((lo <=? code c) && (code c <=? hi))%N.

(** [str.isspace] on code points below 256. *)
Definition is_space (c : ascii) : bool :=
  in_range 9 13 c || in_range 28 32 c || (code c =? 133)%N || (code c =? 160)%N.

Definition is_digit (c : ascii) : bool := in_range 48 57 c.

(** [\w] of a Unicode pattern, on code points below 256: alphanumerics
    (the Latin-1 letters and numeric signs included) and the underscore. *)
Definition is_word (c : ascii) : bool :=
  is_digit c || in_range 65 90 c || in_range 97 122 c || (code c =? 95)%N
  || (code c =? 170)%N || (code c =? 178)%N || (code c =? 179)%N
  || (code c =? 181)%N || (code c =? 185)%N || (code c =? 186)%N
  || in_range 188 190 c || in_range 192 214 c || in_range 216 246 c
  || in_range 248 255 c.

Definition newline : ascii := ascii_of_N 10.

(** *** [COMMENT_RE = \(.*?\)|;.*$] and [_strip_comments] *)

(** Does [\(.*?\)] match, the opening parenthesis already consumed?
    [.] matches anything but a newline. *)
Fixpoint closes (s : string) : bool :=
  match s with
  | EmptyString => false
  | String c r =>
      if Ascii.eqb c ")" then true
      else if Ascii.eqb c newline then false
      else closes r
  end.

(** [;.*$], the semicolon already consumed: [.*] runs to the first newline
    or to the end, and [$] holds at the end of the string or just before a
    newline that is its last character.  The result is the text left after
    the match. *)
Fixpoint semicolon_rest (s : string) : option string :=
  match s with
  | EmptyString => Some EmptyString
  | String c r =>
      if Ascii.eqb c newline then
        match r with
        | EmptyString => Some s
        | _ => None
        end
      else semicolon_rest r
  end.

(** [COMMENT_RE.sub("", s)]: a left-to-right scan; [in_paren] is set while
    the scan is inside a matched parenthesised comment. *)
Fixpoint comment_sub (in_paren : bool) (s : string) : string :=
  match s with
  | EmptyString => EmptyString
  | String c r =>
      if in_paren then
        comment_sub (negb (Ascii.eqb c ")")) r
      else if Ascii.eqb c "(" && closes r then
        comment_sub true r
      else if Ascii.eqb c ";" then
        match semicolon_rest r with
        | Some rest => rest
        | None => String c (comment_sub false r)
        end
      else String c (comment_sub false r)
  end.

Fixpoint lstrip (s : string) : string :=
  match s with
  | EmptyString => EmptyString
  | String c r => if is_space c then lstrip r else s
  end.

Fixpoint rstrip (s : string) : string :=
  match s with
  | EmptyString => EmptyString
  | String c r =>
      match rstrip r with
      | EmptyString => if is_space c then EmptyString else String c EmptyString
      | r' => String c r'
      end
  end.

Definition strip (s : string) : string := rstrip (lstrip s).

Definition _strip_comments (line : string) : string :=
  strip (comment_sub false line).

(** *** [line.startswith(p)] *)

Fixpoint startswith (p line : string) : bool :=
  match p with
  | EmptyString => true
  | String a p' =>
      match line with
      | EmptyString => false
      | String b line' => Ascii.eqb a b && startswith p' line'
      end
  end.

(** *** [MOVE_CMD_RE = ^(?:G0|G1|G00|G01)\b], used with [search] *)

(** [\b] right after a word character: the end of the string or a
    non-word character. *)
Definition word_end (s : string) : bool :=
  match s with
  | EmptyString => true
  | String c _ => negb (is_word c)
  end.

(** What follows the literal [p] at the start of [line], if it is there. *)
Fixpoint after_prefix (p line : string) : option string :=
  match p with
  | EmptyString => Some line
  | String a p' =>
      match line with
      | EmptyString => None
      | String b line' => if Ascii.eqb a b then after_prefix p' line' else None
      end
  end.

Definition matches_word (p line : string) : bool :=
  match after_prefix p line with
  | Some rest => word_end rest
  | None => false
  end.

Definition MOVE_CMD_RE (line : string) : bool :=
  matches_word "G0" line || matches_word "G1" line
  || matches_word "G00" line || matches_word "G01" line.

(** *** [COORD_RE = ([XYEIJRZ])([-+]?[0-9]*\.?[0-9]+)], case-insensitive *)

(** Group 1, already upper-cased as [m.group(1).upper()] does, on code
    points below 256; [Unicode.axis_letter] below has the two matches
    beyond them. *)
Definition axis_letter (c : ascii) : option ascii :=
  if Ascii.eqb c "X" || Ascii.eqb c "x" then Some "X"%char
  else if Ascii.eqb c "Y" || Ascii.eqb c "y" then Some "Y"%char
  else if Ascii.eqb c "E" || Ascii.eqb c "e" then Some "E"%char
  else if Ascii.eqb c "I" || Ascii.eqb c "i" then Some "I"%char
  else if Ascii.eqb c "J" || Ascii.eqb c "j" then Some "J"%char
  else if Ascii.eqb c "R" || Ascii.eqb c "r" then Some "R"%char
  else if Ascii.eqb c "Z" || Ascii.eqb c "z" then Some "Z"%char
  else None.

(** The longest run of digits at the head of [s], and what follows it. *)
Fixpoint span_digits (s : string) : string * string :=
  match s with
  | EmptyString => (EmptyString, EmptyString)
  | String c r =>
      if is_digit c then
        let '(d, rest) := span_digits r in (String c d, rest)
      else (EmptyString, s)
  end.

(** [[0-9]*\.?[0-9]+] with its backtracking resolved: digits, a dot and
    digits when the dot is followed by a digit; the digits alone when there
    is at least one; no match otherwise. *)
Definition match_unsigned (s : string) : option (string * string) :=
  let '(d1, rest) := span_digits s in
  let plain :=
    match d1 with
    | EmptyString => None
    | _ => Some (d1, rest)
    end in
  match rest with
  | String c r =>
      if Ascii.eqb c "." then
        match span_digits r with
        | (EmptyString, _) => plain
        | (d2, rest') => Some ((d1 ++ String c d2)%string, rest')
        end
      else plain
  | EmptyString => plain
  end.

(** Group 2: an optional sign, then the unsigned number. *)
Definition match_number (s : string) : option (string * string) :=
  match s with
  | String c r =>
      if Ascii.eqb c "-" || Ascii.eqb c "+" then
        match match_unsigned r with
        | Some (n, rest) => Some (String c n, rest)
        | None => None
        end
      else match_unsigned s
  | EmptyString => None
  end.

(** [COORD_RE.finditer]: the matches from left to right, not overlapping.
    After a match the scan resumes behind it; the fuel is the length of the
    text still to scan and never runs out. *)
Fixpoint finditer_fuel (fuel : nat) (s : string) : list (ascii * string) :=
  match fuel with
  | O => []
  | S fuel' =>
      match s with
      | EmptyString => []
      | String c r =>
          match axis_letter c with
          | Some k =>
              match match_number r with
              | Some (num, rest) => (k, num) :: finditer_fuel fuel' rest
              | None => finditer_fuel fuel' r
              end
          | None => finditer_fuel fuel' r
          end
      end
  end.

Definition COORD_RE_finditer (s : string) : list (ascii * string) :=
  finditer_fuel (String.length s) s.

End Tok.

(** ** Python dictionaries keyed by an axis letter *)

Module Dict.
Section Dict.
Context {V : Type}.

Definition t : Type := list (ascii * V).

(** [d[k] = v]: overwrite in place, or append a new key. *)
Fixpoint set (k : ascii) (v : V) (d : t) : t :=
  match d with
  | [] => [(k, v)]
  | (k', v') :: r =>
      if Ascii.eqb k k' then (k, v) :: r else (k', v') :: set k v r
  end.

(** [d.get(k)]; [k in d] is [mem]. *)
Fixpoint get (k : ascii) (d : t) : option V :=
  match d with
  | [] => None
  | (k', v) :: r => if Ascii.eqb k k' then Some v else get k r
  end.

Definition mem (k : ascii) (d : t) : bool :=
  match get k d with
  | Some _ => true
  | None => false
  end.

End Dict.
End Dict.

(** ** Motion-state trackers *)

Section Tracker.
Context {F : Type} `{FloatOps F}.

Definition f0 : F := float_of_Z 0.

(** [_parse_coords]: a dictionary from axis letter to value; a letter that
    occurs again overwrites its earlier value. *)
Definition _parse_coords (line : string) : Dict.t (V := F) :=
  fold_left (fun coords m => Dict.set (fst m) (float_of_string (snd m)) coords)
            (Tok.COORD_RE_finditer line) [].

Definition is_empty (s : string) : bool :=
  match s with
  | EmptyString => true
  | _ => false
  end.

(** *** [parse_gcode_points]: the (x, y) tracker feeding the resampler *)

Record state2 : Type := mkState2 {
  mode_absolute2 : bool;
  cur_x2 : F;
  cur_y2 : F
}.

Definition init2 : state2 := mkState2 true f0 f0.

Definition step2 (st : state2) (raw : string) : state2 * option (F * F) :=
  let line := Tok._strip_comments raw in
  if is_empty line then (st, None)
  else
    let mode :=
      if Tok.startswith "G90" line then true
      else if Tok.startswith "G91" line then false
      else mode_absolute2 st in
    if Tok.MOVE_CMD_RE line then
      let coords := _parse_coords line in
      let x := match Dict.get "X" coords with Some v => v | None => cur_x2 st end in
      let y := match Dict.get "Y" coords with Some v => v | None => cur_y2 st end in
      (mkState2 mode x y,
       if Dict.mem "X" coords || Dict.mem "Y" coords then Some (x, y) else None)
    else (mkState2 mode (cur_x2 st) (cur_y2 st), None).

Fixpoint gen2 (st : state2) (lines : list string) : list (F * F) :=
  match lines with
  | [] => []
  | raw :: rest =>
      let '(st', out) := step2 st raw in
      match out with
      | Some p => p :: gen2 st' rest
      | None => gen2 st' rest
      end
  end.

Definition parse_gcode_points (file : list string) : list (F * F) :=
  gen2 init2 file.

(** *** [parse_gcode_points_extrude]: the (x, y, z, extruding) tracker *)

Record state : Type := mkState {
  mode_absolute : bool;
  e_absolute : bool;
  cur_x : F;
  cur_y : F;
  cur_z : F;
  cur_e : F;
  last_e : F;
  e_offset : F;
  extruding_state : Z;
  debug_count : Z
}.

Definition sample : Type := (F * F * F * Z)%type.

Definition init : state :=
  mkState true true f0 f0 f0 f0 f0 f0 0 0.

(** The [if]/[elif] chain on the prefix of the line: mode switches and
    the [G92] position reset. *)
Definition apply_prefix (st : state) (line : string) : state :=
  if Tok.startswith "G90" line then
    mkState true (e_absolute st) (cur_x st) (cur_y st) (cur_z st)
            (cur_e st) (last_e st) (e_offset st) (extruding_state st) (debug_count st)
  else if Tok.startswith "G91" line then
    mkState false (e_absolute st) (cur_x st) (cur_y st) (cur_z st)
            (cur_e st) (last_e st) (e_offset st) (extruding_state st) (debug_count st)
  else if Tok.startswith "M82" line then
    mkState (mode_absolute st) true (cur_x st) (cur_y st) (cur_z st)
            (cur_e st) (last_e st) (e_offset st) (extruding_state st) (debug_count st)
  else if Tok.startswith "M83" line then
    mkState (mode_absolute st) false (cur_x st) (cur_y st) (cur_z st)
            (cur_e st) (last_e st) (e_offset st) (extruding_state st) (debug_count st)
  else if Tok.startswith "G92" line then
    let coords := _parse_coords line in
    let e := Dict.get "E" coords in
    let z := Dict.get "Z" coords in
    mkState (mode_absolute st) (e_absolute st) (cur_x st) (cur_y st)
            (match z with Some v => v | None => cur_z st end)
            (match e with Some v => v | None => cur_e st end)
            (match e with Some v => v | None => last_e st end)
            (match e with Some v => v | None => e_offset st end)
            (extruding_state st) (debug_count st)
  else st.

(** The body of [if MOVE_CMD_RE.search(line)].  The debug [print] of the
    first twenty samples is not modelled; its counter is. *)
Definition apply_move (st : state) (line : string) : state * option sample :=
  let coords := _parse_coords line in
  let x_found := Dict.mem "X" coords in
  let y_found := Dict.mem "Y" coords in
  let z_found := Dict.mem "Z" coords in
  let prev_e := cur_e st in
  let x := match Dict.get "X" coords with Some v => v | None => cur_x st end in
  let y := match Dict.get "Y" coords with Some v => v | None => cur_y st end in
  let z := match Dict.get "Z" coords with Some v => v | None => cur_z st end in
  let '(e, ext) :=
    match Dict.get "E" coords with
    | Some v =>
        if e_absolute st
        then (v, if fltb prev_e v then 1 else 0)
        else (fadd (cur_e st) v, if fltb f0 v then 1 else 0)
    | None => (cur_e st, extruding_state st)
    end in
  let emit := x_found || y_found || z_found in
  let dbg :=
    if emit && (debug_count st <? 20) then debug_count st + 1
    else debug_count st in
  (mkState (mode_absolute st) (e_absolute st) x y z e e (e_offset st) ext dbg,
   if emit then Some (x, y, z, ext) else None).

(** One iteration of the loop over the lines of the file. *)
Definition step (st : state) (raw : string) : state * option sample :=
  let line := Tok._strip_comments raw in
  if is_empty line then (st, None)
  else
    let st1 := apply_prefix st line in
    if Tok.MOVE_CMD_RE line then apply_move st1 line else (st1, None).

(** The state after a run of lines, and the samples yielded on the way. *)
Fixpoint run (st : state) (lines : list string) : state :=
  match lines with
  | [] => st
  | raw :: rest => run (fst (step st raw)) rest
  end.

Fixpoint gen (st : state) (lines : list string) : list sample :=
  match lines with
  | [] => []
  | raw :: rest =>
      let '(st', out) := step st raw in
      match out with
      | Some s => s :: gen st' rest
      | None => gen st' rest
      end
  end.

Definition parse_gcode_points_extrude (file : list string) : list sample :=
  gen init file.

(** [collect_sparse_points(file, raw=True)]: four parallel arrays. *)
Definition collect_raw (file : list string)
  : list F * list F * list F * list Z :=
  let pts := parse_gcode_points_extrude file in
  (map (fun s => fst (fst (fst s))) pts,
   map (fun s => snd (fst (fst s))) pts,
   map (fun s => snd (fst s)) pts,
   map (fun s => snd s) pts).

End Tracker.

(** ** Python list operations *)

Section PyList.
Context {A : Type}.

Definition len (l : list A) : Z := Z.of_nat (List.length l).

(** A slice bound [i] brought into [0 .. len]: negative bounds count from
    the end. *)
Definition slice_bound (i : Z) (l : list A) : nat :=
  Z.to_nat (if i <? 0 then Z.max (i + len l) 0 else Z.min i (len l)).

(** [l[i:]] and [l[:i]]. *)
Definition slice_from (i : Z) (l : list A) : list A := skipn (slice_bound i l) l.
Definition slice_to (i : Z) (l : list A) : list A := firstn (slice_bound i l) l.

(** [l[::2]]. *)
Fixpoint every_other (l : list A) : list A :=
  match l with
  | [] => []
  | x :: r =>
      x :: match r with
           | [] => []
           | _ :: r' => every_other r'
           end
  end.

(** [l[i]]: negative indices count from the end; out of range raises. *)
Definition getitem (l : list A) (i : Z) : option A :=
  let j := if i <? 0 then i + len l else i in
  if j <? 0 then None else nth_error l (Z.to_nat j).

(** [[l[i] for i in idxs]]. *)
Fixpoint getitems (l : list A) (idxs : list Z) : option (list A) :=
  match idxs with
  | [] => Some []
  | i :: r =>
      match getitem l i, getitems l r with
      | Some x, Some xs => Some (x :: xs)
      | _, _ => None
      end
  end.

End PyList.

(** ** Corner-adaptive resampler and streaming batcher *)

Section Resampler.
Context {F : Type} `{FloatOps F}.

Definition point : Type := (F * F)%type.

Definition f1 : F := float_of_Z 1.
Definition fm1 : F := float_of_Z (-1).

(** [np.linspace(start, stop, num)], as numpy computes it for scalars:
    [arange(num) * step + start] with [step = (stop - start) / (num - 1)],
    the multiplication split in two when the step is zero, and the last
    sample then set to [stop]; with a single sample there is no step.  A
    negative [num] raises [ValueError]. *)
Definition linspace (start stop : F) (num : Z) : option (list F) :=
  if num <? 0 then None
  else
    let div := num - 1 in
    let delta := fsub stop start in
    let scaled (i : nat) : F :=
      if 0 <? div then
        let step := fdiv delta (float_of_Z div) in
        if feqb step f0
        then fmul (fdiv (float_of_Z (Z.of_nat i)) (float_of_Z div)) delta
        else fmul (float_of_Z (Z.of_nat i)) step
      else fmul (float_of_Z (Z.of_nat i)) delta in
    let y := map (fun i => fadd (scaled i) start) (seq 0 (Z.to_nat num)) in
    Some (if 1 <? num then removelast y ++ [stop] else y).

(** [math.acos]: a [ValueError] outside [-1, 1]; a nan goes through. *)
Definition math_acos (c : F) : option F :=
  if fltb c fm1 || fltb f1 c then None else Some (facos c).

(** [min(a, b)] and [max(a, b)] of two arguments: the second one wins only
    when it compares strictly below (above) the first. *)
Definition py_min (a b : F) : F := if fltb b a then b else a.
Definition py_max (a b : F) : F := if fltb a b then b else a.

Definition _angle_between (a b : point) : option F :=
  let na := fnorm2 (fst a) (snd a) in
  let nb := fnorm2 (fst b) (snd b) in
  if feqb na f0 || feqb nb f0 then Some f0
  else
    let c := fdiv (fadd (fmul (fst a) (fst b)) (fmul (snd a) (snd b)))
                  (fmul na nb) in
    let c := py_max fm1 (py_min f1 c) in
    math_acos c.

(** [xs = np.linspace(a, b, n + 1)[1:]], the same for [ys], zipped. *)
Definition subdivide (p0 p1 : point) (n : Z) : option (list point) :=
  match linspace (fst p0) (fst p1) (n + 1), linspace (snd p0) (snd p1) (n + 1) with
  | Some xs, Some ys => Some (combine (slice_from 1 xs) (slice_from 1 ys))
  | _, _ => None
  end.

Definition _lin_interpolate (p0 p1 : point) (n : Z) : option (list point) :=
  if n <=? 1 then Some [p1] else subdivide p0 p1 n.

Record config : Type := mkConfig {
  batch_size : Z;
  angle_threshold_deg : F;
  corner_density : Z;
  straight_sample_dist : F
}.

(** Python float division: [ZeroDivisionError] on a zero divisor. *)
Definition truediv (a b : F) : option F :=
  if feqb b f0 then None else Some (fdiv a b).

(** [push]: append, and once the buffer has [batch_size] points hand out
    all but the last two, which stay as the new buffer.  The result is the
    buffer afterwards and the returned list ([None] when nothing is due). *)
Definition push (bsize : Z) (batch : list point) (p : point)
  : list point * option (list point) :=
  let batch := batch ++ [p] in
  if bsize <=? len batch then
    let tail := slice_from (-2) batch in
    let to_yield := slice_to (-2) batch in
    (tail, Some to_yield)
  else (batch, None).

(** A run of [res = push(q); if res is not None: yield res]. *)
Fixpoint push_all (bsize : Z) (batch : list point) (qs : list point)
  : list point * list (list point) :=
  match qs with
  | [] => (batch, [])
  | q :: rest =>
      let '(batch1, res) := push bsize batch q in
      let '(batch2, out) := push_all bsize batch1 rest in
      (batch2, match res with Some y => y :: out | None => out end)
  end.

(** The points [_append_segment(a, b)] pushes. *)
Definition segment_points (cfg : config) (a b : point) : option (list point) :=
  let dist := fhypot (fsub (fst b) (fst a)) (fsub (snd b) (snd a)) in
  if fleb dist f0 then Some []
  else
    match truediv dist (straight_sample_dist cfg) with
    | None => None
    | Some q =>
        match fceil q with
        | None => None
        | Some c => _lin_interpolate a b (Z.max 1 c)
        end
    end.

(** The points the corner branch pushes: the subdivision of prev2 -> prev1,
    then that of prev1 -> p.  All four [linspace] calls take the same
    [num], so none raises once the first has passed. *)
Definition corner_points (cfg : config) (p2 p1 p : point) : option (list point) :=
  match subdivide p2 p1 (corner_density cfg), subdivide p1 p (corner_density cfg) with
  | Some s1, Some s2 => Some (s1 ++ s2)
  | _, _ => None
  end.

Definition angle_threshold (cfg : config) : F := fradians (angle_threshold_deg cfg).

(** The rolling window [(prev2, prev1)]. *)
Definition window : Type := (option point * option point)%type.

(** The points pushed for the input point [p], in order. *)
Definition emitted (cfg : config) (w : window) (p : point) : option (list point) :=
  match snd w with
  | None => Some [p]
  | Some p1 =>
      match fst w with
      | None => segment_points cfg p1 p
      | Some p2 =>
          let v1 := (fsub (fst p1) (fst p2), fsub (snd p1) (snd p2)) in
          let v2 := (fsub (fst p) (fst p1), fsub (snd p) (snd p1)) in
          match _angle_between v1 v2 with
          | None => None
          | Some ang =>
              if fleb (angle_threshold cfg) ang
              then corner_points cfg p2 p1 p
              else segment_points cfg p1 p
          end
      end
  end.

Definition slide (w : window) (p : point) : window :=
  match snd w with
  | None => (None, Some p)
  | Some p1 => (Some p1, Some p)
  end.

(** The [for p in gen] loop: the batches yielded, and the buffer left at
    exhaustion ([None] when an exception ended the loop). *)
Fixpoint drive (cfg : config) (w : window) (batch : list point) (pts : list point)
  : list (list point) * option (list point) :=
  match pts with
  | [] => ([], Some batch)
  | p :: rest =>
      match emitted cfg w p with
      | None => ([], None)
      | Some qs =>
          let '(batch1, out) := push_all (batch_size cfg) batch qs in
          let '(out', fin) := drive cfg (slide w p) batch1 rest in
          (out ++ out', fin)
      end
  end.

(** The generator: the batches it yields, and whether it ran to exhaustion
    ([false]: an exception was raised after the batches listed). *)
Definition batch_points_for_spline (file : list string) (cfg : config)
  : list (list point) * bool :=
  match drive cfg (None, None) [] (parse_gcode_points file) with
  | (out, Some batch) =>
      (out ++ match batch with [] => [] | _ => [batch] end, true)
  | (out, None) => (out, false)
  end.

(** The resampled stream: every point handed to [push], in order, and
    whether the input was exhausted. *)
Fixpoint resample (cfg : config) (w : window) (pts : list point)
  : list point * bool :=
  match pts with
  | [] => ([], true)
  | p :: rest =>
      match emitted cfg w p with
      | None => ([], false)
      | Some qs =>
          let '(r, ok) := resample cfg (slide w p) rest in (qs ++ r, ok)
      end
  end.

Definition resampled_points (file : list string) (cfg : config) : list point * bool :=
  resample cfg (None, None) (parse_gcode_points file).

(** *** [collect_sparse_points], sparse mode *)

(** The loop over the batches: extend, then halve when above twice the cap. *)
Definition accumulate_step (max_points : Z) (kept batch : list point) : list point :=
  let kept := kept ++ batch in
  if max_points * 2 <? len kept then every_other kept else kept.

Definition accumulate (max_points : Z) (batches : list (list point)) : list point :=
  fold_left (accumulate_step max_points) batches [].

(** [np.linspace(0, len(kept) - 1, max_points).astype(int)]. *)
Definition linspace_indices (kept : list point) (max_points : Z) : option (list Z) :=
  match linspace (float_of_Z 0) (float_of_Z (len kept - 1)) max_points with
  | Some ys => Some (map ftrunc ys)
  | None => None
  end.

Definition cap (kept : list point) (max_points : Z) : option (list point) :=
  if max_points <? len kept then
    match linspace_indices kept max_points with
    | Some idxs => getitems kept idxs
    | None => None
    end
  else Some kept.

Definition collect_sparse_points (file : list string) (max_points : Z) (cfg : config)
  : option (list F * list F) :=
  match batch_points_for_spline file cfg with
  | (batches, true) =>
      match cap (accumulate max_points batches) max_points with
      | Some kept => Some (map fst kept, map snd kept)
      | None => None
      end
  | (_, false) => None
  end.

End Resampler.

(** ** Vocabulary of the specification *)

Section Vocabulary.
Context {F : Type} `{FloatOps F}.

Local Abbreviation state := (@state F).
Local Abbreviation sample := (@sample F).
Local Abbreviation point := (@point F).
Local Abbreviation config := (@config F).

(** The axis values a raw line carries, once its comments are stripped. *)
Definition line_coords (raw : string) : Dict.t (V := F) :=
  _parse_coords (Tok._strip_comments raw).

(** A recognized motion line: [G0], [G1], [G00] or [G01]. *)
Definition is_motion_line (raw : string) : bool :=
  Tok.MOVE_CMD_RE (Tok._strip_comments raw).

(** The line specifies at least one of X, Y, Z. *)
Definition has_xyz (raw : string) : bool :=
  Dict.mem "X" (line_coords raw) || Dict.mem "Y" (line_coords raw)
  || Dict.mem "Z" (line_coords raw).

Definition emits (raw : string) : bool := is_motion_line raw && has_xyz raw.

Definition carries_e (raw : string) : bool := Dict.mem "E" (line_coords raw).

(** A [G92] line. *)
Definition is_g92_line (raw : string) : bool :=
  Tok.startswith "G92" (Tok._strip_comments raw).

(** The position sample read off a tracker state. *)
Definition sample_of (st : state) : sample :=
  (cur_x st, cur_y st, cur_z st, extruding_state st).

(** The tracker state with its G90/G91 flag replaced. *)
Definition with_mode (b : bool) (st : state) : state :=
  mkState b (e_absolute st) (cur_x st) (cur_y st) (cur_z st) (cur_e st)
          (last_e st) (e_offset st) (extruding_state st) (debug_count st).

(** The batches yielded before the input is exhausted. *)
Definition midstream_batches (file : list string) (cfg : config) : list (list point) :=
  fst (drive cfg (None, None) [] (parse_gcode_points file)).

(** The [j]-th of [n] evenly spaced steps from [start] to [stop]: [j]
    times the [n]-th part of the way, added to [start]; the last one is
    [stop] itself. *)
Definition lin_sample (start stop : F) (n j : Z) : F :=
  if j =? n then stop
  else
    let delta := fsub stop start in
    let step := fdiv delta (float_of_Z n) in
    fadd (if feqb step f0
          then fmul (fdiv (float_of_Z j) (float_of_Z n)) delta
          else fmul (float_of_Z j) step)
         start.

(** [n] evenly spaced points from [p0] to [p1], [p0] excluded, [p1] included. *)
Definition subdivision (p0 p1 : point) (n : Z) : list point :=
  map (fun i => let j := Z.of_nat (S i) in
                (lin_sample (fst p0) (fst p1) n j, lin_sample (snd p0) (snd p1) n j))
      (seq 0 (Z.to_nat n)).

(** The distance [_append_segment] measures between [a] and [b]. *)
Definition distance (a b : point) : F :=
  fhypot (fsub (fst b) (fst a)) (fsub (snd b) (snd a)).

(** The turn angle of the window [(p2, p1, p)]. *)
Definition turn_angle (p2 p1 p : point) : option F :=
  _angle_between (fsub (fst p1) (fst p2), fsub (snd p1) (snd p2))
                 (fsub (fst p) (fst p1), fsub (snd p) (snd p1)).

End Vocabulary.

(** *** The Streaming Batcher as the specification words it

    Buffer the points; once the buffer reaches or exceeds the batch size,
    yield all but the last two buffered points and keep the last two as the
    seed of the next batch; at exhaustion yield what remains, unless it is
    empty. *)

Section BatcherSpec.
Context {A : Type}.

Definition all_but_last_two (l : list A) : list A := removelast (removelast l).

Definition last_two (l : list A) : list A :=
  match rev l with
  | a :: b :: _ => [b; a]
  | r => r
  end.

Fixpoint batcher_feed (bsize : Z) (buf pts : list A) : list (list A) * list A :=
  match pts with
  | [] => ([], buf)
  | p :: rest =>
      let buf := buf ++ [p] in
      if bsize <=? len buf then
        let '(out, fin) := batcher_feed bsize (last_two buf) rest in
        (all_but_last_two buf :: out, fin)
      else batcher_feed bsize buf rest
  end.

Definition batcher (bsize : Z) (pts : list A) : list (list A) :=
  let '(out, fin) := batcher_feed bsize [] pts in
  out ++ match fin with [] => [] | _ => [fin] end.

(** Concatenation of the batches with a two-point overlap dropped at each
    boundary: the first two points of every batch after the first. *)
Definition drop_overlap (batches : list (list A)) : list A :=
  match batches with
  | [] => []
  | b :: rest => b ++ List.concat (map (slice_from 2) rest)
  end.

End BatcherSpec.

(** ** More of the tokenizer and of the trackers *)

(** [ARC_CMD_RE = ^(?:G2|G3|G02|G03)\b]: compiled by the module, consulted
    by neither parser. *)
Definition ARC_CMD_RE (line : string) : bool :=
  Tok.matches_word "G2" line || Tok.matches_word "G3" line
  || Tok.matches_word "G02" line || Tok.matches_word "G03" line.

(** The character [c] occurs in [s]. *)
Fixpoint occurs (c : ascii) (s : string) : bool :=
  match s with
  | EmptyString => false
  | String a r => Ascii.eqb a c || occurs c r
  end.

(** A line as the iteration over a text file hands it out: no newline but,
    possibly, its last character. *)
Fixpoint single_line (s : string) : bool :=
  match s with
  | EmptyString => true
  | String c r => if Ascii.eqb c Tok.newline then is_empty r else single_line r
  end.

Definition first_char (s : string) : option ascii :=
  match s with
  | EmptyString => None
  | String c _ => Some c
  end.

Fixpoint last_char (s : string) : option ascii :=
  match s with
  | EmptyString => None
  | String c EmptyString => Some c
  | String _ r => last_char r
  end.

(** The text of the last match for the axis letter [k]. *)
Definition last_match (k : ascii) (ms : list (ascii * string)) : option string :=
  option_map snd (find (fun m => Ascii.eqb k (fst m)) (rev ms)).

(** One list is the other with some elements left out, the order kept. *)
Inductive subseq {A : Type} : list A -> list A -> Prop :=
| subseq_nil : subseq [] []
| subseq_keep x l l' : subseq l l' -> subseq (x :: l) (x :: l')
| subseq_skip x l l' : subseq l l' -> subseq l (x :: l').

Section TrackerVocabulary.
Context {F : Type} `{FloatOps F}.

Definition is_arc_line (raw : string) : bool :=
  ARC_CMD_RE (Tok._strip_comments raw).

(** The stripped line is one the loop of [parse_gcode_points_extrude]
    reacts to: a motion line, a mode switch or a G92 reset. *)
Definition recognized (raw : string) : bool :=
  let line := Tok._strip_comments raw in
  Tok.MOVE_CMD_RE line
  || Tok.startswith "G90" line || Tok.startswith "G91" line
  || Tok.startswith "M82" line || Tok.startswith "M83" line
  || Tok.startswith "G92" line.

(** A G90 or G91 line. *)
Definition is_positioning_line (raw : string) : bool :=
  let line := Tok._strip_comments raw in
  Tok.startswith "G90" line || Tok.startswith "G91" line.

(** The line makes [parse_gcode_points] yield: a motion line with X or Y. *)
Definition emits_xy (raw : string) : bool :=
  is_motion_line raw
  && (Dict.mem "X" (line_coords (F := F) raw) || Dict.mem "Y" (line_coords (F := F) raw)).

(** The state of [parse_gcode_points] after a run of lines. *)
Fixpoint run2 (st : @state2 F) (lines : list string) : @state2 F :=
  match lines with
  | [] => st
  | raw :: rest => run2 (fst (step2 st raw)) rest
  end.

(** Both trackers hold the same x and y. *)
Definition xy_agree (st2 : @state2 F) (st : @state F) : Prop :=
  cur_x2 st2 = cur_x st /\ cur_y2 st2 = cur_y st.

(** The extruding flag of the state is 0 or 1. *)
Definition flag_is_bit (st : @state F) : Prop :=
  extruding_state st = 0 \/ extruding_state st = 1.

(** Two tracker states that differ at most in the G90/G91 flag. *)
Definition same_but_mode (a b : @state F) : Prop :=
  with_mode true a = with_mode true b.

End TrackerVocabulary.

(** ** Numbers as [COORD_RE] reads them, and the G-code writer *)

(** The whole of [s] is one number of [COORD_RE]: an optional sign, digits,
    and possibly a dot followed by digits. *)
Definition plain_number (s : string) : bool :=
  match Tok.match_number s with
  | Some (_, EmptyString) => true
  | _ => false
  end.

(** A run of digits, and a text that does not start with a digit. *)
Fixpoint all_digits (s : string) : bool :=
  match s with
  | EmptyString => true
  | String c r => Tok.is_digit c && all_digits r
  end.

Definition no_digit_head (t : string) : bool :=
  match t with
  | EmptyString => true
  | String c _ => negb (Tok.is_digit c)
  end.

(** The two shapes of an unsigned number: digits, or digits (possibly none),
    a dot and digits. *)
Definition unsigned_shape (s : string) : Prop :=
  (all_digits s = true /\ s <> EmptyString)
  \/ exists d1 d2,
       s = (d1 ++ String "." d2)%string
       /\ all_digits d1 = true /\ all_digits d2 = true /\ d2 <> EmptyString.

Definition number_shape (s : string) : Prop :=
  unsigned_shape s
  \/ exists c u, s = String c u /\ (c = "-"%char \/ c = "+"%char)
                 /\ unsigned_shape u.

(** Every character of [s] satisfies [p]. *)
Fixpoint all_chars (p : ascii -> bool) (s : string) : bool :=
  match s with
  | EmptyString => true
  | String c r => p c && all_chars p r
  end.

(** A character a number can hold. *)
Definition number_char (c : ascii) : bool :=
  Tok.is_digit c || Ascii.eqb c "." || Ascii.eqb c "-" || Ascii.eqb c "+".

(** The text [t] cannot prolong a number that stands before it: it is empty
    or starts with a character that is neither a digit nor a dot. *)
Definition ends_number (t : string) : bool :=
  match t with
  | EmptyString => true
  | String c _ => negb (Tok.is_digit c) && negb (Ascii.eqb c ".")
  end.

(** [line + "\n"], as the writer puts it and the reader hands it back. *)
Definition with_newline (line : string) : string :=
  (line ++ String Tok.newline EmptyString)%string.

Module Writer.
Local Open Scope string_scope.

(** A row of [csv.DictReader]: [row.get(column)] for the four columns the
    writer consults; [None] for a column the file or the row does not
    have. *)
Record csv_row : Type := mkRow {
  center_x : option string;
  center_y : option string;
  center_z : option string;
  angle_deg : option string
}.

Definition HEADER : list string :=
  ["; Generated from wheel_centers.csv";
   "G90 ; Absolute positioning";
   "G21 ; Set units to mm";
   "G92 X0 Y0 Z0 ; Set current position as zero"].

Definition FOOTER : list string := ["M2 ; End of program"].

(** [line += f" {letter}{v}"] under [if v is not None and v != '']. *)
Definition add_word (letter : string) (v : option string) (line : string) : string :=
  match v with
  | Some t => if is_empty t then line else line ++ " " ++ letter ++ t
  | None => line
  end.

(** The line written for a row; rows without x or y are passed over. *)
Definition row_line (row : csv_row) : option string :=
  match center_x row, center_y row with
  | Some x, Some y =>
      Some (add_word "A" (angle_deg row)
              (add_word "Z" (center_z row) ("G1 X" ++ x ++ " Y" ++ y)))
  | _, _ => None
  end.

Fixpoint row_lines (rows : list csv_row) : list string :=
  match rows with
  | [] => []
  | row :: rest =>
      match row_line row with
      | Some line => line :: row_lines rest
      | None => row_lines rest
      end
  end.

(** [csv_to_gcode]: the lines of the file it writes, each ended by a
    newline. *)
Definition csv_to_gcode (rows : list csv_row) : list string :=
  map with_newline (HEADER ++ row_lines rows ++ FOOTER).

(** The fields of a row are numbers as [COORD_RE] reads them. *)
Definition numeric_field (v : option string) : bool :=
  match v with
  | Some t => is_empty t || plain_number t
  | None => true
  end.

Definition numeric_row (row : csv_row) : bool :=
  match center_x row, center_y row with
  | Some x, Some y =>
      plain_number x && plain_number y
      && numeric_field (center_z row) && numeric_field (angle_deg row)
  | _, _ => true
  end.

End Writer.

Section WriterReadBack.
Context {F : Type} `{FloatOps F}.

(** What the raw parser is expected to read back from the rows: x and y of
    each row that has both, z of the last row so far that gave one ([z0]
    before that), the extruding flag untouched. *)
Fixpoint row_samples (z0 : F) (flag : Z) (rows : list Writer.csv_row)
  : list (@sample F) :=
  match rows with
  | [] => []
  | row :: rest =>
      match Writer.center_x row, Writer.center_y row with
      | Some x, Some y =>
          let z :=
            match Writer.center_z row with
            | Some t => if is_empty t then z0 else float_of_string t
            | None => z0
            end in
          (float_of_string x, float_of_string y, z, flag)
          :: row_samples z flag rest
      | _, _ => row_samples z0 flag rest
      end
  end.

End WriterReadBack.

(** ** [COORD_RE] and [_parse_coords] on lines of any code points

    The parsers open their file as UTF-8, so a line can hold code points
    from 256 on, which a [string] cannot.  Two of them match the letter
    class of [COORD_RE] under [re.IGNORECASE]: U+0131, whose upper case is
    I, and U+0130, which is its own upper case and so becomes a key of its
    own.  Here a line is the list of its code points; [Tok] is this model
    on the lines of code points below 256. *)

Module Unicode.

(** The code points of a line that a [string] can hold, and the text of a
    list of code points below 256. *)
Definition decode (s : string) : list N :=
  map Tok.code (list_ascii_of_string s).

Definition text (cs : list N) : string :=
  string_of_list_ascii (map ascii_of_N cs).

Definition is_digit (c : N) : bool := ((48 <=? c) && (c <=? 57))%N.

Definition is_char (a : ascii) (c : N) : bool := (c =? Tok.code a)%N.

(** U+0130, capital I with a dot above, and U+0131, small dotless i. *)
Definition dotted_I : N := 304.
Definition dotless_i : N := 305.

(** Group 1 after [m.group(1).upper()].  Under [re.IGNORECASE] the class
    [[XYEIJRZ]] takes the seven letters in either case and, for I, the two
    code points whose case mappings meet it: the upper case of U+0131 is I,
    that of U+0130 is U+0130 itself. *)
Definition axis_letter (c : N) : option N :=
  if is_char "X" c || is_char "x" c then Some (Tok.code "X")
  else if is_char "Y" c || is_char "y" c then Some (Tok.code "Y")
  else if is_char "E" c || is_char "e" c then Some (Tok.code "E")
  else if is_char "I" c || is_char "i" c || (c =? dotless_i)%N
       then Some (Tok.code "I")
  else if (c =? dotted_I)%N then Some dotted_I
  else if is_char "J" c || is_char "j" c then Some (Tok.code "J")
  else if is_char "R" c || is_char "r" c then Some (Tok.code "R")
  else if is_char "Z" c || is_char "z" c then Some (Tok.code "Z")
  else None.

(** The longest run of digits at the head of [s], and what follows it. *)
Fixpoint span_digits (s : list N) : list N * list N :=
  match s with
  | [] => ([], [])
  | c :: r =>
      if is_digit c then
        let '(d, rest) := span_digits r in (c :: d, rest)
      else ([], s)
  end.

(** [[0-9]*\.?[0-9]+], resolved as in [Tok.match_unsigned]. *)
Definition match_unsigned (s : list N) : option (list N * list N) :=
  let '(d1, rest) := span_digits s in
  let plain :=
    match d1 with
    | [] => None
    | _ => Some (d1, rest)
    end in
  match rest with
  | c :: r =>
      if is_char "." c then
        match span_digits r with
        | ([], _) => plain
        | (d2, rest') => Some ((d1 ++ c :: d2)%list, rest')
        end
      else plain
  | [] => plain
  end.

(** Group 2: an optional sign, then the unsigned number. *)
Definition match_number (s : list N) : option (list N * list N) :=
  match s with
  | c :: r =>
      if is_char "-" c || is_char "+" c then
        match match_unsigned r with
        | Some (n, rest) => Some (c :: n, rest)
        | None => None
        end
      else match_unsigned s
  | [] => None
  end.

(** [COORD_RE.finditer]; the fuel is the length of the text still to
    scan. *)
Fixpoint finditer_fuel (fuel : nat) (s : list N) : list (N * list N) :=
  match fuel with
  | O => []
  | S fuel' =>
      match s with
      | [] => []
      | c :: r =>
          match axis_letter c with
          | Some k =>
              match match_number r with
              | Some (num, rest) => (k, num) :: finditer_fuel fuel' rest
              | None => finditer_fuel fuel' r
              end
          | None => finditer_fuel fuel' r
          end
      end
  end.

Definition COORD_RE_finditer (s : list N) : list (N * list N) :=
  finditer_fuel (List.length s) s.

(** The text of the last match for the key [k]. *)
Definition last_match (k : N) (ms : list (N * list N)) : option (list N) :=
  option_map snd (find (fun m => (k =? fst m)%N) (rev ms)).

Section Dict.
Context {V : Type}.

(** A dictionary keyed by a one-character string, that is by a code
    point. *)
Definition dict : Type := list (N * V).

Fixpoint set (k : N) (v : V) (d : dict) : dict :=
  match d with
  | [] => [(k, v)]
  | (k', v') :: r =>
      if (k =? k')%N then (k, v) :: r else (k', v') :: set k v r
  end.

Fixpoint get (k : N) (d : dict) : option V :=
  match d with
  | [] => None
  | (k', v) :: r => if (k =? k')%N then Some v else get k r
  end.

Definition mem (k : N) (d : dict) : bool :=
  match get k d with
  | Some _ => true
  | None => false
  end.

End Dict.

Section Coords.
Context {F : Type} `{FloatOps F}.

Definition _parse_coords (line : list N) : dict (V := F) :=
  fold_left (fun coords m => set (fst m) (float_of_string (text (snd m))) coords)
            (COORD_RE_finditer line) [].

End Coords.

(** The keys [_parse_coords] gives a line without U+0130. *)
Definition ascii_keys : list N :=
  map Tok.code ["X"; "Y"; "E"; "I"; "J"; "R"; "Z"]%char.

(** A pair of texts as code points. *)
Definition decode_pair (p : string * string) : list N * list N :=
  (decode (fst p), decode (snd p)).

End Unicode.

(** ** A reference instance of the float interface

    Exact rational arithmetic, used to run the definitions on concrete
    files.  Decimal literals, sums, differences, products and comparisons
    are exact; square roots are exact on rational squares and truncated at
    twelve decimals otherwise; [acos] is the polynomial approximation of
    Abramowitz and Stegun (4.4.45), exact at 1.  Division by zero, which
    numpy answers with inf or nan, gives 0 here. *)

Module RefFloat.

Fixpoint digits_value (acc : Z) (s : string) : Z :=
  match s with
  | EmptyString => acc
  | String c r => digits_value (10 * acc + Z.of_N (Tok.code c) - 48) r
  end.

Definition unsigned_of_string (s : string) : Q :=
  let '(d1, rest) := Tok.span_digits s in
  match rest with
  | String _ d2 =>
      Qred (Qmake (digits_value (digits_value 0 d1) d2)
                  (Nat.iter (String.length d2) (Pos.mul 10) 1%positive))
  | EmptyString => Qmake (digits_value 0 d1) 1
  end.

Definition of_string (s : string) : Q :=
  match s with
  | String c r =>
      if Ascii.eqb c "-" then Qred (Qopp (unsigned_of_string r))
      else if Ascii.eqb c "+" then unsigned_of_string r
      else unsigned_of_string s
  | EmptyString => 0%Q
  end.

Definition sqrt (q : Q) : Q :=
  Qred (Qmake (Z.sqrt (Qnum q * Zpos (Qden q) * 10 ^ 24))
              (Qden q * 10 ^ 12)).

Definition hypot (x y : Q) : Q := sqrt (x * x + y * y)%Q.

Definition pi : Q := Qmake 314159265358979 100000000000000.

Definition acos_pos (x : Q) : Q :=
  (sqrt (1 - x)
   * (Qmake 15707288 10000000
      + x * (Qmake (-2121144) 10000000
             + x * (Qmake 742610 10000000
                    + x * Qmake (-187293) 10000000))))%Q.

Definition acos (x : Q) : Q :=
  Qred (if Qle_bool 0 x then acos_pos x else pi - acos_pos (- x))%Q.

Definition ceil (q : Q) : Z := - ((- Qnum q) / Zpos (Qden q)).

#[export] Instance ops : FloatOps Q := {|
  float_of_string := of_string;
  float_of_Z := inject_Z;
  fadd a b := Qred (a + b);
  fsub a b := Qred (a - b);
  fmul a b := Qred (a * b);
  fdiv a b := Qred (a / b);
  feqb := Qeq_bool;
  fltb a b := negb (Qle_bool b a);
  fleb := Qle_bool;
  fnorm2 := hypot;
  fhypot := hypot;
  facos := acos;
  fradians d := Qred (d * pi / inject_Z 180);
  fceil q := Some (ceil q);
  ftrunc q := Z.quot (Qnum q) (Zpos (Qden q))
|}.

End RefFloat.

(** ** Concrete files and settings *)

Module Inputs.
Local Open Scope string_scope.

(** A print move, a retraction, an extruder reset and a travel move. *)
Definition retract_file : list string :=
  ["G1 X1 E1"; "G1 E0"; "G1 X2"].

Definition mixed_file : list string :=
  ["G1 X5 E1"; "G1 E2 ; prime"; "G92 E0"; "G1 Y3"].

(** The file of the repository's corner-density test. *)
Definition corner_file : list string := ["G1 X0 Y0"; "G1 X1 Y0"; "G1 X1 Y1"].

(** Two motion lines three millimetres apart. *)
Definition line_file : list string := ["G1 X0 Y0"; "G1 X3 Y0"].

(** The file of the repository's test of the sparse collector. *)
Definition six_points_file : list string :=
  ["G1 X0 Y0"; "G1 X1 Y0"; "G1 X2 Y0"; "G1 X3 Y0"; "G1 X4 Y0"; "G1 X5 Y0"].

(** The defaults of [batch_points_for_spline] with the given batch size
    and sample distance. *)
Definition settings (bsize : Z) (dist : Q) : @config Q :=
  mkConfig bsize (inject_Z 30) 6 dist.

(** The settings of the repository's corner-density test. *)
Definition corner_settings : @config Q :=
  mkConfig 50 (inject_Z 20) 4 (Qmake 1 5).

Definition line_points : list (@point Q) :=
  [(0, 0); (1, 0); (2, 0); (3, 0)]%Q.

(** The settings of the corner-density test with the corner density
    turned off. *)
Definition flat_corner_settings : @config Q :=
  mkConfig 50 (inject_Z 20) 0 (Qmake 1 5).

(** The code points of [G1 <U+0130>5 X1], its fourth character being U+0130. *)
Definition dotted_line : list N := [71; 49; 32; 304; 53; 32; 88; 49]%N.

(** Rows of a wheel-centre table: a full row, a row without a [center_y]
    cell, and a row whose [center_z] cell is empty. *)
Definition wheel_rows : list Writer.csv_row :=
  [Writer.mkRow (Some "1.5") (Some "2") (Some "0.2") (Some "90");
   Writer.mkRow (Some "3") None None None;
   Writer.mkRow (Some "4") (Some "5") (Some EmptyString) None].

End Inputs.

(** ** Running the definitions on the examples of the specification *)

Module Examples.
Import RefFloat Inputs.
Local Open Scope string_scope.

Example strip_both_kinds :
  Tok._strip_comments "  G1 X1 (move) Y2 ; trailing" = "G1 X1  Y2".
Proof. reflexivity. Qed.

Example move_needs_word_boundary :
  map Tok.MOVE_CMD_RE ["G1 X1"; "G01"; "G1X1"; "G10 X1"; "g1 X1"; "G00 Y2"; "G92 E0"]
  = [true; true; false; false; false; true; false].
Proof. reflexivity. Qed.

Example coords_backtracking :
  map Tok.COORD_RE_finditer ["G1 X1.5.3 y-.5"; "X1. E+2"; "X- Z.25"]
  = [[("X"%char, "1.5"); ("Y"%char, "-.5")];
     [("X"%char, "1"); ("E"%char, "+2")];
     [("Z"%char, ".25")]].
Proof. reflexivity. Qed.

Example axis_stickiness :
  parse_gcode_points_extrude ["G1 X5"; "G1 Y3"]
  = [(5, 0, 0, 0%Z); (5, 3, 0, 0%Z)]%Q.
Proof. reflexivity. Qed.

Example extrusion_absolute :
  map snd (parse_gcode_points_extrude ["G1 X1 E1"; "G1 X2 E2"]) = [1; 1]%Z.
Proof. reflexivity. Qed.

Example extrusion_relative :
  map snd (parse_gcode_points_extrude ["M83"; "G1 X1 E1"; "G1 X1 E-1"]) = [1; 0]%Z.
Proof. reflexivity. Qed.

Example pure_e_emits_nothing :
  parse_gcode_points_extrude ["G1 E5"] = [].
Proof. reflexivity. Qed.

Example end_to_end :
  parse_gcode_points ["G1 X0 Y0"; "G1 X1 Y0"; "G1 X2 Y0"]
  = [(0, 0); (1, 0); (2, 0)]%Q.
Proof. reflexivity. Qed.

Example corner_gets_extra_points :
  List.concat (fst (batch_points_for_spline corner_file corner_settings))
  = [(0, 0); (1 # 5, 0); (2 # 5, 0); (3 # 5, 0); (4 # 5, 0); (1, 0);
     (1 # 4, 0); (1 # 2, 0); (3 # 4, 0); (1, 0);
     (1, 1 # 4); (1, 1 # 2); (1, 3 # 4); (1, 1)]%Q.
Proof. reflexivity. Qed.

Example zero_sample_distance_raises :
  batch_points_for_spline line_file (settings 3 0) = ([], false).
Proof. reflexivity. Qed.

End Examples.


(** ** Facts about the tokenizer *)

Section TokFacts.

(** A line that [MOVE_CMD_RE] accepts starts with G0 or G1. *)
Lemma move_line_shape (line : string) :
  Tok.MOVE_CMD_RE line = true ->
  exists c r, line = String "G" (String c r) /\ (c = "0"%char \/ c = "1"%char).
Proof.
  unfold Tok.MOVE_CMD_RE, Tok.matches_word.
  destruct line as [|c1 [|c2 r]]; cbn [Tok.after_prefix].
  - discriminate.
  - destruct (Ascii.eqb_spec "G" c1); discriminate.
  - destruct (Ascii.eqb_spec "G" c1) as [<-|]; [|discriminate].
    destruct (Ascii.eqb_spec "0" c2) as [<-|]; [eauto|].
    destruct (Ascii.eqb_spec "1" c2) as [<-|]; [eauto|discriminate].
Qed.

Lemma move_line_not_empty (line : string) :
  Tok.MOVE_CMD_RE line = true -> is_empty line = false.
Proof.
  intros Hm. destruct (move_line_shape line Hm) as (c & r & -> & _). reflexivity.
Qed.

(** No mode switch and no G92 reset starts the way a motion line does. *)
Lemma move_line_no_prefix (line : string) :
  Tok.MOVE_CMD_RE line = true ->
  Tok.startswith "G90" line = false /\ Tok.startswith "G91" line = false
  /\ Tok.startswith "M82" line = false /\ Tok.startswith "M83" line = false
  /\ Tok.startswith "G92" line = false.
Proof.
  intros Hm. destruct (move_line_shape line Hm) as (c & r & -> & [-> | ->]);
    repeat split; reflexivity.
Qed.

(** A G92 line is neither empty, nor a mode switch, nor a motion line. *)
Lemma g92_line_shape (line : string) :
  Tok.startswith "G92" line = true ->
  is_empty line = false
  /\ Tok.startswith "G90" line = false /\ Tok.startswith "G91" line = false
  /\ Tok.startswith "M82" line = false /\ Tok.startswith "M83" line = false
  /\ Tok.MOVE_CMD_RE line = false.
Proof.
  destruct line as [|c1 [|c2 [|c3 r]]]; cbn [Tok.startswith].
  - discriminate.
  - rewrite andb_false_r. discriminate.
  - rewrite !andb_false_r. discriminate.
  - destruct (Ascii.eqb_spec "G" c1) as [<-|]; [|discriminate].
    destruct (Ascii.eqb_spec "9" c2) as [<-|]; [|discriminate].
    destruct (Ascii.eqb_spec "2" c3) as [<-|]; [|discriminate].
    intros _. repeat split; reflexivity.
Qed.

End TokFacts.

(** ** The motion-state tracker *)

Section TrackerFacts.
Context {F : Type} `{FloatOps F}.

Local Abbreviation state := (@state F).

Lemma step_motion (st : state) (raw : string) :
  is_motion_line raw = true ->
  step st raw = apply_move st (Tok._strip_comments raw).
Proof.
  unfold is_motion_line, step. intros Hm. rewrite Hm.
  rewrite (move_line_not_empty _ Hm).
  destruct (move_line_no_prefix _ Hm) as (H90 & H91 & H82 & H83 & H92).
  unfold apply_prefix. rewrite H90, H91, H82, H83, H92. reflexivity.
Qed.

Lemma step_not_motion (st : state) (raw : string) :
  is_motion_line raw = false -> snd (step st raw) = None.
Proof.
  unfold is_motion_line, step. intros Hm. rewrite Hm.
  destruct (is_empty _); reflexivity.
Qed.

Lemma apply_move_sample (st : state) (line : string) :
  snd (apply_move st line)
  = if Dict.mem "X" (_parse_coords line) || Dict.mem "Y" (_parse_coords line)
       || Dict.mem "Z" (_parse_coords line)
    then Some (sample_of (fst (apply_move st line))) else None.
Proof.
  unfold apply_move, sample_of.
  destruct (Dict.get "E" (_parse_coords line)); [destruct (e_absolute st)|];
    cbn [fst snd]; destruct (_ || _ || _); reflexivity.
Qed.

(** A line yields a sample exactly when it is a motion line with X, Y or Z,
    and the sample is the position the tracker has reached. *)
Lemma step_sample (st : state) (raw : string) :
  snd (step st raw)
  = if emits raw then Some (sample_of (fst (step st raw))) else None.
Proof.
  unfold emits. destruct (is_motion_line raw) eqn:Hm.
  - rewrite step_motion by exact Hm. rewrite apply_move_sample. reflexivity.
  - apply step_not_motion. exact Hm.
Qed.

Lemma gen_cons (st : state) (raw : string) (rest : list string) :
  gen st (raw :: rest)
  = (if emits raw then [sample_of (fst (step st raw))] else [])
    ++ gen (fst (step st raw)) rest.
Proof.
  cbn [gen]. pose proof (step_sample st raw) as Hs.
  destruct (step st raw) as [st' out]. cbn [fst snd] in *. subst out.
  destruct (emits raw); reflexivity.
Qed.

Lemma gen_app (st : state) (pre post : list string) :
  gen st (pre ++ post) = gen st pre ++ gen (run st pre) post.
Proof.
  revert st. induction pre as [|raw pre IH]; intros st; [reflexivity|].
  rewrite <- app_comm_cons, !gen_cons, IH, app_assoc. reflexivity.
Qed.

Lemma run_app (st : state) (pre post : list string) :
  run st (pre ++ post) = run (run st pre) post.
Proof.
  revert st. induction pre as [|raw pre IH]; intros st; [reflexivity|].
  cbn [run app]. apply IH.
Qed.

Lemma gen_length (st : state) (file : list string) :
  List.length (gen st file) = List.length (filter emits file).
Proof.
  revert st. induction file as [|raw file IH]; intros st; [reflexivity|].
  rewrite gen_cons, length_app, IH. cbn [filter].
  destruct (emits raw); reflexivity.
Qed.

(** The sample of the [i]-th emitting line sits at index [i]. *)
Lemma gen_nth (pre post : list string) (raw : string) :
  emits raw = true ->
  nth_error (gen init (pre ++ raw :: post)) (List.length (filter emits pre))
  = Some (sample_of (run init (pre ++ [raw]))).
Proof.
  intros He. rewrite gen_app, gen_cons, He, run_app.
  rewrite <- (gen_length init pre).
  rewrite nth_error_app2 by lia. rewrite Nat.sub_diag. reflexivity.
Qed.

(** C1.  Raw-mode extraction yields one sample for each motion line that
    specifies X, Y or Z, and none for any other line (a motion line with
    E alone included); the four sequences it returns have one entry for
    each such line, and the entry at index [i] is the position and flag the
    tracker holds right after the [i]-th such line of the file. *)
Theorem raw_mode_one_sample_per_xyz_motion_line (file : list string) :
  let '(xs, ys, zs, es) := collect_raw file in
  let n := List.length (filter emits file) in
  (List.length xs = n /\ List.length ys = n
   /\ List.length zs = n /\ List.length es = n)
  /\ (forall (st : state) raw,
        snd (step st raw)
        = if emits raw then Some (sample_of (fst (step st raw))) else None)
  /\ (forall (st : state) raw,
        is_motion_line raw = true -> has_xyz raw = false ->
        snd (step st raw) = None)
  /\ (forall pre raw post,
        file = pre ++ raw :: post -> emits raw = true ->
        let st := run init (pre ++ [raw]) in
        let i := List.length (filter emits pre) in
        nth_error xs i = Some (cur_x st) /\ nth_error ys i = Some (cur_y st)
        /\ nth_error zs i = Some (cur_z st)
        /\ nth_error es i = Some (extruding_state st)).
Proof.
  unfold collect_raw, parse_gcode_points_extrude. cbv zeta.
  rewrite !length_map, gen_length.
  split; [tauto|]. split; [exact step_sample|]. split.
  - intros st raw Hm Hx. rewrite step_sample. unfold emits.
    rewrite Hm, Hx. reflexivity.
  - intros pre raw post -> He. rewrite !nth_error_map, gen_nth by exact He.
    repeat split; reflexivity.
Qed.

(** *** Extrusion flag *)

Lemma apply_prefix_extruding (st : state) (line : string) :
  extruding_state (apply_prefix st line) = extruding_state st.
Proof.
  unfold apply_prefix.
  repeat match goal with |- context [if ?b then _ else _] => destruct b end;
    reflexivity.
Qed.

(** Any line other than a motion line carrying E leaves the flag alone. *)
Lemma step_flag_sticky (st : state) (raw : string) :
  (is_motion_line raw = true -> carries_e raw = false) ->
  extruding_state (fst (step st raw)) = extruding_state st.
Proof.
  intros He. destruct (is_motion_line raw) eqn:Hm.
  - rewrite step_motion by exact Hm. specialize (He eq_refl).
    unfold carries_e, line_coords, Dict.mem in He. unfold apply_move.
    destruct (Dict.get "E" (_parse_coords (Tok._strip_comments raw)));
      [discriminate | reflexivity].
  - unfold is_motion_line in Hm. unfold step. rewrite Hm.
    destruct (is_empty _); [reflexivity|]. apply apply_prefix_extruding.
Qed.

Lemma run_flag_sticky (st : state) (lines : list string) :
  (forall l, In l lines -> is_motion_line l = true -> carries_e l = false) ->
  extruding_state (run st lines) = extruding_state st.
Proof.
  revert st. induction lines as [|l lines IH]; intros st Hl; [reflexivity|].
  cbn [run]. rewrite IH by (intros; apply Hl; [right|]; assumption).
  apply step_flag_sticky. apply Hl. left. reflexivity.
Qed.

(** C2, as the code has it.  On a motion line carrying E: in absolute-E
    mode [cur_e] becomes the value and the flag says whether the new
    [cur_e] is above the old one; in relative-E mode (set by M83) [cur_e]
    grows by the value and the flag says whether the value is positive.  On
    a motion line without E the flag keeps the value the tracker held
    before the line, and so it does across any run of lines none of which
    is a motion line carrying E; an emitted sample carries the tracker's
    flag.  The tracker starts in absolute-E mode with [cur_e = 0] and the
    flag at 0.  So the sample of a motion line without E carries the flag
    the tracker held before any run of lines, ending just before the line,
    that has no motion line carrying E in it; it carries the flag of the
    sample before it whenever no motion line carrying E lies between the
    two lines. *)
Theorem extruding_flag_per_motion_line (st : state) (raw : string) :
  is_motion_line raw = true ->
  let st' := fst (step st raw) in
  match Dict.get "E" (line_coords raw) with
  | Some v =>
      if e_absolute st
      then cur_e st' = v
           /\ extruding_state st' = (if fltb (cur_e st) (cur_e st') then 1 else 0)
      else cur_e st' = fadd (cur_e st) v
           /\ extruding_state st' = (if fltb f0 v then 1 else 0)
  | None => cur_e st' = cur_e st /\ extruding_state st' = extruding_state st
  end
  /\ (forall s, snd (step st raw) = Some s -> snd s = extruding_state st')
  /\ (forall lines,
        (forall l, In l lines -> is_motion_line l = true -> carries_e l = false) ->
        extruding_state (run st lines) = extruding_state st)
  /\ e_absolute (fst (step st "M83")) = false
  /\ e_absolute (fst (step st "M82")) = true
  /\ (e_absolute (@init F _) = true /\ cur_e (@init F _) = f0
      /\ extruding_state (@init F _) = 0)
  /\ (forall lines s,
        (forall l, In l lines -> is_motion_line l = true -> carries_e l = false) ->
        carries_e raw = false ->
        snd (step (run st lines) raw) = Some s ->
        snd s = extruding_state st)
  /\ (forall (st0 : state) prev mid s_prev s,
        snd (step st0 prev) = Some s_prev ->
        (forall l, In l mid -> is_motion_line l = true -> carries_e l = false) ->
        carries_e raw = false ->
        snd (step (run (fst (step st0 prev)) mid) raw) = Some s ->
        snd s = snd s_prev).
Proof.
  intros Hm st'.
  assert (Hkeep : forall (st1 : state) lines s,
            (forall l, In l lines -> is_motion_line l = true -> carries_e l = false) ->
            carries_e raw = false ->
            snd (step (run st1 lines) raw) = Some s ->
            snd s = extruding_state st1).
  { intros st1 lines s Hl He Hs. rewrite step_sample in Hs.
    destruct (emits raw); [|discriminate]. injection Hs as <-.
    unfold sample_of. cbn [snd].
    rewrite step_flag_sticky by (intros _; exact He).
    apply run_flag_sticky. exact Hl. }
  split; [|split; [|split; [|split; [|split; [|split; [|split]]]]]].
  - subst st'. rewrite step_motion by exact Hm. unfold line_coords, apply_move.
    destruct (Dict.get "E" (_parse_coords (Tok._strip_comments raw)));
      [destruct (e_absolute st)|]; cbn [fst cur_e extruding_state];
      split; reflexivity.
  - intros s Hs. rewrite step_sample in Hs. subst st'.
    destruct (emits raw); [|discriminate]. injection Hs as <-. reflexivity.
  - intros lines. apply run_flag_sticky.
  - reflexivity.
  - reflexivity.
  - repeat split.
  - apply Hkeep.
  - intros st0 prev mid s_prev s Hp Hmid He Hs.
    rewrite (Hkeep _ _ _ Hmid He Hs). rewrite step_sample in Hp.
    destruct (emits prev); [|discriminate]. injection Hp as <-. reflexivity.
Qed.

(** *** Axis values *)

(** C3.  On a motion line each of X, Y, Z that is present overwrites the
    tracker's value for that axis, whatever the G90/G91 flag is, and each
    absent axis keeps the value it had before the line; the sample emitted
    for the line carries these values. *)
Theorem xyz_absolute_overwrite (st : state) (raw : string) :
  is_motion_line raw = true ->
  let st' := fst (step st raw) in
  let coords := line_coords raw in
  cur_x st' = match Dict.get "X" coords with Some v => v | None => cur_x st end
  /\ cur_y st' = match Dict.get "Y" coords with Some v => v | None => cur_y st end
  /\ cur_z st' = match Dict.get "Z" coords with Some v => v | None => cur_z st end
  /\ (forall b,
        cur_x (fst (step (with_mode b st) raw)) = cur_x st'
        /\ cur_y (fst (step (with_mode b st) raw)) = cur_y st'
        /\ cur_z (fst (step (with_mode b st) raw)) = cur_z st')
  /\ (forall s, snd (step st raw) = Some s ->
        s = (cur_x st', cur_y st', cur_z st', extruding_state st')).
Proof.
  intros Hm st' coords.
  assert (Hxyz : forall st0 : state,
    let st1 := fst (step st0 raw) in
    cur_x st1 = match Dict.get "X" coords with Some v => v | None => cur_x st0 end
    /\ cur_y st1 = match Dict.get "Y" coords with Some v => v | None => cur_y st0 end
    /\ cur_z st1 = match Dict.get "Z" coords with Some v => v | None => cur_z st0 end).
  { intros st0. cbv zeta. rewrite step_motion by exact Hm.
    subst coords. unfold line_coords, apply_move.
    destruct (Dict.get "E" (_parse_coords (Tok._strip_comments raw)));
      [destruct (e_absolute st0)|]; cbn [fst cur_x cur_y cur_z];
      repeat split; reflexivity. }
  destruct (Hxyz st) as (Hx & Hy & Hz).
  split; [exact Hx|]. split; [exact Hy|]. split; [exact Hz|]. split.
  - intros b. destruct (Hxyz (with_mode b st)) as (Hx' & Hy' & Hz').
    subst st'. rewrite Hx, Hy, Hz, Hx', Hy', Hz'. repeat split; reflexivity.
  - intros s Hs. rewrite step_sample in Hs.
    destruct (emits raw); [|discriminate]. injection Hs as <-. reflexivity.
Qed.

(** *** Position reset *)

(** C4.  A G92 line yields no sample and leaves [cur_x] and [cur_y] (and
    the mode flags and the extrusion flag) as they were; with E it sets
    [cur_e], [last_e] and [e_offset] to the given value, with Z it sets
    [cur_z]; what it does not carry stays unchanged. *)
Theorem g92_resets_without_sample (st : state) (raw : string) :
  is_g92_line raw = true ->
  let st' := fst (step st raw) in
  let coords := line_coords raw in
  snd (step st raw) = None
  /\ cur_x st' = cur_x st /\ cur_y st' = cur_y st
  /\ match Dict.get "E" coords with
     | Some v => cur_e st' = v /\ last_e st' = v /\ e_offset st' = v
     | None => cur_e st' = cur_e st /\ last_e st' = last_e st
               /\ e_offset st' = e_offset st
     end
  /\ match Dict.get "Z" coords with
     | Some v => cur_z st' = v
     | None => cur_z st' = cur_z st
     end
  /\ mode_absolute st' = mode_absolute st /\ e_absolute st' = e_absolute st
  /\ extruding_state st' = extruding_state st.
Proof.
  intros Hg. cbv zeta. unfold is_g92_line in Hg.
  destruct (g92_line_shape _ Hg) as (Hne & H90 & H91 & H82 & H83 & Hmv).
  unfold line_coords, step, apply_prefix.
  rewrite Hne, Hmv, H90, H91, H82, H83, Hg. cbn [fst snd].
  destruct (Dict.get "E" (_parse_coords (Tok._strip_comments raw)));
    destruct (Dict.get "Z" (_parse_coords (Tok._strip_comments raw)));
    cbn [cur_x cur_y cur_z cur_e last_e e_offset mode_absolute e_absolute
         extruding_state]; repeat split; reflexivity.
Qed.

End TrackerFacts.

(** ** Python list operations and the batcher of the specification *)

Section ListFacts.
Context {A : Type}.
Implicit Types l buf pts : list A.

Lemma len_app l l' : len (l ++ l') = len l + len l'.
Proof. unfold len. rewrite length_app. lia. Qed.

Lemma len_nonneg l : 0 <= len l.
Proof. unfold len. lia. Qed.

Lemma slice_bound_neg2 l : slice_bound (-2) l = (List.length l - 2)%nat.
Proof. unfold slice_bound, len. cbn [Z.ltb Z.compare]. lia. Qed.

Lemma slice_from_1 l : slice_from 1 l = tl l.
Proof.
  unfold slice_from, slice_bound, len. destruct l as [|x l]; [reflexivity|].
  cbn [Z.ltb Z.compare List.length].
  replace (Z.to_nat (Z.min 1 (Z.of_nat (S (List.length l))))) with 1%nat by lia.
  reflexivity.
Qed.

(** A list seen from its end: empty, one element, or two last elements. *)
Lemma two_last_cases l :
  l = [] \/ (exists a, l = [a]) \/ (exists r b a, l = r ++ [b; a]).
Proof.
  destruct (rev l) as [|a [|b r]] eqn:Hr;
    apply (f_equal (@rev A)) in Hr; rewrite rev_involutive in Hr; subst l.
  - left. reflexivity.
  - right. left. exists a. reflexivity.
  - right. right. exists (rev r), b, a. cbn [rev]. rewrite <- app_assoc. reflexivity.
Qed.

Lemma last_two_app r (b a : A) : last_two (r ++ [b; a]) = [b; a].
Proof. unfold last_two. rewrite rev_app_distr. reflexivity. Qed.

Lemma all_but_last_two_app r (b a : A) : all_but_last_two (r ++ [b; a]) = r.
Proof.
  unfold all_but_last_two.
  change [b; a] with ([b] ++ [a]). rewrite app_assoc, !removelast_last.
  reflexivity.
Qed.

(** Python's [l[-2:]] and [l[:-2]] are the last two and all but the last
    two elements. *)
Lemma slice_from_neg2 l : slice_from (-2) l = last_two l.
Proof.
  unfold slice_from. rewrite slice_bound_neg2.
  destruct (two_last_cases l) as [-> | [(a & ->) | (r & b & a & ->)]];
    try reflexivity.
  rewrite last_two_app, length_app. cbn [List.length].
  replace (List.length r + 2 - 2)%nat with (List.length r + 0)%nat by lia.
  rewrite skipn_app, Nat.add_0_r, skipn_all, Nat.sub_diag. reflexivity.
Qed.

Lemma slice_to_neg2 l : slice_to (-2) l = all_but_last_two l.
Proof.
  unfold slice_to. rewrite slice_bound_neg2.
  destruct (two_last_cases l) as [-> | [(a & ->) | (r & b & a & ->)]];
    try reflexivity.
  rewrite all_but_last_two_app, length_app. cbn [List.length].
  replace (List.length r + 2 - 2)%nat with (List.length r) by lia.
  rewrite firstn_app, Nat.sub_diag, firstn_all, app_nil_r. reflexivity.
Qed.

Lemma split_last_two l :
  all_but_last_two l ++ last_two l = l
  /\ List.length (last_two l) = Nat.min 2 (List.length l).
Proof.
  destruct (two_last_cases l) as [-> | [(a & ->) | (r & b & a & ->)]];
    try (split; reflexivity).
  rewrite all_but_last_two_app, last_two_app, length_app. cbn [List.length].
  split; [reflexivity | lia].
Qed.

Lemma len_all_but_last_two l : 2 <= len l -> len (all_but_last_two l) = len l - 2.
Proof.
  unfold len.
  destruct (two_last_cases l) as [-> | [(a & ->) | (r & b & a & ->)]];
    cbn [List.length]; try lia.
  rewrite all_but_last_two_app, length_app. cbn [List.length]. lia.
Qed.

(** Induction two elements at a time. *)
Lemma list_pair_ind (P : list A -> Prop) :
  P [] -> (forall x, P [x]) -> (forall x y l, P l -> P (x :: y :: l)) ->
  forall l, P l.
Proof.
  intros H0 H1 H2 l.
  enough (P l /\ forall x, P (x :: l)) by tauto.
  induction l as [|y l [IH1 IH2]]; split; auto.
Qed.

(** [l[::2]] keeps the elements at the even indices. *)
Lemma every_other_nth l (i : nat) :
  nth_error (every_other l) i = nth_error l (2 * i).
Proof.
  revert i. induction l as [|x|x y l IH] using list_pair_ind; intros i.
  - destruct i; reflexivity.
  - destruct i as [|i]; [reflexivity|]. cbn [every_other nth_error Nat.mul Nat.add].
    destruct i; reflexivity.
  - destruct i as [|i]; [reflexivity|]. cbn [every_other].
    replace (2 * S i)%nat with (S (S (2 * i))) by lia.
    cbn [nth_error]. apply IH.
Qed.

Lemma every_other_len l :
  2 * len (every_other l) = len l \/ 2 * len (every_other l) = len l + 1.
Proof.
  induction l as [|x|x y l IH] using list_pair_ind.
  - left. reflexivity.
  - right. reflexivity.
  - cbn [every_other]. unfold len in *. cbn [List.length]. lia.
Qed.

Lemma getitems_length l (idxs : list Z) r :
  getitems l idxs = Some r -> List.length r = List.length idxs.
Proof.
  revert r. induction idxs as [|i idxs IH]; intros r; cbn [getitems].
  - intros [= <-]. reflexivity.
  - destruct (getitem l i); [|discriminate].
    destruct (getitems l idxs) as [xs|]; [|discriminate].
    intros [= <-]. cbn [List.length]. rewrite (IH xs eq_refl). reflexivity.
Qed.

Lemma getitems_in_range l (idxs : list Z) :
  Forall (fun i => 0 <= i < len l) idxs -> exists r, getitems l idxs = Some r.
Proof.
  induction 1 as [|i idxs Hi _ [r IH]]; cbn [getitems]; [eauto|].
  rewrite IH. unfold getitem.
  destruct (Z.ltb_spec i 0); [lia|]. destruct (Z.ltb_spec i 0); [lia|].
  destruct (nth_error l (Z.to_nat i)) eqn:Hn; [eauto|].
  apply nth_error_None in Hn. unfold len in Hi. lia.
Qed.

(** *** The batcher of the specification *)

Lemma feed_app (bsize : Z) buf pts pts' :
  batcher_feed bsize buf (pts ++ pts')
  = let '(out, fin) := batcher_feed bsize buf pts in
    let '(out', fin') := batcher_feed bsize fin pts' in
    (out ++ out', fin').
Proof.
  revert buf. induction pts as [|p pts IH]; intros buf; cbn [batcher_feed app].
  - destruct (batcher_feed bsize buf pts'). reflexivity.
  - destruct (bsize <=? len (buf ++ [p])); rewrite IH.
    + destruct (batcher_feed bsize (last_two (buf ++ [p])) pts) as [out fin].
      destruct (batcher_feed bsize fin pts'). reflexivity.
    + reflexivity.
Qed.

(** Nothing is lost and nothing is doubled: the batches handed out, then
    the buffer, are the buffer at the start followed by the points fed. *)
Lemma feed_concat (bsize : Z) buf pts :
  List.concat (fst (batcher_feed bsize buf pts)) ++ snd (batcher_feed bsize buf pts)
  = buf ++ pts.
Proof.
  revert buf. induction pts as [|p pts IH]; intros buf; cbn [batcher_feed].
  - cbn. rewrite app_nil_r. reflexivity.
  - destruct (bsize <=? len (buf ++ [p])).
    + specialize (IH (last_two (buf ++ [p]))).
      destruct (batcher_feed bsize (last_two (buf ++ [p])) pts) as [out fin].
      cbn [fst snd List.concat] in *. rewrite <- app_assoc, IH, app_assoc.
      rewrite (proj1 (split_last_two _)), <- app_assoc. reflexivity.
    + rewrite IH, <- app_assoc. reflexivity.
Qed.

Lemma batcher_concat (bsize : Z) pts : List.concat (batcher bsize pts) = pts.
Proof.
  unfold batcher. pose proof (feed_concat bsize [] pts) as Hc.
  destruct (batcher_feed bsize [] pts) as [out fin]. cbn [fst snd app] in Hc.
  rewrite concat_app. destruct fin; cbn [List.concat]; rewrite ?app_nil_r in *;
    exact Hc.
Qed.

(** With a batch size of at least three the buffer stays below the batch
    size and every batch handed out has two points less than it. *)
Lemma feed_sizes (bsize : Z) buf pts :
  3 <= bsize -> len buf < bsize ->
  Forall (fun b => len b = bsize - 2) (fst (batcher_feed bsize buf pts))
  /\ len (snd (batcher_feed bsize buf pts)) < bsize.
Proof.
  intros Hb. revert buf. induction pts as [|p pts IH]; intros buf Hlen;
    cbn [batcher_feed].
  - split; [constructor | exact Hlen].
  - assert (Hl : len (buf ++ [p]) = len buf + 1) by apply len_app.
    destruct (Z.leb_spec bsize (len (buf ++ [p]))) as [Hge | Hlt].
    + destruct (IH (last_two (buf ++ [p]))) as [IH1 IH2].
      { unfold len. rewrite (proj2 (split_last_two _)). lia. }
      destruct (batcher_feed bsize (last_two (buf ++ [p])) pts) as [out fin].
      cbn [fst snd] in *. split; [|exact IH2]. constructor; [|exact IH1].
      rewrite len_all_but_last_two; lia.
    + apply IH. lia.
Qed.

Lemma feed_cons_yield (bsize : Z) buf (p : A) pts :
  bsize <= len (buf ++ [p]) ->
  fst (batcher_feed bsize buf (p :: pts))
  = all_but_last_two (buf ++ [p])
    :: fst (batcher_feed bsize (last_two (buf ++ [p])) pts).
Proof.
  intros Hge. cbn [batcher_feed].
  destruct (Z.leb_spec bsize (len (buf ++ [p]))); [|lia].
  destruct (batcher_feed bsize (last_two (buf ++ [p])) pts). reflexivity.
Qed.

Lemma feed_cons_keep (bsize : Z) buf (p : A) pts :
  len (buf ++ [p]) < bsize ->
  batcher_feed bsize buf (p :: pts) = batcher_feed bsize (buf ++ [p]) pts.
Proof.
  intros Hlt. cbn [batcher_feed].
  destruct (Z.leb_spec bsize (len (buf ++ [p]))); [lia | reflexivity].
Qed.

(** With a batch size of at most two the second point fed, at the latest,
    makes the batcher hand out an empty batch. *)
Lemma feed_empty_batch (bsize : Z) (q1 q2 : A) pts :
  bsize <= 2 -> In [] (fst (batcher_feed bsize [] (q1 :: q2 :: pts))).
Proof.
  intros Hb. destruct (Z.le_gt_cases bsize (len ([] ++ [q1]))) as [H1 | H1].
  - rewrite feed_cons_yield by exact H1. left. reflexivity.
  - rewrite feed_cons_keep by lia.
    rewrite feed_cons_yield by (unfold len; cbn [List.length app]; lia).
    left. reflexivity.
Qed.

End ListFacts.

(** ** The streaming batcher *)

Section BatcherFacts.
Context {F : Type} `{FloatOps F}.

Local Abbreviation point := (@point F).
Local Abbreviation config := (@config F).

(** [push] does what the specification says of one buffered point. *)
Lemma push_spec (bsize : Z) (batch : list point) (p : point) :
  push bsize batch p
  = if bsize <=? len (batch ++ [p])
    then (last_two (batch ++ [p]), Some (all_but_last_two (batch ++ [p])))
    else (batch ++ [p], None).
Proof.
  unfold push. rewrite slice_from_neg2, slice_to_neg2. reflexivity.
Qed.

(** A run of pushes is the batcher of the specification. *)
Lemma push_all_feed (bsize : Z) (batch qs : list point) :
  push_all bsize batch qs
  = (snd (batcher_feed bsize batch qs), fst (batcher_feed bsize batch qs)).
Proof.
  revert batch. induction qs as [|q qs IH]; intros batch; [reflexivity|].
  cbn [push_all batcher_feed]. rewrite push_spec.
  destruct (bsize <=? len (batch ++ [q])); rewrite IH.
  - destruct (batcher_feed bsize (last_two (batch ++ [q])) qs). reflexivity.
  - reflexivity.
Qed.

(** The loop of the generator feeds the resampled stream, point by point,
    to the batcher; an exception ends both at the same point. *)
Lemma drive_resample (cfg : config) (w : window) (batch pts : list point) :
  drive cfg w batch pts
  = let '(r, ok) := resample cfg w pts in
    let '(out, fin) := batcher_feed (batch_size cfg) batch r in
    (out, if ok then Some fin else None).
Proof.
  revert w batch. induction pts as [|p pts IH]; intros w batch;
    cbn [drive resample]; [reflexivity|].
  destruct (emitted cfg w p) as [qs|]; [|reflexivity].
  rewrite push_all_feed, IH.
  destruct (resample cfg (slide w p) pts) as [r ok].
  rewrite feed_app.
  destruct (batcher_feed (batch_size cfg) batch qs) as [out1 fin1].
  cbn [fst snd].
  destruct (batcher_feed (batch_size cfg) fin1 r) as [out2 fin2].
  reflexivity.
Qed.

Lemma midstream_feed (file : list string) (cfg : config) :
  midstream_batches file cfg
  = fst (batcher_feed (batch_size cfg) [] (fst (resampled_points file cfg))).
Proof.
  unfold midstream_batches, resampled_points. rewrite drive_resample.
  destruct (resample cfg (None, None) (parse_gcode_points file)) as [r ok].
  cbn [fst]. destruct (batcher_feed (batch_size cfg) [] r). reflexivity.
Qed.

Lemma generator_batcher (file : list string) (cfg : config) (pts : list point) :
  resampled_points file cfg = (pts, true) ->
  batch_points_for_spline file cfg = (batcher (batch_size cfg) pts, true).
Proof.
  unfold resampled_points, batch_points_for_spline, batcher. intros Hr.
  rewrite drive_resample, Hr.
  destruct (batcher_feed (batch_size cfg) [] pts) as [out fin]. reflexivity.
Qed.

Lemma generator_raised (file : list string) (cfg : config) (pts : list point) :
  resampled_points file cfg = (pts, false) ->
  batch_points_for_spline file cfg
  = (fst (batcher_feed (batch_size cfg) [] pts), false).
Proof.
  unfold resampled_points, batch_points_for_spline. intros Hr.
  rewrite drive_resample, Hr.
  destruct (batcher_feed (batch_size cfg) [] pts) as [out fin]. reflexivity.
Qed.

Lemma generator_concat (file : list string) (cfg : config) (pts : list point) :
  resampled_points file cfg = (pts, true) ->
  List.concat (fst (batch_points_for_spline file cfg)) = pts.
Proof.
  intros Hr. rewrite (generator_batcher _ _ _ Hr). apply batcher_concat.
Qed.

(** C5.  Every resampled point goes through [push], which appends it to
    the buffer and, once the buffer has reached the batch size, hands out
    all buffered points but the last two and keeps those two as the new
    buffer; the generator yields exactly the batches the batcher of the
    specification makes of the resampled stream, and at exhaustion it
    yields the remaining buffer if and only if it is not empty. *)
Theorem streaming_batcher_contract (file : list string) (cfg : config) :
  (forall (batch : list point) p,
     let buf := batch ++ [p] in
     push (batch_size cfg) batch p
     = if batch_size cfg <=? len buf
       then (last_two buf, Some (all_but_last_two buf))
       else (buf, None))
  /\ (forall buf : list point,
        all_but_last_two buf ++ last_two buf = buf
        /\ List.length (last_two buf) = Nat.min 2 (List.length buf))
  /\ (forall pts ok,
        resampled_points file cfg = (pts, ok) ->
        batch_points_for_spline file cfg
        = if ok then (batcher (batch_size cfg) pts, true)
          else (fst (batcher_feed (batch_size cfg) [] pts), false))
  /\ (forall out fin,
        drive cfg (None, None) [] (parse_gcode_points file) = (out, Some fin) ->
        (fin <> [] -> fst (batch_points_for_spline file cfg) = out ++ [fin])
        /\ (fin = [] -> fst (batch_points_for_spline file cfg) = out)).
Proof.
  split; [intros; apply push_spec|]. split; [intros; apply split_last_two|].
  split.
  - intros pts [|] Hr; [apply generator_batcher | apply generator_raised];
      exact Hr.
  - intros out fin Hd. unfold batch_points_for_spline. rewrite Hd.
    split; intros Hf.
    + destruct fin; [contradiction | reflexivity].
    + subst fin. cbn [fst]. apply app_nil_r.
Qed.

(** C6, as the code has it.  The batches are disjoint: the two points a
    batch boundary holds back are not yielded twice, so the batches
    concatenated as they are, nothing dropped, are the resampled points,
    and their count is the count of resampled points. *)
Theorem batches_concat_is_resampled
    (file : list string) (cfg : config) (pts : list point) :
  resampled_points file cfg = (pts, true) ->
  List.concat (fst (batch_points_for_spline file cfg)) = pts
  /\ List.length (List.concat (fst (batch_points_for_spline file cfg)))
     = List.length pts.
Proof.
  intros Hr. rewrite (generator_concat _ _ _ Hr). split; reflexivity.
Qed.

(** C10.  With a batch size of at least three every batch yielded before
    the input is exhausted has exactly [batch_size - 2] points, and the
    batches concatenated are the resampled points, each in one batch; with
    a batch size of at most two an empty batch is yielded mid-stream as
    soon as two points have been resampled. *)
Theorem midstream_batch_sizes (file : list string) (cfg : config) :
  (3 <= batch_size cfg ->
   Forall (fun b => len b = batch_size cfg - 2) (midstream_batches file cfg))
  /\ (3 <= batch_size cfg ->
      forall pts, resampled_points file cfg = (pts, true) ->
      List.concat (fst (batch_points_for_spline file cfg)) = pts)
  /\ (batch_size cfg <= 2 ->
      2 <= len (fst (resampled_points file cfg)) ->
      In [] (midstream_batches file cfg)).
Proof.
  rewrite midstream_feed. split; [|split].
  - intros Hb. apply feed_sizes; [exact Hb | cbn; lia].
  - intros _ pts Hr. apply generator_concat. exact Hr.
  - intros Hb. destruct (fst (resampled_points file cfg)) as [|q1 [|q2 pts]];
      unfold len; cbn [List.length]; try lia.
    intros _. apply feed_empty_batch. exact Hb.
Qed.

End BatcherFacts.

(** ** The corner-adaptive resampler *)

Section ResamplerFacts.
Context {F : Type} `{FloatOps F}.

Local Abbreviation point := (@point F).
Local Abbreviation config := (@config F).

(** *** Turn angle *)

Section Clamp.
(** What the clamp needs of the float comparison: [<] is asymmetric, and
    [-1.0 < 1.0]. *)
Hypothesis flt_asym : forall x y : F, fltb x y = true -> fltb y x = false.
Hypothesis flt_m1_1 : fltb fm1 f1 = true.

Lemma flt_irrefl (x : F) : fltb x x = false.
Proof.
  destruct (fltb x x) eqn:E; [|reflexivity].
  pose proof (flt_asym _ _ E). congruence.
Qed.

(** The clamped value is never below -1 nor above 1. *)
Lemma clamp_in_domain (c : F) :
  fltb (py_max fm1 (py_min f1 c)) fm1 = false
  /\ fltb f1 (py_max fm1 (py_min f1 c)) = false.
Proof.
  unfold py_max, py_min.
  destruct (fltb c f1) eqn:E1.
  - destruct (fltb fm1 c) eqn:E2.
    + split; apply flt_asym; assumption.
    + split; [apply flt_irrefl | apply flt_asym; exact flt_m1_1].
  - rewrite flt_m1_1. split; [apply flt_asym; exact flt_m1_1 | apply flt_irrefl].
Qed.

Lemma acos_of_clamp (c : F) :
  math_acos (py_max fm1 (py_min f1 c)) = Some (facos (py_max fm1 (py_min f1 c))).
Proof.
  unfold math_acos. destruct (clamp_in_domain c) as [-> ->]. reflexivity.
Qed.

End Clamp.

(** C8.  The turn-angle computation never raises: with a vector of zero
    length it returns 0; otherwise the normalized dot product is clamped,
    the clamped value is neither below -1 nor above 1, and [acos] of it is
    returned without a domain error. *)
Theorem angle_between_total (a b : point) :
  (forall x y : F, fltb x y = true -> fltb y x = false) ->
  fltb fm1 f1 = true ->
  let na := fnorm2 (fst a) (snd a) in
  let nb := fnorm2 (fst b) (snd b) in
  let c := py_max fm1 (py_min f1
             (fdiv (fadd (fmul (fst a) (fst b)) (fmul (snd a) (snd b)))
                   (fmul na nb))) in
  (feqb na f0 = true \/ feqb nb f0 = true -> _angle_between a b = Some f0)
  /\ (feqb na f0 = false -> feqb nb f0 = false ->
      fltb c fm1 = false /\ fltb f1 c = false
      /\ math_acos c = Some (facos c)
      /\ _angle_between a b = Some (facos c))
  /\ (exists ang, _angle_between a b = Some ang).
Proof.
  intros Hasym H11 na nb c.
  assert (Hc : math_acos c = Some (facos c)) by (apply acos_of_clamp; assumption).
  destruct (clamp_in_domain Hasym H11
    (fdiv (fadd (fmul (fst a) (fst b)) (fmul (snd a) (snd b))) (fmul na nb)))
    as [Hlo Hhi].
  unfold _angle_between. fold na nb. fold c.
  split; [|split].
  - intros [-> | ->]; [reflexivity | rewrite orb_true_r; reflexivity].
  - intros -> ->. cbn [orb]. auto.
  - destruct (feqb na f0 || feqb nb f0); eauto.
Qed.

(** *** Subdivision of a segment *)

Lemma combine_map {A B C : Type} (f : A -> B) (g : A -> C) (l : list A) :
  combine (map f l) (map g l) = map (fun i => (f i, g i)) l.
Proof. induction l as [|x l IH]; cbn; [|rewrite IH]; reflexivity. Qed.

(** [np.linspace(a, b, n + 1)[1:]] are the [n] evenly spaced steps. *)
Lemma linspace_steps (a b : F) (n : Z) :
  0 <= n ->
  exists xs, linspace a b (n + 1) = Some xs
    /\ slice_from 1 xs
       = map (fun i => lin_sample a b n (Z.of_nat (S i))) (seq 0 (Z.to_nat n)).
Proof.
  intros Hn. unfold linspace.
  destruct (Z.ltb_spec (n + 1) 0); [lia|].
  replace (Z.to_nat (n + 1)) with (S (Z.to_nat n)) by lia.
  replace (n + 1 - 1) with n by lia.
  eexists. split; [reflexivity|]. rewrite slice_from_1.
  destruct (Z.to_nat n) as [|m] eqn:Hm.
  - destruct (Z.ltb_spec 1 (n + 1)); [lia|]. reflexivity.
  - destruct (Z.ltb_spec 1 (n + 1)); [|lia].
    destruct (Z.ltb_spec 0 n); [|lia].
    rewrite (seq_S (S m) 0), map_app. cbn [map Nat.add].
    rewrite removelast_last.
    remember (map (fun i => lin_sample a b n (Z.of_nat (S i))) (seq 0 (S m)))
      as steps eqn:Hs.
    cbn [seq map app tl]. subst steps.
    rewrite (seq_S m 0), map_app, <- seq_shift, map_map.
    cbn [map Nat.add]. f_equal.
    + apply map_ext_in. intros i Hi. apply in_seq in Hi. unfold lin_sample.
      destruct (Z.eqb_spec (Z.of_nat (S i)) n); [lia | reflexivity].
    + unfold lin_sample.
      destruct (Z.eqb_spec (Z.of_nat (S m)) n); [reflexivity | lia].
Qed.

Lemma subdivide_spec (p0 p1 : point) (n : Z) :
  0 <= n -> subdivide p0 p1 n = Some (subdivision p0 p1 n).
Proof.
  intros Hn. unfold subdivide, subdivision.
  destruct (linspace_steps (fst p0) (fst p1) n Hn) as (xs & -> & ->).
  destruct (linspace_steps (snd p0) (snd p1) n Hn) as (ys & -> & ->).
  rewrite combine_map. reflexivity.
Qed.

Lemma lin_interpolate_spec (p0 p1 : point) (n : Z) :
  1 <= n -> _lin_interpolate p0 p1 n = Some (subdivision p0 p1 n).
Proof.
  intros Hn. unfold _lin_interpolate.
  destruct (Z.leb_spec n 1); [|apply subdivide_spec; lia].
  replace n with 1 by lia. destruct p1. reflexivity.
Qed.

Lemma subdivision_len (p0 p1 : point) (n : Z) :
  0 <= n -> len (subdivision p0 p1 n) = n.
Proof.
  intros Hn. unfold len, subdivision. rewrite length_map, length_seq. lia.
Qed.

Lemma subdivision_last (p0 p1 d : point) (n : Z) :
  1 <= n -> last (subdivision p0 p1 n) d = p1.
Proof.
  intros Hn. unfold subdivision.
  destruct (Z.to_nat n) as [|m] eqn:Hm; [lia|].
  rewrite seq_S, map_app. cbn [map Nat.add]. rewrite last_last.
  unfold lin_sample. destruct (Z.eqb_spec (Z.of_nat (S m)) n); [|lia].
  destruct p1. reflexivity.
Qed.


End ResamplerFacts.

(** ** The point collector, sparse mode *)

Section CollectorFacts.
Context {F : Type} `{FloatOps F}.

Local Abbreviation point := (@point F).
Local Abbreviation config := (@config F).

Lemma linspace_length (a b : F) (k : Z) (ys : list F) :
  linspace a b k = Some ys -> len ys = k.
Proof.
  unfold linspace, len. destruct (Z.ltb_spec k 0); [discriminate|].
  intros [= <-]. destruct (Z.ltb_spec 1 k).
  - destruct (Z.to_nat k) as [|m] eqn:Hk; [lia|].
    rewrite (seq_S m 0), map_app. cbn [map]. rewrite removelast_last.
    rewrite length_app, length_map, length_seq. cbn [List.length]. lia.
  - rewrite length_map, length_seq. lia.
Qed.

Lemma linspace_defined (a b : F) (k : Z) :
  0 <= k -> exists ys, linspace a b k = Some ys.
Proof.
  intros Hk. unfold linspace. destruct (Z.ltb_spec k 0); [lia|]. eauto.
Qed.

Lemma linspace_indices_length (kept : list point) (k : Z) (idxs : list Z) :
  linspace_indices kept k = Some idxs -> len idxs = k.
Proof.
  unfold linspace_indices.
  destruct (linspace _ _ k) as [ys|] eqn:Hl; [|discriminate].
  intros [= <-]. unfold len. rewrite length_map. apply (linspace_length _ _ _ _ Hl).
Qed.

(** The selection after exhaustion: a collection above the cap comes out
    with exactly [k] points, any other is left as it is. *)
Lemma cap_spec (kept r : list point) (k : Z) :
  cap kept k = Some r ->
  (k < len kept -> len r = k) /\ (len kept <= k -> r = kept).
Proof.
  unfold cap. destruct (Z.ltb_spec k (len kept)) as [Hgt | Hle].
  - destruct (linspace_indices kept k) as [idxs|] eqn:Hi; [|discriminate].
    intros Hg. split; [intros _ | lia].
    apply getitems_length in Hg. apply linspace_indices_length in Hi.
    unfold len in *. lia.
  - intros [= <-]. split; [lia | reflexivity].
Qed.

(** C7.  Sparse-mode extraction with a cap [k >= 0] returns two sequences
    of equal length, at most [k].  On the way every batch is appended to
    the collection, which is then replaced by its elements at the even
    indices whenever it has more than [2 k] points; after exhaustion a
    collection of more than [k] points is replaced by [k] of its points,
    picked at the indices [linspace] gives, and a smaller one is returned
    whole.  The extraction returns unless the resampler raised or an index
    fell outside the collection. *)
Theorem sparse_mode_cap (file : list string) (k : Z) (cfg : config) :
  0 <= k ->
  (forall xs ys,
     collect_sparse_points file k cfg = Some (xs, ys) ->
     List.length xs = List.length ys /\ len xs <= k)
  /\ (forall kept batch : list point,
        accumulate_step k kept batch
        = if k * 2 <? len (kept ++ batch)
          then every_other (kept ++ batch) else kept ++ batch)
  /\ (forall (l : list point) (i : nat),
        nth_error (every_other l) i = nth_error l (2 * i))
  /\ (forall kept r : list point,
        cap kept k = Some r ->
        (k < len kept -> len r = k) /\ (len kept <= k -> r = kept))
  /\ (snd (batch_points_for_spline file cfg) = true ->
      let kept := accumulate k (fst (batch_points_for_spline file cfg)) in
      (len kept <= k ->
       collect_sparse_points file k cfg = Some (map fst kept, map snd kept))
      /\ (k < len kept ->
          exists idxs,
            linspace_indices kept k = Some idxs /\ len idxs = k
            /\ (Forall (fun i => 0 <= i < len kept) idxs ->
                exists xs ys, collect_sparse_points file k cfg = Some (xs, ys)))).
Proof.
  intros Hk. split; [|split; [|split; [|split]]].
  - unfold collect_sparse_points. intros xs ys.
    destruct (batch_points_for_spline file cfg) as [batches [|]]; [|discriminate].
    destruct (cap (accumulate k batches) k) as [r|] eqn:Hc; [|discriminate].
    intros [= <- <-]. unfold len. rewrite !length_map. split; [reflexivity|].
    destruct (cap_spec _ _ _ Hc) as [Hgt Hle].
    destruct (Z.lt_ge_cases k (len (accumulate k batches))) as [Hlt | Hge].
    + apply Z.eq_le_incl. exact (Hgt Hlt).
    + rewrite (Hle Hge). exact Hge.
  - reflexivity.
  - apply every_other_nth.
  - intros kept r. apply cap_spec.
  - unfold collect_sparse_points.
    destruct (batch_points_for_spline file cfg) as [batches ok].
    cbn [fst snd]. intros ->. cbv zeta. unfold cap. split.
    + intros Hle. destruct (Z.ltb_spec k (len (accumulate k batches))); [lia|].
      reflexivity.
    + intros Hgt. destruct (Z.ltb_spec k (len (accumulate k batches))); [|lia].
      unfold linspace_indices.
      destruct (linspace_defined (float_of_Z 0)
                  (float_of_Z (len (accumulate k batches) - 1)) k Hk) as [ys Hl].
      rewrite Hl. eexists. split; [reflexivity|]. split.
      * unfold len. rewrite length_map. apply (linspace_length _ _ _ _ Hl).
      * intros Hr. destruct (getitems_in_range _ _ Hr) as [r ->]. eauto.
Qed.

End CollectorFacts.

(** ** The theorems at concrete inputs *)

Module Witnesses.
Import RefFloat Inputs.
Local Open Scope string_scope.

Lemma ref_lt_asym (x y : Q) : fltb x y = true -> fltb y x = false.
Proof.
  cbn [fltb ops]. intros Hxy.
  apply negb_true_iff in Hxy. apply negb_false_iff.
  apply Qle_bool_iff. apply Qlt_le_weak. apply Qnot_le_lt.
  intros Hle. apply Qle_bool_iff in Hle. congruence.
Qed.

Lemma raw_mode_witness :
  emits (F := Q) "G1 Y3" = true
  /\ nth_error (fst (fst (fst (collect_raw mixed_file)))) 1 = Some 5%Q
  /\ nth_error (snd (fst (fst (collect_raw mixed_file)))) 1 = Some 3%Q
  /\ nth_error (snd (fst (collect_raw mixed_file))) 1 = Some 0%Q
  /\ nth_error (snd (collect_raw mixed_file)) 1 = Some 1.
Proof.
  split; [reflexivity|].
  exact (proj2 (proj2 (proj2 (raw_mode_one_sample_per_xyz_motion_line mixed_file)))
           ["G1 X5 E1"; "G1 E2 ; prime"; "G92 E0"] "G1 Y3" [] eq_refl eq_refl).
Defined.

Lemma extruding_flag_witness :
  is_motion_line "G1 X2" = true
  /\ extruding_state (fst (step (run (F := Q) init ["G1 X1 E1"]) "G1 X2"))
     = extruding_state (run (F := Q) init ["G1 X1 E1"])
  /\ carries_e (F := Q) "G1 X2" = false
  /\ snd (step (F := Q) init "G1 X1 E1") = Some (1%Q, 0%Q, 0%Q, 1)
  /\ snd (step (run (fst (step (F := Q) init "G1 X1 E1")) ["M82"; "G92 E0"])
               "G1 X2")
     = Some (2%Q, 0%Q, 0%Q, 1)
  /\ snd (2%Q, 0%Q, 0%Q, 1) = snd (1%Q, 0%Q, 0%Q, 1).
Proof.
  assert (Hmid : forall l, In l ["M82"; "G92 E0"] ->
                 is_motion_line l = true -> carries_e (F := Q) l = false).
  { intros l [<- | [<- | []]] Hm; [reflexivity | vm_compute in Hm; discriminate Hm]. }
  split; [reflexivity|]. split.
  - exact (proj2 (proj1 (extruding_flag_per_motion_line
                           (run (F := Q) init ["G1 X1 E1"]) "G1 X2" eq_refl))).
  - split; [reflexivity|]. split; [reflexivity|]. split; [reflexivity|].
    exact (proj2 (proj2 (proj2 (proj2 (proj2 (proj2 (proj2
             (extruding_flag_per_motion_line (F := Q) init "G1 X2" eq_refl)))))))
             init "G1 X1 E1" ["M82"; "G92 E0"] (1%Q, 0%Q, 0%Q, 1)
             (2%Q, 0%Q, 0%Q, 1) eq_refl Hmid eq_refl eq_refl).
Defined.

Lemma xyz_overwrite_witness :
  is_motion_line "G1 Y3" = true
  /\ mode_absolute (run (F := Q) init ["G91"; "G1 X5"]) = false
  /\ cur_x (fst (step (run (F := Q) init ["G91"; "G1 X5"]) "G1 Y3")) = 5%Q
  /\ cur_y (fst (step (run (F := Q) init ["G91"; "G1 X5"]) "G1 Y3")) = 3%Q.
Proof.
  split; [reflexivity|]. split; [reflexivity|].
  pose proof (xyz_absolute_overwrite
                (run (F := Q) init ["G91"; "G1 X5"]) "G1 Y3" eq_refl) as Hthm.
  split; [exact (proj1 Hthm) | exact (proj1 (proj2 Hthm))].
Defined.

Lemma g92_witness :
  is_g92_line "G92 E0 Z7" = true
  /\ snd (step (run (F := Q) init ["G1 X5 Y2 Z1 E3"]) "G92 E0 Z7") = None
  /\ cur_x (fst (step (run (F := Q) init ["G1 X5 Y2 Z1 E3"]) "G92 E0 Z7")) = 5%Q
  /\ cur_y (fst (step (run (F := Q) init ["G1 X5 Y2 Z1 E3"]) "G92 E0 Z7")) = 2%Q.
Proof.
  split; [reflexivity|].
  pose proof (g92_resets_without_sample
                (run (F := Q) init ["G1 X5 Y2 Z1 E3"]) "G92 E0 Z7" eq_refl) as Hthm.
  split; [exact (proj1 Hthm)|].
  split; [exact (proj1 (proj2 Hthm)) | exact (proj1 (proj2 (proj2 Hthm)))].
Defined.

Lemma batcher_contract_witness :
  resampled_points line_file (settings 3 1) = (line_points, true)
  /\ batch_points_for_spline line_file (settings 3 1)
     = (batcher 3 line_points, true).
Proof.
  split; [reflexivity|].
  exact (proj1 (proj2 (proj2 (streaming_batcher_contract line_file (settings 3 1))))
           line_points true eq_refl).
Defined.

Lemma batches_concat_witness :
  resampled_points line_file (settings 3 1) = (line_points, true)
  /\ List.concat (fst (batch_points_for_spline line_file (settings 3 1)))
     = line_points.
Proof.
  split; [reflexivity|].
  exact (proj1 (batches_concat_is_resampled line_file (settings 3 1)
                  line_points eq_refl)).
Defined.

Lemma sparse_cap_witness :
  0 <= 3
  /\ collect_sparse_points six_points_file 3 (settings 10 (Qmake 1 2))
     = Some ([0; 2; 5], [0; 0; 0])%Q
  /\ len [0; 2; 5]%Q <= 3.
Proof.
  split; [lia|]. split; [reflexivity|].
  refine (proj2 (proj1 (sparse_mode_cap six_points_file 3
                          (settings 10 (Qmake 1 2)) _)
                   [0; 2; 5]%Q [0; 0; 0]%Q eq_refl)).
  lia.
Defined.

Lemma angle_between_witness :
  (forall x y : Q, fltb x y = true -> fltb y x = false)
  /\ fltb (F := Q) fm1 f1 = true
  /\ _angle_between (F := Q) (1, 0)%Q (0, 0)%Q = Some f0
  /\ exists ang, _angle_between (F := Q) (1, 0)%Q (0, 1)%Q = Some ang.
Proof.
  split; [exact ref_lt_asym|]. split; [reflexivity|]. split.
  - refine (proj1 (angle_between_total (1, 0)%Q (0, 0)%Q ref_lt_asym eq_refl) _).
    right. reflexivity.
  - exact (proj2 (proj2 (angle_between_total (1, 0)%Q (0, 1)%Q
                           ref_lt_asym eq_refl))).
Defined.


Lemma batch_sizes_witness :
  3 <= batch_size (settings 3 1)
  /\ Forall (fun b => len b = 3 - 2) (midstream_batches line_file (settings 3 1))
  /\ batch_size (settings 2 1) <= 2
  /\ 2 <= len (fst (resampled_points line_file (settings 2 1)))
  /\ In [] (midstream_batches line_file (settings 2 1)).
Proof.
  split; [cbn; lia|]. split.
  - refine (proj1 (midstream_batch_sizes line_file (settings 3 1)) _). cbn. lia.
  - split; [cbn; lia|]. split; [vm_compute; discriminate|].
    refine (proj2 (proj2 (midstream_batch_sizes line_file (settings 2 1))) _ _).
    + cbn. lia.
    + vm_compute. discriminate.
Defined.

(** *** Where the claims as written fail *)

(** C2 as written: the flag of a sample whose line carries no E would be
    the flag of the previous sample.  After a print move and a retraction
    that carries E alone, the travel move [G1 X2] has no E, yet its sample
    is flagged 0 while the previous sample is flagged 1. *)
Lemma sticky_flag_is_not_previous_sample :
  parse_gcode_points_extrude retract_file
  = [(1%Q, 0%Q, 0%Q, 1); (2%Q, 0%Q, 0%Q, 0)]
  /\ is_motion_line "G1 X2" = true
  /\ carries_e (F := Q) "G1 X2" = false
  /\ exists s_prev s,
       parse_gcode_points_extrude (F := Q) retract_file = [s_prev; s]
       /\ snd s <> snd s_prev.
Proof.
  split; [reflexivity|]. split; [reflexivity|]. split; [reflexivity|].
  exists (1%Q, 0%Q, 0%Q, 1), (2%Q, 0%Q, 0%Q, 0). split; [reflexivity|].
  cbn. discriminate.
Qed.

(** C6 as written: dropping a two-point overlap at each batch boundary
    would leave as many points as were resampled.  Four points resampled
    with a batch size of three come out as three disjoint batches; with two
    points dropped at each boundary one point is left, not four. *)
Lemma overlap_drop_loses_points :
  resampled_points line_file (settings 3 1) = (line_points, true)
  /\ fst (batch_points_for_spline line_file (settings 3 1))
     = [[(0, 0)]; [(1, 0)]; [(2, 0); (3, 0)]]%Q
  /\ List.length
       (drop_overlap (fst (batch_points_for_spline line_file (settings 3 1))))
     <> List.length line_points.
Proof.
  split; [reflexivity|]. split; [reflexivity|].
  vm_compute. discriminate.
Qed.

End Witnesses.

(** * Further properties of the parser *)

(** ** Prefixes and the branches of the loop *)

Section PrefixFacts.
Local Open Scope string_scope.

Lemma after_prefix_spec (p line r : string) :
  Tok.after_prefix p line = Some r <-> line = p ++ r.
Proof.
  revert line. induction p as [|a p IH]; intros line; cbn [Tok.after_prefix append].
  - split; [intros [= ->] | intros ->]; reflexivity.
  - destruct line as [|b line]; [split; discriminate|].
    destruct (Ascii.eqb_spec a b) as [<-|Hab].
    + rewrite IH. split; [intros -> | intros [= ->]]; reflexivity.
    + split; [discriminate | intros [= E _]; congruence].
Qed.

Lemma startswith_spec (p line : string) :
  Tok.startswith p line = true <-> exists r, line = p ++ r.
Proof.
  revert line. induction p as [|a p IH]; intros line; cbn [Tok.startswith append].
  - split; eauto.
  - destruct line as [|b line]; [split; [discriminate | intros [r [=]]]|].
    destruct (Ascii.eqb_spec a b) as [<-|Hab]; cbn [andb].
    + rewrite IH. split; intros [r E]; exists r; [rewrite E | injection E as ->];
        reflexivity.
    + split; [discriminate | intros [r [= E _]]; congruence].
Qed.

Lemma matches_word_spec (p line : string) :
  Tok.matches_word p line = true
  <-> exists r, line = p ++ r /\ Tok.word_end r = true.
Proof.
  unfold Tok.matches_word. destruct (Tok.after_prefix p line) as [r|] eqn:E.
  - apply after_prefix_spec in E. subst line. split; [eauto|].
    intros (r' & E & Hw). apply after_prefix_spec in E.
    rewrite (proj2 (after_prefix_spec p (p ++ r) r) eq_refl) in E.
    injection E as <-. exact Hw.
  - split; [discriminate|]. intros (r & Hr & _).
    apply after_prefix_spec in Hr. congruence.
Qed.

(** The text a motion line starts with. *)
Lemma move_line_cases (line : string) :
  Tok.MOVE_CMD_RE line = true ->
  exists r, (line = "G0" ++ r \/ line = "G1" ++ r) /\
            (Tok.word_end r = true
             \/ exists r', (r = "0" ++ r' \/ r = "1" ++ r') /\ line = "G0" ++ r
                           /\ Tok.word_end r' = true).
Proof.
  unfold Tok.MOVE_CMD_RE. rewrite !orb_true_iff, !matches_word_spec.
  intros [[[(r & -> & Hw) | (r & -> & Hw)] | (r & -> & Hw)] | (r & -> & Hw)].
  - exists r. auto.
  - exists r. auto.
  - exists ("0" ++ r). split; [left; reflexivity|]. right. exists r. auto.
  - exists ("1" ++ r). split; [left; reflexivity|]. right. exists r. auto.
Qed.

(** The text an arc line starts with. *)
Lemma arc_line_cases (line : string) :
  ARC_CMD_RE line = true ->
  exists r, line = "G2" ++ r \/ line = "G3" ++ r
            \/ line = "G02" ++ r \/ line = "G03" ++ r.
Proof.
  unfold ARC_CMD_RE. rewrite !orb_true_iff, !matches_word_spec.
  intros [[[(r & -> & _) | (r & -> & _)] | (r & -> & _)] | (r & -> & _)];
    exists r; auto.
Qed.

Lemma move_line_excludes (line : string) :
  Tok.MOVE_CMD_RE line = true ->
  Tok.startswith "G90" line = false /\ Tok.startswith "G91" line = false
  /\ Tok.startswith "M82" line = false /\ Tok.startswith "M83" line = false
  /\ Tok.startswith "G92" line = false /\ ARC_CMD_RE line = false.
Proof.
  intros Hm.
  destruct (move_line_cases line Hm) as (r & Hl & Hr).
  assert (Harc : ARC_CMD_RE line = false).
  { destruct (ARC_CMD_RE line) eqn:E; [exfalso | reflexivity].
    destruct (arc_line_cases _ E) as (r2 & [E2 | [E2 | [E2 | E2]]]);
      destruct Hl as [-> | ->]; cbn [append] in E2; try discriminate E2;
      injection E2 as ->;
      destruct Hr as [Hw | (r' & [Hr' | Hr'] & _ & _)]; discriminate. }
  destruct Hl as [-> | ->]; repeat split; solve [reflexivity | exact Harc].
Qed.

Lemma arc_line_excludes (line : string) :
  ARC_CMD_RE line = true ->
  Tok.MOVE_CMD_RE line = false
  /\ Tok.startswith "G90" line = false /\ Tok.startswith "G91" line = false
  /\ Tok.startswith "M82" line = false /\ Tok.startswith "M83" line = false
  /\ Tok.startswith "G92" line = false.
Proof.
  intros Ha.
  destruct (arc_line_cases line Ha) as (r & [-> | [-> | [-> | ->]]]);
    repeat split; reflexivity.
Qed.

(** X1.  The branches of the loop over the lines exclude one another: a
    line that [MOVE_CMD_RE] accepts starts with none of G90, G91, M82, M83
    and G92 and is no arc line, and an arc line is accepted by none of the
    tests the parsers make.  So no line is both a mode switch or a reset
    and a move, and arcs fall through every branch. *)
Theorem loop_branches_exclusive (line : string) :
  (Tok.MOVE_CMD_RE line = true ->
   Tok.startswith "G90" line = false /\ Tok.startswith "G91" line = false
   /\ Tok.startswith "M82" line = false /\ Tok.startswith "M83" line = false
   /\ Tok.startswith "G92" line = false /\ ARC_CMD_RE line = false)
  /\ (ARC_CMD_RE line = true ->
      Tok.MOVE_CMD_RE line = false
      /\ Tok.startswith "G90" line = false /\ Tok.startswith "G91" line = false
      /\ Tok.startswith "M82" line = false /\ Tok.startswith "M83" line = false
      /\ Tok.startswith "G92" line = false).
Proof.
  split; [apply move_line_excludes | apply arc_line_excludes].
Qed.

End PrefixFacts.

(** ** More on the motion-state trackers *)

(** Case analysis on every test the loop body makes, the tests on the line
    first, then those on the state. *)
Ltac loop_cases :=
  repeat (cbn [fst snd mode_absolute e_absolute cur_x cur_y cur_z cur_e
               last_e e_offset extruding_state debug_count];
          first
            [ match goal with
              | |- context [if is_empty ?l then _ else _] =>
                  destruct (is_empty l)
              | |- context [if Tok.startswith ?p ?l then _ else _] =>
                  destruct (Tok.startswith p l)
              | |- context [if Tok.MOVE_CMD_RE ?l then _ else _] =>
                  destruct (Tok.MOVE_CMD_RE l)
              | |- context [match Dict.get ?k ?d with _ => _ end] =>
                  destruct (Dict.get k d)
              end
            | match goal with
              | |- context [if ?b then _ else _] => is_var b; destruct b
              end
            | match goal with
              | |- context [if ?b then _ else _] => destruct b
              end ]);
  cbn [fst snd mode_absolute e_absolute cur_x cur_y cur_z cur_e
       last_e e_offset extruding_state debug_count].

Section TrackerMore.
Context {F : Type} `{FloatOps F}.

Local Abbreviation state := (@state F).
Local Abbreviation state2 := (@state2 F).

(** *** Lines the parsers skip *)

Lemma unrecognized_line (raw : string) :
  recognized raw = false ->
  let line := Tok._strip_comments raw in
  Tok.MOVE_CMD_RE line = false
  /\ Tok.startswith "G90" line = false /\ Tok.startswith "G91" line = false
  /\ Tok.startswith "M82" line = false /\ Tok.startswith "M83" line = false
  /\ Tok.startswith "G92" line = false.
Proof.
  unfold recognized. cbv zeta. rewrite !orb_false_iff. tauto.
Qed.

Lemma step_unrecognized (st : state) (raw : string) :
  recognized raw = false -> step st raw = (st, None).
Proof.
  intros Hr. destruct (unrecognized_line raw Hr) as (Hm & H90 & H91 & H82 & H83 & H92).
  unfold step, apply_prefix. rewrite Hm, H90, H91, H82, H83, H92.
  destruct (is_empty _); reflexivity.
Qed.

Lemma step2_unrecognized (st : state2) (raw : string) :
  recognized raw = false -> step2 st raw = (st, None).
Proof.
  intros Hr. destruct (unrecognized_line raw Hr) as (Hm & H90 & H91 & _).
  unfold step2. rewrite Hm, H90, H91.
  destruct (is_empty _); destruct st; reflexivity.
Qed.

Lemma gen_skip (st : state) (file : list string) :
  gen st (filter recognized file) = gen st file.
Proof.
  revert st. induction file as [|raw file IH]; intros st; [reflexivity|].
  cbn [filter]. destruct (recognized raw) eqn:Hr.
  - cbn [gen]. destruct (step st raw) as [st' [s|]]; rewrite IH; reflexivity.
  - cbn [gen]. rewrite (step_unrecognized st raw Hr). apply IH.
Qed.

Lemma gen2_skip (st : state2) (file : list string) :
  gen2 st (filter recognized file) = gen2 st file.
Proof.
  revert st. induction file as [|raw file IH]; intros st; [reflexivity|].
  cbn [filter]. destruct (recognized raw) eqn:Hr.
  - cbn [gen2]. destruct (step2 st raw) as [st' [s|]]; rewrite IH; reflexivity.
  - cbn [gen2]. rewrite (step2_unrecognized st raw Hr). apply IH.
Qed.

(** X2.  A line that is blank, holds only a comment, or starts with
    anything but a motion command, G90, G91, M82, M83 or G92 changes
    nothing and yields nothing; deleting all such lines from a file leaves
    the output of both parsers as it was. *)
Theorem unrecognized_lines_are_skipped (file : list string) :
  (forall raw, Tok._strip_comments raw = EmptyString -> recognized raw = false)
  /\ (forall (st : state) raw, recognized raw = false -> step st raw = (st, None))
  /\ (forall (st : state2) raw, recognized raw = false -> step2 st raw = (st, None))
  /\ parse_gcode_points_extrude (F := F) (filter recognized file)
     = parse_gcode_points_extrude file
  /\ parse_gcode_points (F := F) (filter recognized file)
     = parse_gcode_points file.
Proof.
  split; [|split; [|split; [|split]]].
  - intros raw Hs. unfold recognized. rewrite Hs. reflexivity.
  - exact step_unrecognized.
  - exact step2_unrecognized.
  - apply gen_skip.
  - apply gen2_skip.
Qed.

(** X3.  Arcs are not handled: a G2, G3, G02 or G03 line yields no point
    and leaves the state of either parser untouched, so the path jumps
    from the point before the arc to the next linear move. *)
Theorem arc_lines_are_ignored (st : state) (st2 : state2) (raw : string) :
  is_arc_line raw = true ->
  step st raw = (st, None) /\ step2 st2 raw = (st2, None).
Proof.
  unfold is_arc_line. intros Ha.
  assert (Hr : recognized raw = false).
  { destruct (arc_line_excludes _ Ha) as (Hm & H90 & H91 & H82 & H83 & H92).
    unfold recognized. cbv zeta. rewrite Hm, H90, H91, H82, H83, H92. reflexivity. }
  split; [apply step_unrecognized | apply step2_unrecognized]; exact Hr.
Qed.

(** *** The G90/G91 flag is never read *)

(** A step from a state and from the same state with the other G90/G91
    flag yields the same sample and states that differ in that flag only. *)
Lemma step_same_but_mode (st : state) (raw : string) :
  snd (step (with_mode true st) raw) = snd (step st raw)
  /\ same_but_mode (fst (step (with_mode true st) raw)) (fst (step st raw)).
Proof.
  unfold same_but_mode, step, apply_prefix, apply_move, with_mode.
  destruct st as [m ea x y z e le eo ex dc]. cbn [mode_absolute e_absolute cur_x
    cur_y cur_z cur_e last_e e_offset extruding_state debug_count].
  loop_cases; split; reflexivity.
Qed.

Lemma gen_same_but_mode (a b : state) (file : list string) :
  same_but_mode a b -> gen a file = gen b file.
Proof.
  revert a b. induction file as [|raw file IH]; intros a b Hab; [reflexivity|].
  cbn [gen].
  destruct (step_same_but_mode a raw) as [Ha1 Ha2].
  destruct (step_same_but_mode b raw) as [Hb1 Hb2].
  unfold same_but_mode in *. rewrite Hab in Ha1, Ha2.
  destruct (step a raw) as [a' oa], (step b raw) as [b' ob].
  cbn [fst snd] in *.
  assert (Hs : oa = ob) by congruence.
  assert (Hn : with_mode true a' = with_mode true b') by congruence.
  rewrite Hs, (IH a' b' Hn). reflexivity.
Qed.

Lemma positioning_line_shape (line : string) :
  Tok.startswith "G90" line || Tok.startswith "G91" line = true ->
  is_empty line = false /\ Tok.MOVE_CMD_RE line = false.
Proof.
  rewrite orb_true_iff, !startswith_spec.
  intros [[r ->] | [r ->]]; split; reflexivity.
Qed.

Lemma step_positioning (st : state) (raw : string) :
  is_positioning_line raw = true ->
  snd (step st raw) = None /\ same_but_mode (fst (step st raw)) st.
Proof.
  unfold is_positioning_line. cbv zeta. intros Hp.
  destruct (positioning_line_shape _ Hp) as [Hne Hm].
  unfold step, apply_prefix, same_but_mode. rewrite Hne, Hm.
  destruct (Tok.startswith "G90" _); [|cbn [orb] in Hp; rewrite Hp];
    destruct st; split; reflexivity.
Qed.

(** X4.  The G90/G91 flag is recorded and never read: the samples do not
    depend on the flag the tracker starts with, and deleting every G90 and
    G91 line from a file leaves the raw output as it was.  Coordinates
    after G91 are taken as absolute all the same. *)
Theorem positioning_mode_has_no_effect (file : list string) :
  (forall (st : state) b lines, gen (with_mode b st) lines = gen st lines)
  /\ parse_gcode_points_extrude (F := F)
       (filter (fun raw => negb (is_positioning_line raw)) file)
     = parse_gcode_points_extrude file.
Proof.
  split.
  - intros st b lines. apply gen_same_but_mode.
    unfold same_but_mode. destruct st. reflexivity.
  - unfold parse_gcode_points_extrude. generalize (@init F _).
    induction file as [|raw file IH]; intros st; [reflexivity|].
    cbn [filter]. destruct (is_positioning_line raw) eqn:Hp; cbn [negb].
    + destruct (step_positioning st raw Hp) as [Hs Hn].
      cbn [gen]. destruct (step st raw) as [st' out]. cbn [fst snd] in *.
      subst out. rewrite IH. symmetry. apply gen_same_but_mode. exact Hn.
    + cbn [gen]. destruct (step st raw) as [st' [s|]]; rewrite IH; reflexivity.
Qed.

(** *** Invariants of the raw tracker *)

Lemma step_flag_is_bit (st : state) (raw : string) :
  flag_is_bit st -> flag_is_bit (fst (step st raw)).
Proof.
  unfold flag_is_bit, step, apply_prefix, apply_move.
  destruct st as [m ea x y z e le eo ex dc]. cbn [mode_absolute e_absolute cur_x
    cur_y cur_z cur_e last_e e_offset extruding_state debug_count].
  intros Hb.
  loop_cases; cbn [fst extruding_state]; auto.
Qed.

Lemma run_flag_is_bit (st : state) (file : list string) :
  flag_is_bit st -> flag_is_bit (run st file).
Proof.
  revert st. induction file as [|raw file IH]; intros st Hb; [exact Hb|].
  cbn [run]. apply IH, step_flag_is_bit, Hb.
Qed.

(** X5.  The extruding flag is 0 or 1, in the tracker after any file and
    in every sample of the raw output. *)
Theorem extruding_flag_is_bit (file : list string) :
  (extruding_state (run (F := F) init file) = 0
   \/ extruding_state (run (F := F) init file) = 1)
  /\ Forall (fun s => snd s = 0 \/ snd s = 1)
            (parse_gcode_points_extrude (F := F) file).
Proof.
  assert (Hi : flag_is_bit (@init F _)) by (left; reflexivity).
  split; [exact (run_flag_is_bit _ file Hi)|].
  unfold parse_gcode_points_extrude. revert Hi. generalize (@init F _).
  induction file as [|raw file IH]; intros st Hb; [constructor|].
  rewrite gen_cons. pose proof (step_flag_is_bit st raw Hb) as Hb'.
  destruct (emits raw); cbn [app]; [constructor|]; auto.
Qed.

Lemma step_last_e (st : state) (raw : string) :
  last_e st = cur_e st -> last_e (fst (step st raw)) = cur_e (fst (step st raw)).
Proof.
  unfold step, apply_prefix, apply_move.
  destruct st as [m ea x y z e le eo ex dc]. cbn [mode_absolute e_absolute cur_x
    cur_y cur_z cur_e last_e e_offset extruding_state debug_count].
  intros ->.
  loop_cases; reflexivity.
Qed.

Lemma step_e_offset (st : state) (raw : string) :
  is_g92_line raw = false -> e_offset (fst (step st raw)) = e_offset st.
Proof.
  unfold is_g92_line, step, apply_prefix, apply_move. intros ->.
  destruct st as [m ea x y z e le eo ex dc]. cbn [mode_absolute e_absolute cur_x
    cur_y cur_z cur_e last_e e_offset extruding_state debug_count].
  loop_cases; reflexivity.
Qed.

(** X6.  The bookkeeping of the extrusion axis: after any file [last_e]
    equals [cur_e], and [e_offset] is the value of the last G92 that gave
    the tracker an E: a file without G92 lines leaves it at 0. *)
Theorem extrusion_bookkeeping (file : list string) :
  last_e (run (F := F) init file) = cur_e (run (F := F) init file)
  /\ (forallb (fun raw => negb (is_g92_line raw)) file = true ->
      e_offset (run (F := F) init file) = f0).
Proof.
  split.
  - assert (Hi : last_e (@init F _) = cur_e (@init F _)) by reflexivity.
    revert Hi. generalize (@init F _).
    induction file as [|raw file IH]; intros st Hs; [exact Hs|].
    cbn [run]. apply IH, step_last_e, Hs.
  - assert (Hi : e_offset (@init F _) = f0) by reflexivity.
    revert Hi. generalize (@init F _).
    induction file as [|raw file IH]; intros st Hs Hf; [exact Hs|].
    cbn [forallb] in Hf. apply andb_true_iff in Hf as [Hg Hf].
    apply negb_true_iff in Hg. cbn [run]. apply IH; [|exact Hf].
    rewrite step_e_offset by exact Hg. exact Hs.
Qed.

Lemma step_debug_count (st : state) (raw : string) :
  debug_count (fst (step st raw))
  = if emits raw && (debug_count st <? 20) then debug_count st + 1
    else debug_count st.
Proof.
  unfold emits. destruct (is_motion_line raw) eqn:Hm.
  - rewrite step_motion by exact Hm. unfold has_xyz, line_coords, apply_move.
    destruct (Dict.get "E" (_parse_coords (Tok._strip_comments raw)));
      [destruct (e_absolute st)|]; reflexivity.
  - unfold is_motion_line in Hm. unfold step, apply_prefix. rewrite Hm.
    cbn [andb].
    repeat match goal with
           | |- context [if ?b then _ else _] => destruct b
           end; reflexivity.
Qed.

Lemma run_debug_count (st : state) (file : list string) :
  0 <= debug_count st <= 20 ->
  debug_count (run st file) = Z.min 20 (debug_count st + len (gen st file)).
Proof.
  revert st. induction file as [|raw file IH]; intros st Hd.
  - cbn [run gen]. unfold len. cbn [List.length]. lia.
  - cbn [run]. rewrite gen_cons. pose proof (step_debug_count st raw) as Hs.
    rewrite IH.
    + rewrite Hs, len_app.
      destruct (emits raw); cbn [andb];
        [destruct (Z.ltb_spec (debug_count st) 20)|];
        unfold len; cbn [List.length]; lia.
    + rewrite Hs. destruct (emits raw); cbn [andb]; [|lia].
      destruct (Z.ltb_spec (debug_count st) 20); lia.
Qed.

(** X7.  The debug counter counts the samples up to twenty and stops
    there: the debug line is printed for the first twenty samples of a
    file and for no other. *)
Theorem debug_output_is_capped (file : list string) :
  debug_count (run (F := F) init file)
  = Z.min 20 (len (parse_gcode_points_extrude (F := F) file))
  /\ (forall (st : state) raw,
        debug_count (fst (step st raw)) <> debug_count st ->
        emits raw = true /\ debug_count st < 20
        /\ debug_count (fst (step st raw)) = debug_count st + 1).
Proof.
  split.
  - unfold parse_gcode_points_extrude. rewrite run_debug_count; [reflexivity|].
    cbn. lia.
  - intros st raw. rewrite step_debug_count.
    destruct (emits raw); cbn [andb]; [|congruence].
    destruct (Z.ltb_spec (debug_count st) 20); [auto | congruence].
Qed.

(** *** The (x, y) tracker beside the raw tracker *)

Lemma step2_motion (st : state2) (raw : string) :
  is_motion_line raw = true ->
  step2 st raw
  = (mkState2 (mode_absolute2 st)
       (match Dict.get "X" (line_coords raw) with Some v => v | None => cur_x2 st end)
       (match Dict.get "Y" (line_coords raw) with Some v => v | None => cur_y2 st end),
     if emits_xy raw
     then Some (match Dict.get "X" (line_coords raw) with Some v => v | None => cur_x2 st end,
                match Dict.get "Y" (line_coords raw) with Some v => v | None => cur_y2 st end)
     else None).
Proof.
  unfold emits_xy, is_motion_line, line_coords, step2. intros Hm. rewrite Hm.
  rewrite (move_line_not_empty _ Hm).
  destruct (move_line_no_prefix _ Hm) as (H90 & H91 & _).
  rewrite H90, H91. reflexivity.
Qed.

Lemma step2_not_motion (st : state2) (raw : string) :
  is_motion_line raw = false ->
  snd (step2 st raw) = None
  /\ cur_x2 (fst (step2 st raw)) = cur_x2 st
  /\ cur_y2 (fst (step2 st raw)) = cur_y2 st.
Proof.
  unfold is_motion_line, step2. intros Hm. rewrite Hm.
  destruct (is_empty _); repeat split; reflexivity.
Qed.

Lemma step_not_motion_xy (st : state) (raw : string) :
  is_motion_line raw = false ->
  cur_x (fst (step st raw)) = cur_x st /\ cur_y (fst (step st raw)) = cur_y st.
Proof.
  unfold is_motion_line, step, apply_prefix. intros Hm. rewrite Hm.
  loop_cases; split; reflexivity.
Qed.

Lemma apply_move_xy (st : state) (line : string) :
  cur_x (fst (apply_move st line))
  = match Dict.get "X" (_parse_coords line) with Some v => v | None => cur_x st end
  /\ cur_y (fst (apply_move st line))
     = match Dict.get "Y" (_parse_coords line) with Some v => v | None => cur_y st end.
Proof.
  unfold apply_move.
  destruct (Dict.get "E" (_parse_coords line)); [destruct (e_absolute st)|];
    split; reflexivity.
Qed.

Lemma step_agree (st2 : state2) (st : state) (raw : string) :
  xy_agree st2 st ->
  xy_agree (fst (step2 st2 raw)) (fst (step st raw))
  /\ snd (step2 st2 raw)
     = if emits_xy raw
       then Some (cur_x (fst (step st raw)), cur_y (fst (step st raw)))
       else None.
Proof.
  unfold xy_agree. intros [Hx Hy]. destruct (is_motion_line raw) eqn:Hm.
  - rewrite step2_motion, step_motion by exact Hm.
    destruct (apply_move_xy st (Tok._strip_comments raw)) as [-> ->].
    unfold line_coords. cbn [fst snd cur_x2 cur_y2]. rewrite Hx, Hy.
    repeat split; reflexivity.
  - destruct (step2_not_motion st2 raw Hm) as (-> & -> & ->).
    destruct (step_not_motion_xy st raw Hm) as (-> & ->).
    unfold emits_xy. rewrite Hm. auto.
Qed.

Lemma run_agree (st2 : state2) (st : state) (lines : list string) :
  xy_agree st2 st -> xy_agree (run2 st2 lines) (run st lines).
Proof.
  revert st2 st. induction lines as [|raw lines IH]; intros st2 st Ha; [exact Ha|].
  cbn [run2 run]. apply IH, step_agree, Ha.
Qed.

Lemma gen2_cons (st2 : state2) (st : state) (raw : string) (rest : list string) :
  xy_agree st2 st ->
  gen2 st2 (raw :: rest)
  = (if emits_xy raw
     then [(cur_x (fst (step st raw)), cur_y (fst (step st raw)))] else [])
    ++ gen2 (fst (step2 st2 raw)) rest.
Proof.
  intros Ha. cbn [gen2]. destruct (step_agree st2 st raw Ha) as [_ Hs].
  destruct (step2 st2 raw) as [st2' out]. cbn [fst snd] in *. subst out.
  destruct (emits_xy raw); reflexivity.
Qed.

Lemma gen2_app (st2 : state2) (pre post : list string) :
  gen2 st2 (pre ++ post) = gen2 st2 pre ++ gen2 (run2 st2 pre) post.
Proof.
  revert st2. induction pre as [|raw pre IH]; intros st2; [reflexivity|].
  cbn [app gen2 run2]. destruct (step2 st2 raw) as [st2' [p|]]; cbn [fst];
    rewrite IH; reflexivity.
Qed.

Lemma gen2_length (st2 : state2) (st : state) (file : list string) :
  xy_agree st2 st ->
  List.length (gen2 st2 file) = List.length (filter emits_xy file).
Proof.
  revert st2 st. induction file as [|raw file IH]; intros st2 st Ha; [reflexivity|].
  rewrite (gen2_cons st2 st) by exact Ha. rewrite length_app.
  rewrite (IH _ (fst (step st raw))) by (apply step_agree; exact Ha).
  cbn [filter]. destruct (emits_xy raw); reflexivity.
Qed.

Lemma gen2_projects (st2 : state2) (st : state) (file : list string) :
  xy_agree st2 st ->
  (forall raw, In raw file -> emits raw = true -> emits_xy raw = true) ->
  gen2 st2 file = map (fun s => (fst (fst (fst s)), snd (fst (fst s)))) (gen st file).
Proof.
  revert st2 st. induction file as [|raw file IH]; intros st2 st Ha Hz;
    [reflexivity|].
  rewrite (gen2_cons st2 st) by exact Ha. rewrite gen_cons, map_app.
  rewrite (IH _ (fst (step st raw)));
    [|apply step_agree; exact Ha | intros; apply Hz; [right|]; assumption].
  f_equal. destruct (emits raw) eqn:He.
  - rewrite (Hz raw (or_introl eq_refl) He). reflexivity.
  - assert (Hxy : emits_xy raw = false).
    { unfold emits, emits_xy, has_xyz in *. destruct (is_motion_line raw);
        [|reflexivity]. cbn [andb] in *.
      apply orb_false_iff in He as [He _]. exact He. }
    rewrite Hxy. reflexivity.
Qed.

(** X8.  [parse_gcode_points] yields one pair for each motion line with X
    or Y and none for any other line: a move in Z alone, which the raw
    tracker reports, is passed over.  The pair at index [i] is the x and y
    the raw tracker holds after the same line, so on a file in which every
    sampled motion line carries X or Y the output is the raw output with z
    and the flag dropped. *)
Theorem xy_tracker_follows_raw_tracker (file : list string) :
  List.length (parse_gcode_points (F := F) file)
  = List.length (filter emits_xy file)
  /\ (forall pre raw post,
        file = pre ++ raw :: post -> emits_xy raw = true ->
        nth_error (parse_gcode_points file) (List.length (filter emits_xy pre))
        = Some (cur_x (run init (pre ++ [raw])), cur_y (run init (pre ++ [raw]))))
  /\ ((forall raw, In raw file -> emits raw = true -> emits_xy raw = true) ->
      parse_gcode_points file
      = map (fun s => (fst (fst (fst s)), snd (fst (fst s))))
            (parse_gcode_points_extrude file)).
Proof.
  assert (Hi : xy_agree (@init2 F _) (@init F _)) by (split; reflexivity).
  unfold parse_gcode_points, parse_gcode_points_extrude.
  split; [|split].
  - apply (gen2_length _ _ _ Hi).
  - intros pre raw post -> He. rewrite gen2_app.
    rewrite <- (gen2_length _ _ pre Hi).
    rewrite nth_error_app2 by lia. rewrite Nat.sub_diag.
    rewrite (gen2_cons _ (run init pre)) by (apply run_agree; exact Hi).
    rewrite He, run_app. reflexivity.
  - apply gen2_projects. exact Hi.
Qed.

End TrackerMore.

(** ** More on the tokenizer *)

Section TokMore.
Context {F : Type} `{FloatOps F}.

(** *** What [_strip_comments] returns *)

Lemma lstrip_first (s : string) (c : ascii) :
  first_char (Tok.lstrip s) = Some c -> Tok.is_space c = false.
Proof.
  induction s as [|a s IH]; cbn [Tok.lstrip]; [discriminate|].
  destruct (Tok.is_space a) eqn:Ha; [exact IH|].
  cbn [first_char]. intros [= <-]. exact Ha.
Qed.

Lemma rstrip_first (s : string) (c : ascii) :
  first_char (Tok.rstrip s) = Some c -> first_char s = Some c.
Proof.
  destruct s as [|a s]; cbn [Tok.rstrip]; [discriminate|].
  destruct (Tok.rstrip s); [destruct (Tok.is_space a)|]; cbn [first_char];
    congruence.
Qed.

Lemma rstrip_last (s : string) (c : ascii) :
  last_char (Tok.rstrip s) = Some c -> Tok.is_space c = false.
Proof.
  induction s as [|a s IH]; cbn [Tok.rstrip]; [discriminate|].
  destruct (Tok.rstrip s) as [|b r] eqn:Hr.
  - destruct (Tok.is_space a) eqn:Ha; cbn [last_char]; [discriminate|].
    intros [= <-]. exact Ha.
  - intros Hl. apply IH. exact Hl.
Qed.

Lemma lstrip_occurs (c : ascii) (s : string) :
  occurs c (Tok.lstrip s) = true -> occurs c s = true.
Proof.
  induction s as [|a s IH]; cbn [Tok.lstrip occurs]; [discriminate|].
  destruct (Tok.is_space a); [|exact (fun E => E)].
  intros Ho. rewrite (IH Ho). apply orb_true_r.
Qed.

Lemma rstrip_occurs (c : ascii) (s : string) :
  occurs c (Tok.rstrip s) = true -> occurs c s = true.
Proof.
  induction s as [|a s IH]; cbn [Tok.rstrip occurs]; [discriminate|].
  destruct (Tok.rstrip s) as [|b r] eqn:Hr.
  - destruct (Tok.is_space a); cbn [occurs]; [discriminate|].
    rewrite orb_false_r. intros ->. reflexivity.
  - cbn [occurs] in *. intros Ho. apply orb_true_iff in Ho as [-> | Ho];
      [reflexivity|]. rewrite (IH Ho). apply orb_true_r.
Qed.

Lemma semicolon_rest_occurs (c : ascii) (s rest : string) :
  Tok.semicolon_rest s = Some rest -> occurs c rest = true -> occurs c s = true.
Proof.
  induction s as [|a s IH]; cbn [Tok.semicolon_rest].
  - intros [= <-]. discriminate.
  - destruct (Ascii.eqb a Tok.newline).
    + destruct s; [|discriminate]. intros [= <-]. exact (fun E => E).
    + intros Hs Ho. cbn [occurs]. rewrite (IH Hs Ho). apply orb_true_r.
Qed.

Lemma comment_sub_occurs (c : ascii) (b : bool) (s : string) :
  occurs c (Tok.comment_sub b s) = true -> occurs c s = true.
Proof.
  revert b. induction s as [|a s IH]; intros b; cbn [Tok.comment_sub occurs];
    [discriminate|].
  assert (Hrec : forall b', occurs c (Tok.comment_sub b' s) = true ->
                            Ascii.eqb a c || occurs c s = true)
    by (intros b' Ho; rewrite (IH b' Ho); apply orb_true_r).
  assert (Hkeep : occurs c (String a (Tok.comment_sub false s)) = true ->
                  Ascii.eqb a c || occurs c s = true).
  { cbn [occurs]. intros Ho. apply orb_true_iff in Ho as [-> | Ho];
      [reflexivity | exact (Hrec false Ho)]. }
  destruct b; [apply Hrec|].
  destruct (Ascii.eqb a "(" && Tok.closes s); [apply Hrec|].
  destruct (Ascii.eqb a ";"); [|exact Hkeep].
  destruct (Tok.semicolon_rest s) as [rest|] eqn:Hs; [|exact Hkeep].
  intros Ho. rewrite (semicolon_rest_occurs c s rest Hs Ho). apply orb_true_r.
Qed.

Lemma single_line_tail (a : ascii) (s : string) :
  single_line (String a s) = true -> single_line s = true.
Proof.
  cbn [single_line]. destruct (Ascii.eqb a Tok.newline); [|exact (fun E => E)].
  destruct s; [reflexivity | discriminate].
Qed.

Lemma semicolon_rest_single_line (s : string) :
  single_line s = true ->
  exists rest, Tok.semicolon_rest s = Some rest /\ occurs ";" rest = false.
Proof.
  induction s as [|a s IH]; cbn [single_line Tok.semicolon_rest].
  - exists EmptyString. split; reflexivity.
  - destruct (Ascii.eqb_spec a Tok.newline) as [-> | Hn]; [|exact IH].
    destruct s; [|discriminate]. intros _. eexists. split; reflexivity.
Qed.

Lemma comment_sub_no_semicolon (b : bool) (s : string) :
  single_line s = true -> occurs ";" (Tok.comment_sub b s) = false.
Proof.
  revert b. induction s as [|a s IH]; intros b Hs; [reflexivity|].
  pose proof (single_line_tail a s Hs) as Hs'.
  cbn [Tok.comment_sub]. destruct b; [apply IH; exact Hs'|].
  destruct (Ascii.eqb a "(" && Tok.closes s); [apply IH; exact Hs'|].
  destruct (Ascii.eqb a ";") eqn:Ha.
  - destruct (semicolon_rest_single_line s Hs') as (rest & -> & Hr). exact Hr.
  - cbn [occurs]. rewrite Ha. apply IH. exact Hs'.
Qed.

(** X9.  The text [_strip_comments] returns neither starts nor ends with
    white space and holds no character the line did not hold; for a line
    as a file hands it out (no newline but a last one) it holds no
    semicolon, so nothing of a trailing comment is left. *)
Theorem strip_comments_result (raw : string) :
  (forall c, first_char (Tok._strip_comments raw) = Some c -> Tok.is_space c = false)
  /\ (forall c, last_char (Tok._strip_comments raw) = Some c -> Tok.is_space c = false)
  /\ (forall c, occurs c (Tok._strip_comments raw) = true -> occurs c raw = true)
  /\ (single_line raw = true -> occurs ";" (Tok._strip_comments raw) = false).
Proof.
  unfold Tok._strip_comments, Tok.strip. split; [|split; [|split]].
  - intros c Hc. apply rstrip_first in Hc. exact (lstrip_first _ _ Hc).
  - intros c. apply rstrip_last.
  - intros c Ho. apply rstrip_occurs, lstrip_occurs in Ho.
    exact (comment_sub_occurs c false raw Ho).
  - intros Hs. pose proof (comment_sub_no_semicolon false raw Hs) as Hn.
    destruct (occurs ";" (Tok.rstrip (Tok.lstrip (Tok.comment_sub false raw))))
      eqn:Ho; [|reflexivity].
    apply rstrip_occurs, lstrip_occurs in Ho. congruence.
Qed.

(** *** What [_parse_coords] returns *)

Lemma u_get_set (k k' : N) (v : F) (d : Unicode.dict) :
  Unicode.get k (Unicode.set k' v d)
  = if (k =? k')%N then Some v else Unicode.get k d.
Proof.
  induction d as [|[k2 v2] d IH]; cbn [Unicode.set Unicode.get]; [reflexivity|].
  destruct (N.eqb_spec k' k2) as [<- | Hne]; cbn [Unicode.get].
  - destruct (k =? k')%N; reflexivity.
  - destruct (N.eqb_spec k k2) as [<- | Hne2].
    + destruct (N.eqb_spec k k'); [congruence | reflexivity].
    + exact IH.
Qed.

Lemma find_snoc {A : Type} (p : A -> bool) (l : list A) (x : A) :
  find p (l ++ [x])
  = match find p l with
    | Some y => Some y
    | None => if p x then Some x else None
    end.
Proof.
  induction l as [|a l IH]; cbn [app find]; [reflexivity|].
  destruct (p a); [reflexivity | exact IH].
Qed.

Lemma u_fold_set_get (k : N) (ms : list (N * list N)) (acc : Unicode.dict) :
  Unicode.get k
    (fold_left (fun coords m =>
                  Unicode.set (fst m) (float_of_string (Unicode.text (snd m))) coords)
               ms acc)
  = match Unicode.last_match k ms with
    | Some num => Some (float_of_string (Unicode.text num))
    | None => Unicode.get k acc
    end.
Proof.
  unfold Unicode.last_match. revert acc. induction ms as [|m ms IH]; intros acc;
    [reflexivity|].
  cbn [fold_left rev]. rewrite IH, find_snoc, u_get_set.
  destruct (find _ (rev ms)); [reflexivity|].
  destruct (k =? fst m)%N; reflexivity.
Qed.

(** The keys come from characters of the line. *)
Lemma axis_letter_keys (c k : N) :
  Unicode.axis_letter c = Some k ->
  (k = Unicode.dotted_I /\ c = Unicode.dotted_I) \/ In k Unicode.ascii_keys.
Proof.
  unfold Unicode.axis_letter.
  destruct (_ || _); [intros [= <-]; right; cbn; tauto|].
  destruct (_ || _); [intros [= <-]; right; cbn; tauto|].
  destruct (_ || _); [intros [= <-]; right; cbn; tauto|].
  destruct (_ || _ || _); [intros [= <-]; right; cbn; tauto|].
  destruct (N.eqb_spec c Unicode.dotted_I) as [-> | _];
    [intros [= <-]; left; split; reflexivity|].
  destruct (_ || _); [intros [= <-]; right; cbn; tauto|].
  destruct (_ || _); [intros [= <-]; right; cbn; tauto|].
  destruct (_ || _); [intros [= <-]; right; cbn; tauto|].
  discriminate.
Qed.

Section Suffix.
Variable P : N -> Prop.

Lemma span_digits_rest (s d rest : list N) :
  Unicode.span_digits s = (d, rest) -> Forall P s -> Forall P rest.
Proof.
  revert d rest. induction s as [|c r IH]; intros d rest; cbn [Unicode.span_digits].
  - intros [= <- <-] _. constructor.
  - destruct (Unicode.is_digit c).
    + destruct (Unicode.span_digits r) as [d' rest'] eqn:E.
      intros [= <- <-] Hs. inversion Hs; subst. eapply IH; [reflexivity | assumption].
    + intros [= <- <-] Hs. exact Hs.
Qed.

Lemma match_unsigned_rest (s n rest : list N) :
  Unicode.match_unsigned s = Some (n, rest) -> Forall P s -> Forall P rest.
Proof.
  unfold Unicode.match_unsigned.
  destruct (Unicode.span_digits s) as [d1 r1] eqn:E1. intros Hm Hs.
  pose proof (span_digits_rest _ _ _ E1 Hs) as Hr1.
  assert (Hplain : match d1 with [] => None | _ => Some (d1, r1) end = Some (n, rest)
                   -> Forall P rest).
  { destruct d1; [discriminate|]. intros [= <- <-]. exact Hr1. }
  destruct r1 as [|c r]; [exact (Hplain Hm)|].
  destruct (Unicode.is_char "." c); [|exact (Hplain Hm)].
  destruct (Unicode.span_digits r) as [d2 r2] eqn:E2.
  destruct d2; [exact (Hplain Hm)|].
  injection Hm as <- <-. inversion Hr1; subst.
  eapply span_digits_rest; [exact E2 | assumption].
Qed.

Lemma match_number_rest (s n rest : list N) :
  Unicode.match_number s = Some (n, rest) -> Forall P s -> Forall P rest.
Proof.
  unfold Unicode.match_number. destruct s as [|c r]; [discriminate|].
  destruct (_ || _).
  - destruct (Unicode.match_unsigned r) as [[n' rest']|] eqn:E; [|discriminate].
    intros [= <- <-] Hs. inversion Hs; subst.
    eapply match_unsigned_rest; [exact E | assumption].
  - apply match_unsigned_rest.
Qed.

Lemma finditer_keys_from (fuel : nat) (s : list N) :
  Forall P s ->
  Forall (fun m => exists c, P c /\ Unicode.axis_letter c = Some (fst m))
         (Unicode.finditer_fuel fuel s).
Proof.
  revert s. induction fuel as [|fuel IH]; intros s Hs; cbn [Unicode.finditer_fuel];
    [constructor|].
  destruct s as [|c r]; [constructor|]. inversion Hs; subst.
  destruct (Unicode.axis_letter c) as [k|] eqn:Hk; [|apply IH; assumption].
  destruct (Unicode.match_number r) as [[num rest]|] eqn:Hn; [|apply IH; assumption].
  constructor; [exists c; split; assumption|].
  apply IH. eapply match_number_rest; [exact Hn | assumption].
Qed.

End Suffix.

Lemma parse_coords_keys (P : N -> Prop) (line : list N) (k : N) :
  Forall P line ->
  Unicode.mem k (Unicode._parse_coords (F := F) line) = true ->
  exists c, P c /\ Unicode.axis_letter c = Some k.
Proof.
  intros Hl. unfold Unicode._parse_coords, Unicode.mem. rewrite u_fold_set_get.
  cbn [Unicode.get]. unfold Unicode.last_match.
  destruct (find _ (rev (Unicode.COORD_RE_finditer line))) as [m|] eqn:Hf;
    [|discriminate].
  intros _. apply find_some in Hf as [Hin Hk].
  apply in_rev in Hin. apply N.eqb_eq in Hk. subst k.
  pose proof (finditer_keys_from P (List.length line) line Hl) as Hall.
  rewrite Forall_forall in Hall. exact (Hall m Hin).
Qed.

(** *** The string model is the restriction to code points below 256 *)

Lemma code_inj (a b : ascii) : Tok.code a = Tok.code b -> a = b.
Proof.
  unfold Tok.code. intros E.
  rewrite <- (ascii_N_embedding a), <- (ascii_N_embedding b), E. reflexivity.
Qed.

Lemma is_char_code (a c : ascii) : Unicode.is_char a (Tok.code c) = Ascii.eqb c a.
Proof.
  unfold Unicode.is_char.
  destruct (Ascii.eqb_spec c a) as [-> | Hne]; [apply N.eqb_refl|].
  apply N.eqb_neq. intros E. apply Hne, code_inj, E.
Qed.

Lemma code_small (c : ascii) : (Tok.code c < 256)%N.
Proof. apply N_ascii_bounded. Qed.

Lemma axis_letter_code (c : ascii) :
  Unicode.axis_letter (Tok.code c) = option_map Tok.code (Tok.axis_letter c).
Proof.
  unfold Unicode.axis_letter, Tok.axis_letter. rewrite !is_char_code.
  assert (H1 : (Tok.code c =? Unicode.dotless_i)%N = false).
  { apply N.eqb_neq. pose proof (code_small c). unfold Unicode.dotless_i. lia. }
  assert (H2 : (Tok.code c =? Unicode.dotted_I)%N = false).
  { apply N.eqb_neq. pose proof (code_small c). unfold Unicode.dotted_I. lia. }
  rewrite H1, H2, orb_false_r.
  repeat match goal with
         | |- context [if ?b then _ else _] => destruct b; [reflexivity|]
         end.
  reflexivity.
Qed.

Lemma decode_cons (c : ascii) (s : string) :
  Unicode.decode (String c s) = Tok.code c :: Unicode.decode s.
Proof. reflexivity. Qed.

Lemma decode_app (s t : string) :
  Unicode.decode (s ++ t) = (Unicode.decode s ++ Unicode.decode t)%list.
Proof.
  induction s as [|c s IH]; [reflexivity|].
  cbn [append]. rewrite !decode_cons, IH. reflexivity.
Qed.

Lemma decode_length (s : string) : List.length (Unicode.decode s) = String.length s.
Proof.
  induction s as [|c s IH]; [reflexivity|].
  rewrite decode_cons. cbn [List.length String.length]. rewrite IH. reflexivity.
Qed.

Lemma text_decode (s : string) : Unicode.text (Unicode.decode s) = s.
Proof.
  induction s as [|c s IH]; [reflexivity|].
  rewrite decode_cons. unfold Unicode.text in *. cbn [map string_of_list_ascii].
  rewrite IH. unfold Tok.code. rewrite ascii_N_embedding. reflexivity.
Qed.

Lemma span_digits_decode (s : string) :
  Unicode.span_digits (Unicode.decode s) = Unicode.decode_pair (Tok.span_digits s).
Proof.
  induction s as [|c s IH]; [reflexivity|].
  rewrite decode_cons. cbn [Unicode.span_digits Tok.span_digits].
  change (Unicode.is_digit (Tok.code c)) with (Tok.is_digit c).
  destruct (Tok.is_digit c); [|reflexivity].
  rewrite IH. destruct (Tok.span_digits s) as [d rest]. reflexivity.
Qed.

Lemma match_unsigned_decode (s : string) :
  Unicode.match_unsigned (Unicode.decode s)
  = option_map Unicode.decode_pair (Tok.match_unsigned s).
Proof.
  unfold Unicode.match_unsigned, Tok.match_unsigned.
  rewrite span_digits_decode. destruct (Tok.span_digits s) as [d1 rest].
  unfold Unicode.decode_pair at 1. cbn [fst snd].
  assert (Hplain :
    match Unicode.decode d1 with
    | [] => None
    | _ => Some (Unicode.decode d1, Unicode.decode rest)
    end
    = option_map Unicode.decode_pair
        match d1 with EmptyString => None | _ => Some (d1, rest) end).
  { destruct d1; reflexivity. }
  destruct rest as [|c r]; [exact Hplain|].
  rewrite decode_cons, is_char_code.
  destruct (Ascii.eqb c "."); [|rewrite <- decode_cons; exact Hplain].
  rewrite span_digits_decode. destruct (Tok.span_digits r) as [d2 rest'].
  unfold Unicode.decode_pair at 1. cbn [fst snd].
  destruct d2 as [|c2 d2].
  - rewrite <- decode_cons. exact Hplain.
  - rewrite decode_cons. cbn [option_map]. unfold Unicode.decode_pair. cbn [fst snd].
    rewrite decode_app, !decode_cons. reflexivity.
Qed.

Lemma match_number_decode (s : string) :
  Unicode.match_number (Unicode.decode s)
  = option_map Unicode.decode_pair (Tok.match_number s).
Proof.
  destruct s as [|c r]; [reflexivity|].
  unfold Unicode.match_number, Tok.match_number. rewrite decode_cons.
  rewrite !is_char_code.
  destruct (Ascii.eqb c "-" || Ascii.eqb c "+").
  - rewrite match_unsigned_decode.
    destruct (Tok.match_unsigned r) as [[n rest]|]; reflexivity.
  - rewrite <- decode_cons. apply match_unsigned_decode.
Qed.

Lemma finditer_decode (fuel : nat) (s : string) :
  Unicode.finditer_fuel fuel (Unicode.decode s)
  = map (fun m => (Tok.code (fst m), Unicode.decode (snd m)))
        (Tok.finditer_fuel fuel s).
Proof.
  revert s. induction fuel as [|fuel IH]; intros s; [reflexivity|].
  destruct s as [|c r]; [reflexivity|].
  rewrite decode_cons. cbn [Unicode.finditer_fuel Tok.finditer_fuel].
  rewrite axis_letter_code.
  destruct (Tok.axis_letter c) as [k|]; cbn [option_map]; [|apply IH].
  rewrite match_number_decode.
  destruct (Tok.match_number r) as [[num rest]|]; cbn [option_map]; [|apply IH].
  unfold Unicode.decode_pair. cbn [fst snd map]. rewrite IH. reflexivity.
Qed.

Lemma get_code (c : ascii) (d : Dict.t (V := F)) :
  Unicode.get (Tok.code c) (map (fun kv => (Tok.code (fst kv), snd kv)) d)
  = Dict.get c d.
Proof.
  induction d as [|[k v] d IH]; [reflexivity|].
  cbn [map Unicode.get Dict.get fst snd].
  change (Tok.code c =? Tok.code k)%N with (Unicode.is_char k (Tok.code c)).
  rewrite is_char_code, IH. reflexivity.
Qed.

Lemma set_code (k : ascii) (v : F) (d : Dict.t (V := F)) :
  Unicode.set (Tok.code k) v (map (fun kv => (Tok.code (fst kv), snd kv)) d)
  = map (fun kv => (Tok.code (fst kv), snd kv)) (Dict.set k v d).
Proof.
  induction d as [|[k' v'] d IH]; [reflexivity|].
  cbn [map Unicode.set Dict.set fst snd].
  change (Tok.code k =? Tok.code k')%N with (Unicode.is_char k' (Tok.code k)).
  rewrite is_char_code. destruct (Ascii.eqb k k'); [reflexivity|].
  cbn [map fst snd]. rewrite IH. reflexivity.
Qed.

Lemma parse_coords_decode (s : string) :
  Unicode._parse_coords (F := F) (Unicode.decode s)
  = map (fun kv => (Tok.code (fst kv), snd kv)) (_parse_coords s).
Proof.
  unfold Unicode._parse_coords, _parse_coords, Unicode.COORD_RE_finditer,
    Tok.COORD_RE_finditer.
  rewrite decode_length, finditer_decode.
  change (@nil (N * F)) with
    (map (fun kv : ascii * F => (Tok.code (fst kv), snd kv)) []).
  generalize (@nil (ascii * F)).
  induction (Tok.finditer_fuel (String.length s) s) as [|m ms IH]; intros acc;
    [reflexivity|].
  cbn [map fold_left fst snd]. rewrite text_decode, set_code. apply IH.
Qed.

(** X10.  The dictionary [_parse_coords] builds maps a key to the value of
    the last match with that key on the line: a repeated axis word
    overwrites the earlier one, and a key with no match is absent.  A key
    is one of X, Y, E, I, J, R, Z or else U+0130, and U+0130 only on a line
    that holds that character; so a line of code points below 256 has its
    keys among the seven letters, and its dictionary is the one of the
    [string] model. *)
Theorem parse_coords_lookup (line : list N) (k : N) :
  Unicode.get k (Unicode._parse_coords (F := F) line)
  = option_map (fun num => float_of_string (Unicode.text num))
               (Unicode.last_match k (Unicode.COORD_RE_finditer line))
  /\ (Unicode.mem k (Unicode._parse_coords (F := F) line) = true ->
      In k Unicode.ascii_keys
      \/ (k = Unicode.dotted_I /\ In Unicode.dotted_I line))
  /\ (Forall (fun c => (c < 256)%N) line ->
      Unicode.mem k (Unicode._parse_coords (F := F) line) = true ->
      In k Unicode.ascii_keys)
  /\ (forall s c,
        line = Unicode.decode s -> k = Tok.code c ->
        Unicode.get k (Unicode._parse_coords (F := F) line)
        = Dict.get c (_parse_coords s)).
Proof.
  assert (Hkeys : Unicode.mem k (Unicode._parse_coords (F := F) line) = true ->
                  In k Unicode.ascii_keys
                  \/ (k = Unicode.dotted_I /\ In Unicode.dotted_I line)).
  { intros Hm.
    destruct (parse_coords_keys (fun c => In c line) line k) as (c & Hin & Hc);
      [apply Forall_forall; intros x Hx; exact Hx | exact Hm |].
    destruct (axis_letter_keys c k Hc) as [[-> ->] | Hk]; [right | left];
      [split; [reflexivity | exact Hin] | exact Hk]. }
  split; [|split; [exact Hkeys | split]].
  - unfold Unicode._parse_coords. rewrite u_fold_set_get. cbn [Unicode.get].
    destruct (Unicode.last_match k _); reflexivity.
  - intros Hsmall Hm. destruct (Hkeys Hm) as [Hk | [_ Hin]]; [exact Hk|].
    exfalso. rewrite Forall_forall in Hsmall. specialize (Hsmall _ Hin).
    unfold Unicode.dotted_I in Hsmall. lia.
  - intros s c -> ->. rewrite parse_coords_decode. apply get_code.
Qed.

End TokMore.

(** ** More on the resampler *)

Section ResamplerMore.
Context {F : Type} `{FloatOps F}.

Local Abbreviation point := (@point F).
Local Abbreviation config := (@config F).

(** What [subdivide] returns: nothing for a count of 0 or -1, the evenly
    spaced points for a positive count; a count below -1 raises. *)
Lemma subdivide_cases (p0 p1 : point) (n : Z) :
  (n < -1 -> subdivide p0 p1 n = None)
  /\ (-1 <= n <= 0 -> subdivide p0 p1 n = Some [])
  /\ (1 <= n -> subdivide p0 p1 n = Some (subdivision p0 p1 n)).
Proof.
  split; [|split].
  - intros Hn. unfold subdivide, linspace.
    destruct (Z.ltb_spec (n + 1) 0); [reflexivity | lia].
  - intros Hn. assert (Hc : n = -1 \/ n = 0) by lia.
    destruct Hc as [-> | ->]; reflexivity.
  - intros Hn. apply subdivide_spec. lia.
Qed.

(** X11.  [_lin_interpolate] never raises, whatever the count: it returns
    [max(1, n)] points, the last of them [p1] itself; a count of zero or
    below gives the single point [p1], not an error. *)
Theorem lin_interpolate_total (p0 p1 d : point) (n : Z) :
  exists pts,
    _lin_interpolate p0 p1 n = Some pts
    /\ len pts = Z.max 1 n
    /\ last pts d = p1
    /\ (n <= 1 -> pts = [p1]).
Proof.
  destruct (Z.le_gt_cases n 1) as [Hle | Hgt].
  - exists [p1]. unfold _lin_interpolate.
    destruct (Z.leb_spec n 1); [|lia].
    repeat split; unfold len; cbn [List.length]; lia.
  - exists (subdivision p0 p1 n). rewrite lin_interpolate_spec by lia.
    split; [reflexivity|]. split; [rewrite subdivision_len; lia|].
    split; [apply subdivision_last; lia | lia].
Qed.

Lemma last_app_nonempty {A : Type} (l l' : list A) (d : A) :
  l' <> [] -> last (l ++ l') d = last l' d.
Proof.
  intros Hne. induction l as [|x l IH]; [reflexivity|].
  cbn [app]. rewrite <- IH. cbn [last].
  destruct (l ++ l') eqn:E; [|reflexivity].
  apply app_eq_nil in E as [_ E]. contradiction.
Qed.

Lemma segment_points_cases (cfg : config) (a b : point) (qs : list point) :
  segment_points cfg a b = Some qs ->
  qs = [] \/ exists n, 1 <= n /\ qs = subdivision a b n.
Proof.
  unfold segment_points. destruct (fleb _ f0); [intros [= <-]; auto|].
  destruct (truediv _ _) as [q|]; [|discriminate].
  destruct (fceil q) as [c|]; [|discriminate].
  rewrite lin_interpolate_spec by lia. intros [= <-].
  right. exists (Z.max 1 c). split; [lia | reflexivity].
Qed.

Lemma corner_points_cases (cfg : config) (p2 p1 p : point) (qs : list point) :
  corner_points cfg p2 p1 p = Some qs ->
  qs = []
  \/ exists n, 1 <= n /\ qs = subdivision p2 p1 n ++ subdivision p1 p n.
Proof.
  unfold corner_points.
  destruct (subdivide_cases p2 p1 (corner_density cfg)) as (Hlo & Hmid & Hhi).
  destruct (subdivide_cases p1 p (corner_density cfg)) as (_ & Hmid' & Hhi').
  destruct (Z.lt_ge_cases (corner_density cfg) (-1)) as [Hn | Hn].
  - rewrite (Hlo Hn). discriminate.
  - destruct (Z.le_gt_cases (corner_density cfg) 0) as [Hz | Hz].
    + rewrite Hmid, Hmid' by lia. intros [= <-]. auto.
    + rewrite Hhi, Hhi' by lia. intros [= <-].
      right. exists (corner_density cfg). split; [lia | reflexivity].
Qed.

(** X12.  Whatever the resampler pushes for an input point ends at that
    point: the first point of the path is pushed as it is, and every later
    step pushes either nothing or a run of points whose last one is the
    input point itself, so no leg of the path ends short of its vertex. *)
Theorem pushed_run_ends_at_input_point
    (cfg : config) (w : window) (p d : point) (qs : list point) :
  emitted cfg w p = Some qs ->
  (qs <> [] -> last qs d = p)
  /\ (snd w = None -> qs = [p]).
Proof.
  unfold emitted. destruct (snd w) as [p1|].
  - intros Hq. split; [|discriminate]. intros Hne.
    assert (Hcases : qs = []
              \/ (exists n, 1 <= n /\ qs = subdivision p1 p n)
              \/ (exists p2 n, 1 <= n
                    /\ qs = subdivision p2 p1 n ++ subdivision p1 p n)).
    { destruct (fst w) as [p2|].
      - destruct (_angle_between _ _) as [ang|]; [|discriminate].
        destruct (fleb _ ang).
        + destruct (corner_points_cases _ _ _ _ _ Hq) as [-> | (n & Hn & ->)];
            [auto | right; right; eauto].
        + destruct (segment_points_cases _ _ _ _ Hq) as [-> | (n & Hn & ->)];
            [auto | right; left; eauto].
      - destruct (segment_points_cases _ _ _ _ Hq) as [-> | (n & Hn & ->)];
          [auto | right; left; eauto]. }
    destruct Hcases as [-> | [(n & Hn & ->) | (p2 & n & Hn & ->)]].
    + contradiction.
    + apply subdivision_last. exact Hn.
    + assert (Hs : subdivision p1 p n <> []).
      { intros E. apply (f_equal len) in E. rewrite subdivision_len in E by lia.
        unfold len in E. cbn [List.length] in E. lia. }
      rewrite last_app_nonempty by exact Hs. apply subdivision_last. exact Hn.
  - intros [= <-]. split; [reflexivity | reflexivity].
Qed.

(** X13.  A sample distance of zero makes the resampler raise as soon as
    two consecutive input points lie apart: the division by the sample
    distance fails before anything of the segment is pushed, the generator
    stops there, and sparse-mode extraction returns nothing. *)
Theorem zero_sample_distance_is_an_error
    (file : list string) (k : Z) (cfg : config) (p q : point) (rest : list point) :
  feqb (straight_sample_dist cfg) f0 = true ->
  parse_gcode_points file = p :: q :: rest ->
  fleb (distance p q) f0 = false ->
  segment_points cfg p q = None
  /\ resampled_points file cfg = ([p], false)
  /\ snd (batch_points_for_spline file cfg) = false
  /\ collect_sparse_points file k cfg = None.
Proof.
  intros Hz Hp Hd.
  assert (Hs : segment_points cfg p q = None).
  { unfold segment_points, truediv. unfold distance in Hd. rewrite Hd, Hz.
    reflexivity. }
  assert (Hr : resampled_points file cfg = ([p], false)).
  { unfold resampled_points. rewrite Hp. cbn [resample emitted slide fst snd].
    rewrite Hs. reflexivity. }
  pose proof (generator_raised _ _ _ Hr) as Hg.
  split; [exact Hs|]. split; [exact Hr|]. split.
  - rewrite Hg. reflexivity.
  - unfold collect_sparse_points. rewrite Hg. reflexivity.
Qed.

(** X14.  At a detected corner a corner density of 0 or -1 pushes nothing,
    so neither the corner nor the current point enters the stream, and a
    corner density below -1 raises. *)
Theorem corner_density_edge_cases
    (cfg : config) (p2 p1 p : point) (ang : F) :
  turn_angle p2 p1 p = Some ang ->
  fleb (angle_threshold cfg) ang = true ->
  (-1 <= corner_density cfg <= 0 -> emitted cfg (Some p2, Some p1) p = Some [])
  /\ (corner_density cfg < -1 -> emitted cfg (Some p2, Some p1) p = None).
Proof.
  unfold turn_angle, emitted. cbn [fst snd]. intros -> ->. unfold corner_points.
  destruct (subdivide_cases p2 p1 (corner_density cfg)) as (Hlo & Hmid & _).
  destruct (subdivide_cases p1 p (corner_density cfg)) as (_ & Hmid' & _).
  split; intros Hc.
  - rewrite Hmid, Hmid' by exact Hc. reflexivity.
  - rewrite Hlo by exact Hc. reflexivity.
Qed.

End ResamplerMore.

(** ** More on the batcher and the collector *)

Section SubseqFacts.
Context {A : Type}.
Implicit Types l : list A.

Lemma subseq_refl l : subseq l l.
Proof. induction l; constructor; assumption. Qed.

Lemma subseq_app l1 l1' l2 l2' :
  subseq l1 l1' -> subseq l2 l2' -> subseq (l1 ++ l2) (l1' ++ l2').
Proof. induction 1; intros Hs; cbn [app]; try constructor; auto. Qed.

Lemma subseq_trans l1 l2 l3 : subseq l1 l2 -> subseq l2 l3 -> subseq l1 l3.
Proof.
  intros H12 H23. revert l1 H12.
  induction H23 as [|x l l' H IH|x l l' H IH]; intros l1 H12.
  - exact H12.
  - inversion H12; subst; constructor; auto.
  - constructor. auto.
Qed.

Lemma subseq_in l l' (x : A) : subseq l l' -> In x l -> In x l'.
Proof.
  induction 1 as [|y l l' Hs IH|y l l' Hs IH]; cbn [In]; [tauto | | ];
    intuition.
Qed.

Lemma every_other_subseq l : subseq (every_other l) l.
Proof.
  induction l as [|x|x y l IH] using list_pair_ind.
  - constructor.
  - apply subseq_refl.
  - cbn [every_other]. constructor. constructor. exact IH.
Qed.

Lemma getitems_in l (idxs : list Z) (r : list A) (x : A) :
  getitems l idxs = Some r -> In x r -> In x l.
Proof.
  revert r. induction idxs as [|i idxs IH]; intros r; cbn [getitems].
  - intros [= <-] [].
  - destruct (getitem l i) as [y|] eqn:Hy; [|discriminate].
    destruct (getitems l idxs) as [ys|]; [|discriminate].
    intros [= <-] [<- | Hin]; [|exact (IH ys eq_refl Hin)].
    unfold getitem in Hy. destruct (_ <? 0); [discriminate|].
    exact (nth_error_In _ _ Hy).
Qed.

End SubseqFacts.

Section CollectorMore.
Context {F : Type} `{FloatOps F}.

Local Abbreviation point := (@point F).
Local Abbreviation config := (@config F).

Lemma accumulate_step_subseq (k : Z) (kept batch base : list point) :
  subseq kept base -> subseq (accumulate_step k kept batch) (base ++ batch).
Proof.
  intros Hs. unfold accumulate_step.
  assert (Ha : subseq (kept ++ batch) (base ++ batch))
    by (apply subseq_app; [exact Hs | apply subseq_refl]).
  destruct (_ <? _); [|exact Ha].
  exact (subseq_trans _ _ _ (every_other_subseq _) Ha).
Qed.

Lemma fold_accumulate_subseq (k : Z) (batches : list (list point))
    (kept base : list point) :
  subseq kept base ->
  subseq (fold_left (accumulate_step k) batches kept)
         (base ++ List.concat batches).
Proof.
  revert kept base. induction batches as [|b batches IH]; intros kept base Hs.
  - cbn. rewrite app_nil_r. exact Hs.
  - cbn [fold_left List.concat]. rewrite app_assoc.
    apply IH, accumulate_step_subseq, Hs.
Qed.

Lemma accumulate_step_bound (k b M : Z) (kept batch : list point) :
  k * 2 <= M -> b + 1 <= M -> len kept <= M -> len batch <= b ->
  len (accumulate_step k kept batch) <= M.
Proof.
  intros Hk Hb Hkept Hbatch. unfold accumulate_step.
  pose proof (len_app kept batch) as Hl.
  destruct (Z.ltb_spec (k * 2) (len (kept ++ batch))); [|lia].
  destruct (every_other_len (kept ++ batch)); lia.
Qed.

Lemma fold_accumulate_bound (k b M : Z) (batches : list (list point))
    (kept : list point) :
  k * 2 <= M -> b + 1 <= M -> len kept <= M ->
  Forall (fun batch => len batch <= b) batches ->
  len (fold_left (accumulate_step k) batches kept) <= M.
Proof.
  intros Hk Hb. revert kept.
  induction batches as [|batch batches IH]; intros kept Hkept Hall;
    [exact Hkept|].
  inversion Hall; subst. cbn [fold_left].
  apply IH; [|assumption]. apply (accumulate_step_bound k b); assumption.
Qed.

(** Every batch of the generator, the last one included, is shorter than a
    batch size of at least three. *)
Lemma generator_batches_short (file : list string) (cfg : config) :
  3 <= batch_size cfg ->
  Forall (fun b => len b <= batch_size cfg - 1)
         (fst (batch_points_for_spline file cfg)).
Proof.
  intros Hb. unfold batch_points_for_spline. rewrite drive_resample.
  destruct (resample cfg (None, None) (parse_gcode_points file)) as [r ok].
  assert (H0 : len (@nil point) < batch_size cfg) by (cbn; lia).
  destruct (feed_sizes (batch_size cfg) [] r Hb H0) as [Hmid Hfin].
  destruct (batcher_feed (batch_size cfg) [] r) as [out fin].
  cbn [fst snd] in *.
  assert (Hout : Forall (fun b => len b <= batch_size cfg - 1) out).
  { eapply Forall_impl; [|exact Hmid]. cbn. intros. lia. }
  destruct ok; cbn [fst]; [|exact Hout].
  apply Forall_app. split; [exact Hout|].
  destruct fin; constructor; [lia | constructor].
Qed.

(** X15.  The collection the sparse mode accumulates stays bounded: with a
    cap [k >= 0] and batches of at most [b] points it never has more than
    [max(2 k, b + 1)] points after a batch is taken in, and fed by the
    generator with a batch size of at least three never more than
    [max(2 k, batch_size)]. *)
Theorem accumulated_collection_is_bounded
    (file : list string) (k : Z) (cfg : config) :
  0 <= k ->
  (forall b (batches : list (list point)),
     Forall (fun batch => len batch <= b) batches ->
     len (accumulate k batches) <= Z.max (k * 2) (b + 1))
  /\ (3 <= batch_size cfg ->
      len (accumulate k (fst (batch_points_for_spline file cfg)))
      <= Z.max (k * 2) (batch_size cfg)).
Proof.
  intros Hk.
  assert (Hgen : forall b (batches : list (list point)),
            Forall (fun batch => len batch <= b) batches ->
            len (accumulate k batches) <= Z.max (k * 2) (b + 1)).
  { intros b batches Hall. unfold accumulate.
    apply (fold_accumulate_bound k b); [lia | lia | cbn; lia | exact Hall]. }
  split; [exact Hgen|]. intros Hb.
  pose proof (Hgen (batch_size cfg - 1) _ (generator_batches_short file cfg Hb)) as Hl.
  replace (batch_size cfg - 1 + 1) with (batch_size cfg) in Hl by lia.
  exact Hl.
Qed.

(** X16.  Sparse mode invents no point: every pair it returns is one of the
    resampled points, and before the final selection the collection is the
    resampled stream with points left out, in the order of the stream. *)
Theorem sparse_points_are_resampled_points
    (file : list string) (k : Z) (cfg : config) (pts : list point)
    (xs ys : list F) :
  resampled_points file cfg = (pts, true) ->
  collect_sparse_points file k cfg = Some (xs, ys) ->
  subseq (accumulate k (fst (batch_points_for_spline file cfg))) pts
  /\ exists kept,
       xs = map fst kept /\ ys = map snd kept
       /\ (forall p, In p kept -> In p pts)
       /\ (len (accumulate k (fst (batch_points_for_spline file cfg))) <= k ->
           subseq kept pts).
Proof.
  intros Hr Hc.
  assert (Hsub : subseq (accumulate k (fst (batch_points_for_spline file cfg))) pts).
  { rewrite <- (generator_concat _ _ _ Hr). unfold accumulate.
    apply (fold_accumulate_subseq k _ [] []). constructor. }
  split; [exact Hsub|].
  unfold collect_sparse_points in Hc.
  destruct (batch_points_for_spline file cfg) as [batches [|]]; [|discriminate].
  cbn [fst] in *.
  destruct (cap (accumulate k batches) k) as [kept|] eqn:Hcap; [|discriminate].
  injection Hc as <- <-. exists kept. split; [reflexivity|]. split; [reflexivity|].
  unfold cap in Hcap. destruct (Z.ltb_spec k (len (accumulate k batches))).
  - split; [|lia]. intros p Hp.
    destruct (linspace_indices _ k) as [idxs|]; [|discriminate].
    apply (subseq_in _ _ _ Hsub). exact (getitems_in _ _ _ _ Hcap Hp).
  - injection Hcap as <-. split; [|intros _; exact Hsub].
    intros p. apply subseq_in. exact Hsub.
Qed.

Lemma fold_accumulate_small (k : Z) (batches : list (list point))
    (kept : list point) :
  len (kept ++ List.concat batches) <= k * 2 ->
  fold_left (accumulate_step k) batches kept = kept ++ List.concat batches.
Proof.
  revert kept. induction batches as [|b batches IH]; intros kept Hl.
  - cbn. rewrite app_nil_r. reflexivity.
  - cbn [fold_left List.concat] in *. rewrite app_assoc in *.
    unfold accumulate_step at 2.
    pose proof (len_app (kept ++ b) (List.concat batches)) as Ha.
    pose proof (len_nonneg (List.concat batches)).
    destruct (Z.ltb_spec (k * 2) (len (kept ++ b))); [lia|].
    apply IH. exact Hl.
Qed.

(** X17.  When the resampled path has no more points than the cap, sparse
    mode returns it whole and untouched: no halving and no selection takes
    place. *)
Theorem sparse_mode_is_identity_below_cap
    (file : list string) (k : Z) (cfg : config) (pts : list point) :
  resampled_points file cfg = (pts, true) ->
  len pts <= k ->
  collect_sparse_points file k cfg = Some (map fst pts, map snd pts).
Proof.
  intros Hr Hk. pose proof (generator_concat _ _ _ Hr) as Hc.
  pose proof (len_nonneg pts).
  unfold collect_sparse_points.
  destruct (batch_points_for_spline file cfg) as [batches ok] eqn:Hg.
  rewrite (generator_batcher _ _ _ Hr) in Hg. injection Hg as Hb <-.
  cbn [fst] in Hc. unfold accumulate.
  rewrite fold_accumulate_small by (cbn [app]; rewrite Hc; lia).
  cbn [app]. rewrite Hc. unfold cap.
  destruct (Z.ltb_spec k (len pts)); [lia | reflexivity].
Qed.

End CollectorMore.

Section BatchCount.
Context {F : Type} `{FloatOps F}.

Lemma len_cons {A : Type} (x : A) (l : list A) : len (x :: l) = len l + 1.
Proof. unfold len. cbn [List.length]. lia. Qed.

Lemma feed_count {A : Type} (bsize : Z) (buf pts : list A) :
  3 <= bsize -> len buf < bsize ->
  len (fst (batcher_feed bsize buf pts))
  = if len buf + len pts <? bsize then 0
    else (len buf + len pts - bsize) / (bsize - 2) + 1.
Proof.
  intros Hb. revert buf. induction pts as [|p pts IH]; intros buf Hbuf.
  - cbn [batcher_feed fst]. change (len (@nil A)) with 0.
    change (len (@nil (list A))) with 0. rewrite Z.add_0_r.
    destruct (Z.ltb_spec (len buf) bsize); [reflexivity | lia].
  - assert (Hl : len (buf ++ [p]) = len buf + 1) by apply len_app.
    pose proof (len_nonneg pts) as Hn. pose proof (len_nonneg buf) as Hn'.
    rewrite (len_cons p pts).
    destruct (Z.le_gt_cases bsize (len (buf ++ [p]))) as [Hge | Hlt].
    + rewrite feed_cons_yield by exact Hge.
      assert (H2 : len (last_two (buf ++ [p])) = 2).
      { unfold len in *. rewrite (proj2 (split_last_two _)). lia. }
      rewrite len_cons, IH by lia. rewrite H2.
      destruct (Z.ltb_spec (len buf + (len pts + 1)) bsize); [lia|].
      replace (len buf + (len pts + 1) - bsize) with (len pts) by lia.
      destruct (Z.ltb_spec (2 + len pts) bsize).
      * rewrite Z.div_small by lia. reflexivity.
      * replace (len pts) with (2 + len pts - bsize + 1 * (bsize - 2)) at 2 by lia.
        rewrite Z.div_add by lia. lia.
    + rewrite feed_cons_keep by lia. rewrite IH by lia. rewrite Hl.
      replace (len buf + 1 + len pts) with (len buf + (len pts + 1)) by lia.
      reflexivity.
Qed.

(** X18.  With a batch size of at least three a stream of [n] resampled
    points makes the generator yield, before the input is exhausted, no
    batch while [n < batch_size], and [(n - batch_size) / (batch_size - 2)
    + 1] batches from then on: the first once [batch_size] points are
    buffered, one more for every further [batch_size - 2] points. *)
Theorem midstream_batch_count (file : list string) (cfg : @config F) :
  3 <= batch_size cfg ->
  let n := len (fst (resampled_points file cfg)) in
  len (midstream_batches file cfg)
  = if n <? batch_size cfg then 0
    else (n - batch_size cfg) / (batch_size cfg - 2) + 1.
Proof.
  intros Hb n. rewrite midstream_feed. rewrite feed_count; [|exact Hb | cbn; lia].
  reflexivity.
Qed.

End BatchCount.

(** ** Numbers on a line *)

Section NumberFacts.
Local Open Scope string_scope.

Lemma sapp_nil_r (s : string) : s ++ EmptyString = s.
Proof. induction s as [|a s IH]; cbn [append]; [|rewrite IH]; reflexivity. Qed.

Lemma sapp_assoc (s t u : string) : (s ++ t) ++ u = s ++ (t ++ u).
Proof. induction s as [|a s IH]; cbn [append]; [|rewrite IH]; reflexivity. Qed.

Lemma slength_app (s t : string) :
  String.length (s ++ t) = (String.length s + String.length t)%nat.
Proof.
  induction s as [|a s IH]; cbn [append String.length]; [|rewrite IH];
    reflexivity.
Qed.

Lemma occurs_app (c : ascii) (s t : string) :
  occurs c (s ++ t) = occurs c s || occurs c t.
Proof.
  induction s as [|a s IH]; cbn [append occurs]; [reflexivity|].
  rewrite IH, orb_assoc. reflexivity.
Qed.

(** *** Runs of digits *)

Lemma span_digits_split (s : string) :
  s = fst (Tok.span_digits s) ++ snd (Tok.span_digits s)
  /\ all_digits (fst (Tok.span_digits s)) = true
  /\ no_digit_head (snd (Tok.span_digits s)) = true.
Proof.
  induction s as [|a s (IH1 & IH2 & IH3)]; cbn [Tok.span_digits].
  - repeat split.
  - destruct (Tok.is_digit a) eqn:Ha.
    + destruct (Tok.span_digits s) as [d r]. cbn [fst snd append all_digits] in *.
      rewrite Ha, <- IH1. auto.
    + cbn [fst snd append all_digits no_digit_head]. rewrite Ha. auto.
Qed.

Lemma span_digits_app (s t : string) :
  no_digit_head t = true ->
  Tok.span_digits (s ++ t)
  = (fst (Tok.span_digits s), snd (Tok.span_digits s) ++ t).
Proof.
  intros Ht. induction s as [|a s IH]; cbn [append Tok.span_digits].
  - destruct t as [|c t]; [reflexivity|]. cbn [Tok.span_digits no_digit_head] in *.
    apply negb_true_iff in Ht. rewrite Ht. reflexivity.
  - destruct (Tok.is_digit a); [|reflexivity].
    rewrite IH. destruct (Tok.span_digits s). reflexivity.
Qed.

Lemma span_digits_all (d : string) :
  all_digits d = true -> Tok.span_digits d = (d, EmptyString).
Proof.
  induction d as [|a d IH]; cbn [all_digits Tok.span_digits]; [reflexivity|].
  intros Ha. apply andb_true_iff in Ha as [-> Hd]. rewrite (IH Hd). reflexivity.
Qed.

(** *** The number pattern *)

Lemma match_unsigned_shape (s n : string) :
  Tok.match_unsigned s = Some (n, EmptyString) -> n = s /\ unsigned_shape s.
Proof.
  unfold Tok.match_unsigned.
  destruct (span_digits_split s) as (Hs & Hd & _).
  destruct (Tok.span_digits s) as [d1 r1]. cbn [fst snd] in *.
  destruct r1 as [|c r].
  - rewrite sapp_nil_r in Hs. subst d1.
    destruct s; [discriminate|]. intros [= <-].
    split; [reflexivity|]. left. split; [exact Hd | discriminate].
  - destruct (Ascii.eqb_spec c ".") as [-> | Hc].
    + destruct (span_digits_split r) as (Hr & Hd2 & _).
      destruct (Tok.span_digits r) as [d2 r2]. cbn [fst snd] in *.
      destruct d2 as [|a d2].
      * destruct d1; discriminate.
      * intros [= <- ->]. rewrite sapp_nil_r in Hr. subst r.
        split; [symmetry; exact Hs|]. right.
        exists d1, (String a d2). repeat split; try assumption. discriminate.
    + destruct d1; discriminate.
Qed.

Lemma ends_number_head (t : string) :
  ends_number t = true -> no_digit_head t = true.
Proof.
  destruct t as [|c t]; [reflexivity|]. cbn. intros Ht.
  apply andb_true_iff in Ht as [Ht _]. exact Ht.
Qed.

Lemma match_unsigned_app (s t : string) :
  unsigned_shape s -> ends_number t = true ->
  Tok.match_unsigned (s ++ t) = Some (s, t).
Proof.
  intros Hs Ht. unfold Tok.match_unsigned.
  destruct Hs as [[Hd Hne] | (d1 & d2 & -> & Hd1 & Hd2 & Hne)].
  - rewrite span_digits_app by (apply ends_number_head; exact Ht).
    rewrite (span_digits_all s Hd). cbn [fst snd append].
    destruct s as [|a s]; [contradiction|].
    destruct t as [|c t]; [reflexivity|].
    cbn [ends_number] in Ht. apply andb_true_iff in Ht as [_ Hdot].
    apply negb_true_iff in Hdot. rewrite Hdot. reflexivity.
  - rewrite sapp_assoc. rewrite span_digits_app by reflexivity.
    rewrite (span_digits_all d1 Hd1). cbn [fst snd append].
    rewrite Ascii.eqb_refl.
    rewrite span_digits_app by (apply ends_number_head; exact Ht).
    rewrite (span_digits_all d2 Hd2). cbn [fst snd append].
    destruct d2 as [|a d2]; [contradiction | reflexivity].
Qed.

Lemma digit_is_no_sign (c : ascii) :
  Tok.is_digit c = true \/ c = "."%char ->
  Ascii.eqb c "-" || Ascii.eqb c "+" = false.
Proof.
  intros [Hc | ->]; [|reflexivity].
  destruct (Ascii.eqb_spec c "-") as [-> | _]; [discriminate Hc|].
  destruct (Ascii.eqb_spec c "+") as [-> | _]; [discriminate Hc | reflexivity].
Qed.

Lemma unsigned_shape_head (s : string) :
  unsigned_shape s ->
  exists c r, s = String c r /\ (Tok.is_digit c = true \/ c = "."%char).
Proof.
  intros [[Hd Hne] | (d1 & d2 & -> & Hd1 & _ & _)].
  - destruct s as [|c r]; [contradiction|]. exists c, r.
    cbn [all_digits] in Hd. apply andb_true_iff in Hd as [Hc _]. auto.
  - destruct d1 as [|c r]; cbn [append]; eexists _, _; split; try reflexivity.
    + right. reflexivity.
    + cbn [all_digits] in Hd1. apply andb_true_iff in Hd1 as [Hc _]. auto.
Qed.

Lemma plain_number_shape (s : string) :
  plain_number s = true -> number_shape s.
Proof.
  unfold plain_number, Tok.match_number. destruct s as [|c r]; [discriminate|].
  destruct (Ascii.eqb c "-" || Ascii.eqb c "+") eqn:Hsign.
  - destruct (Tok.match_unsigned r) as [[n rest]|] eqn:Hm; [|discriminate].
    destruct rest; [|discriminate]. intros _.
    destruct (match_unsigned_shape r n Hm) as [_ Hu].
    right. exists c, r. split; [reflexivity|]. split; [|exact Hu].
    apply orb_true_iff in Hsign as [E | E]; apply Ascii.eqb_eq in E; auto.
  - destruct (Tok.match_unsigned (String c r)) as [[n rest]|] eqn:Hm;
      [|discriminate].
    destruct rest; [|discriminate]. intros _.
    left. exact (proj2 (match_unsigned_shape _ n Hm)).
Qed.

Lemma match_number_app (s t : string) :
  number_shape s -> ends_number t = true ->
  Tok.match_number (s ++ t) = Some (s, t).
Proof.
  intros [Hu | (c & u & -> & Hc & Hu)] Ht.
  - destruct (unsigned_shape_head s Hu) as (c & r & Hs & Hc).
    pose proof (match_unsigned_app s t Hu Ht) as Hm.
    subst s. cbn [append Tok.match_number] in *.
    rewrite (digit_is_no_sign c Hc). exact Hm.
  - cbn [append Tok.match_number].
    assert (Hsign : Ascii.eqb c "-" || Ascii.eqb c "+" = true)
      by (destruct Hc as [-> | ->]; reflexivity).
    rewrite Hsign, (match_unsigned_app u t Hu Ht). reflexivity.
Qed.

End NumberFacts.

(** ** Axis words on a line *)

Section FinditerFacts.
Local Open Scope string_scope.

Lemma match_unsigned_split (s n rest : string) :
  Tok.match_unsigned s = Some (n, rest) -> s = n ++ rest.
Proof.
  unfold Tok.match_unsigned.
  destruct (span_digits_split s) as (Hs & _ & _).
  destruct (Tok.span_digits s) as [d1 r1]. cbn [fst snd] in *.
  assert (Hplain : match d1 with
                   | EmptyString => None
                   | String _ _ => Some (d1, r1)
                   end = Some (n, rest) -> s = n ++ rest)
    by (destruct d1; [discriminate | intros [= <- <-]; exact Hs]).
  destruct r1 as [|c r]; [exact Hplain|].
  destruct (Ascii.eqb_spec c ".") as [-> | Hc]; [|exact Hplain].
  destruct (span_digits_split r) as (Hr & _ & _).
  destruct (Tok.span_digits r) as [d2 r2]. cbn [fst snd] in *.
  destruct d2 as [|a d2]; [exact Hplain|].
  intros [= <- <-]. rewrite Hs, Hr, sapp_assoc. reflexivity.
Qed.

Lemma match_number_split (s n rest : string) :
  Tok.match_number s = Some (n, rest) -> s = n ++ rest.
Proof.
  unfold Tok.match_number. destruct s as [|c r]; [discriminate|].
  destruct (Ascii.eqb c "-" || Ascii.eqb c "+").
  - destruct (Tok.match_unsigned r) as [[u rest']|] eqn:Hm; [|discriminate].
    intros [= <- <-]. rewrite (match_unsigned_split _ _ _ Hm). reflexivity.
  - apply match_unsigned_split.
Qed.

Lemma match_number_shorter (s n rest : string) :
  Tok.match_number s = Some (n, rest) ->
  (String.length rest <= String.length s)%nat.
Proof.
  intros Hm. rewrite (match_number_split _ _ _ Hm), slength_app. lia.
Qed.

(** The scan does not depend on its fuel once the fuel covers the text. *)
Lemma finditer_fuel_enough (f1 f2 : nat) (s : string) :
  (String.length s <= f1)%nat -> (String.length s <= f2)%nat ->
  Tok.finditer_fuel f1 s = Tok.finditer_fuel f2 s.
Proof.
  revert f2 s. induction f1 as [|f1 IH]; intros f2 s H1 H2.
  - destruct s; [|cbn in H1; lia]. destruct f2; reflexivity.
  - destruct s as [|c r]; [destruct f2; reflexivity|].
    destruct f2 as [|f2]; [cbn in H2; lia|].
    cbn [String.length] in H1, H2. cbn [Tok.finditer_fuel].
    destruct (Tok.axis_letter c); [|apply IH; lia].
    destruct (Tok.match_number r) as [[num rest]|] eqn:Hm; [|apply IH; lia].
    pose proof (match_number_shorter _ _ _ Hm). f_equal. apply IH; lia.
Qed.

(** The scan, one character at a time. *)
Lemma finditer_cons (c : ascii) (r : string) :
  Tok.COORD_RE_finditer (String c r)
  = match Tok.axis_letter c with
    | Some k =>
        match Tok.match_number r with
        | Some (num, rest) => (k, num) :: Tok.COORD_RE_finditer rest
        | None => Tok.COORD_RE_finditer r
        end
    | None => Tok.COORD_RE_finditer r
    end.
Proof.
  unfold Tok.COORD_RE_finditer. cbn [String.length Tok.finditer_fuel].
  destruct (Tok.axis_letter c); [|reflexivity].
  destruct (Tok.match_number r) as [[num rest]|] eqn:Hm; [|reflexivity].
  pose proof (match_number_shorter _ _ _ Hm). f_equal.
  apply finditer_fuel_enough; lia.
Qed.

Lemma finditer_word (c k : ascii) (num rest : string) :
  Tok.axis_letter c = Some k -> number_shape num -> ends_number rest = true ->
  Tok.COORD_RE_finditer (String c (num ++ rest))
  = (k, num) :: Tok.COORD_RE_finditer rest.
Proof.
  intros Hk Hn He. rewrite finditer_cons, Hk, (match_number_app _ _ Hn He).
  reflexivity.
Qed.

Lemma number_char_no_axis (c : ascii) :
  number_char c = true -> Tok.axis_letter c = None.
Proof.
  intros Hc. unfold Tok.axis_letter.
  repeat match goal with
         | |- context [Ascii.eqb c ?x] =>
             destruct (Ascii.eqb_spec c x) as [-> | ?]; [discriminate Hc|]
         end.
  reflexivity.
Qed.

Lemma finditer_number_chars (s : string) :
  all_chars number_char s = true -> Tok.COORD_RE_finditer s = [].
Proof.
  induction s as [|c r IH]; [reflexivity|]. cbn [all_chars]. intros Hs.
  apply andb_true_iff in Hs as [Hc Hr].
  rewrite finditer_cons, (number_char_no_axis c Hc). exact (IH Hr).
Qed.

Lemma all_chars_app (p : ascii -> bool) (s t : string) :
  all_chars p (s ++ t) = all_chars p s && all_chars p t.
Proof.
  induction s as [|a s IH]; cbn [append all_chars]; [reflexivity|].
  rewrite IH, andb_assoc. reflexivity.
Qed.

Lemma all_digits_number_chars (d : string) :
  all_digits d = true -> all_chars number_char d = true.
Proof.
  induction d as [|a d IH]; [reflexivity|]. cbn [all_digits all_chars].
  intros Hd. apply andb_true_iff in Hd as [Ha Hd].
  unfold number_char at 1. rewrite Ha. cbn [orb andb]. exact (IH Hd).
Qed.

Lemma all_digits_last (d : string) (c : ascii) :
  all_digits d = true -> last_char d = Some c -> Tok.is_digit c = true.
Proof.
  induction d as [|a d IH]; [discriminate|]. cbn [all_digits last_char].
  intros Hd. apply andb_true_iff in Hd as [Ha Hd].
  destruct d; [intros [= <-]; exact Ha | exact (IH Hd)].
Qed.

Lemma last_char_app (s t : string) :
  t <> EmptyString -> last_char (s ++ t) = last_char t.
Proof.
  intros Ht. induction s as [|a s IH]; [reflexivity|].
  cbn [append last_char]. destruct (s ++ t) eqn:E; [|exact IH].
  destruct s; [cbn in E; contradiction | discriminate].
Qed.

Lemma last_char_some (s : string) :
  s <> EmptyString -> exists c, last_char s = Some c.
Proof.
  induction s as [|a s IH]; [contradiction|]. intros _.
  destruct s as [|b s]; [exists a; reflexivity|].
  destruct IH as [c Hc]; [discriminate|]. exists c. exact Hc.
Qed.

(** A number holds number characters only, and ends with a digit. *)
Lemma number_shape_chars (s : string) :
  number_shape s ->
  all_chars number_char s = true
  /\ s <> EmptyString
  /\ (forall c, last_char s = Some c -> Tok.is_digit c = true).
Proof.
  assert (Hu : forall u, unsigned_shape u ->
             all_chars number_char u = true /\ u <> EmptyString
             /\ (forall c, last_char u = Some c -> Tok.is_digit c = true)).
  { intros u [[Hd Hne] | (d1 & d2 & -> & Hd1 & Hd2 & Hne)].
    - split; [exact (all_digits_number_chars u Hd)|]. split; [exact Hne|].
      intros c. exact (all_digits_last u c Hd).
    - split; [|split].
      + rewrite all_chars_app. cbn [all_chars].
        rewrite (all_digits_number_chars d1 Hd1), (all_digits_number_chars d2 Hd2).
        reflexivity.
      + destruct d1; discriminate.
      + intros c. change (String "." d2) with ("." ++ d2).
        rewrite <- sapp_assoc, last_char_app by exact Hne.
        exact (all_digits_last d2 c Hd2). }
  intros [H | (c & u & -> & Hc & H)]; [exact (Hu s H)|].
  destruct (Hu u H) as (Hchars & Hne & Hlast).
  split; [|split; [discriminate|]].
  - cbn [all_chars]. rewrite Hchars.
    destruct Hc as [-> | ->]; reflexivity.
  - intros c'. change (String c u) with (String c EmptyString ++ u).
    rewrite last_char_app by exact Hne. apply Hlast.
Qed.

End FinditerFacts.

(** ** Lines of axis words read back *)

Section ReadBack.
Context {F : Type} `{FloatOps F}.
Local Open Scope string_scope.

Local Abbreviation state := (@state F).

(** *** Stripping a line that has no comment *)

Lemma comment_sub_clean (s : string) :
  occurs "(" s = false -> occurs ";" s = false -> Tok.comment_sub false s = s.
Proof.
  induction s as [|a s IH]; [reflexivity|]. cbn [occurs Tok.comment_sub].
  intros Hp Hs. apply orb_false_iff in Hp as [-> Hp].
  apply orb_false_iff in Hs as [-> Hs]. cbn [andb].
  rewrite (IH Hp Hs). reflexivity.
Qed.

Lemma rstrip_app_space (s : string) (c : ascii) :
  Tok.is_space c = true ->
  Tok.rstrip (s ++ String c EmptyString) = Tok.rstrip s.
Proof.
  intros Hc. induction s as [|a s IH]; cbn [append Tok.rstrip].
  - rewrite Hc. reflexivity.
  - rewrite IH. reflexivity.
Qed.

Lemma rstrip_id (s : string) :
  (forall c, last_char s = Some c -> Tok.is_space c = false) ->
  Tok.rstrip s = s.
Proof.
  induction s as [|a s IH]; [reflexivity|]. intros Hl. cbn [Tok.rstrip].
  destruct s as [|b s].
  - cbn [Tok.rstrip]. rewrite (Hl a eq_refl). reflexivity.
  - rewrite IH by (intros c Hc; apply Hl; exact Hc). reflexivity.
Qed.

(** A line without parentheses and semicolons that starts and ends with a
    character other than white space comes out of [_strip_comments] as it
    is, its newline removed. *)
Lemma strip_plain_line (s : string) :
  occurs "(" s = false -> occurs ";" s = false ->
  (forall c, first_char s = Some c -> Tok.is_space c = false) ->
  (forall c, last_char s = Some c -> Tok.is_space c = false) ->
  Tok._strip_comments (with_newline s) = s.
Proof.
  intros Hp Hs Hf Hl. unfold Tok._strip_comments, Tok.strip, with_newline.
  rewrite comment_sub_clean
    by (rewrite occurs_app; cbn [occurs]; rewrite ?Hp, ?Hs; reflexivity).
  destruct s as [|a s]; [reflexivity|].
  cbn [append Tok.lstrip]. rewrite (Hf a eq_refl).
  change (String a (s ++ String Tok.newline EmptyString))
    with (String a s ++ String Tok.newline EmptyString).
  rewrite rstrip_app_space by reflexivity. apply rstrip_id. exact Hl.
Qed.

Lemma number_chars_clean (s : string) :
  all_chars number_char s = true ->
  occurs "(" s = false /\ occurs ";" s = false.
Proof.
  induction s as [|a s IH]; [split; reflexivity|]. cbn [all_chars occurs].
  intros Hs. apply andb_true_iff in Hs as [Ha Hs].
  destruct (IH Hs) as [-> ->].
  destruct (Ascii.eqb_spec a "(") as [-> | _]; [discriminate Ha|].
  destruct (Ascii.eqb_spec a ";") as [-> | _]; [discriminate Ha|].
  split; reflexivity.
Qed.

(** *** Scientific notation *)

(** X19.  The number pattern knows no exponent: in [X1e-05] the mantissa is
    taken for the value of X and the exponent, with its letter, for an E
    word.  Whatever axis the number belongs to, an extrusion value is read
    off its exponent. *)
Theorem exponent_is_read_as_e_word
    (c k e : ascii) (mantissa exponent rest : string) :
  Tok.axis_letter c = Some k ->
  plain_number mantissa = true -> plain_number exponent = true ->
  e = "e"%char \/ e = "E"%char ->
  ends_number rest = true ->
  Tok.COORD_RE_finditer (String c (mantissa ++ String e (exponent ++ rest)))
  = (k, mantissa) :: ("E"%char, exponent) :: Tok.COORD_RE_finditer rest
  /\ (k <> "E"%char ->
      Dict.get k (_parse_coords (F := F) (String c (mantissa ++ String e exponent)))
      = Some (float_of_string mantissa)
      /\ Dict.get "E" (_parse_coords (F := F) (String c (mantissa ++ String e exponent)))
         = Some (float_of_string exponent)).
Proof.
  intros Hk Hm He Hee Hr.
  apply plain_number_shape in Hm. apply plain_number_shape in He.
  assert (Hscan : forall rest', ends_number rest' = true ->
            Tok.COORD_RE_finditer (String c (mantissa ++ String e (exponent ++ rest')))
            = (k, mantissa) :: ("E"%char, exponent) :: Tok.COORD_RE_finditer rest').
  { intros rest' Hr'.
    rewrite (finditer_word c k) by (try assumption; destruct Hee as [-> | ->]; reflexivity).
    rewrite (finditer_word e "E") by (try assumption; destruct Hee as [-> | ->]; reflexivity).
    reflexivity. }
  split; [exact (Hscan rest Hr)|]. intros Hne.
  unfold _parse_coords. rewrite <- (sapp_nil_r exponent) at 1 2.
  rewrite (Hscan EmptyString eq_refl).
  cbn [Tok.COORD_RE_finditer String.length Tok.finditer_fuel fold_left fst snd
       Dict.set].
  destruct (Ascii.eqb_spec "E" k) as [E | Hne']; [congruence|].
  cbn [Dict.get]. rewrite !Ascii.eqb_refl.
  destruct (Ascii.eqb_spec "E" k) as [E | _]; [congruence|].
  split; reflexivity.
Qed.

(** *** The lines the writer makes *)

Lemma add_word_tail (letter : string) (v : option string) (line : string) :
  Writer.add_word letter v line = line ++ Writer.add_word letter v EmptyString.
Proof.
  unfold Writer.add_word. destruct v as [t|]; [|symmetry; apply sapp_nil_r].
  destruct (is_empty t); [symmetry; apply sapp_nil_r | reflexivity].
Qed.

(** The word a numeric field adds: nothing, or a blank, the letter and a
    number. *)
Lemma numeric_word (letter : ascii) (v : option string) :
  Writer.numeric_field v = true ->
  Writer.add_word (String letter EmptyString) v EmptyString = EmptyString
  /\ (v = None \/ v = Some EmptyString)
  \/ exists t, v = Some t /\ is_empty t = false /\ number_shape t
               /\ Writer.add_word (String letter EmptyString) v EmptyString
                  = String " " (String letter t).
Proof.
  unfold Writer.numeric_field, Writer.add_word. destruct v as [t|]; [|auto].
  destruct t as [|a t]; [auto|]. cbn [is_empty orb]. intros Hp.
  right. exists (String a t). repeat split. exact (plain_number_shape _ Hp).
Qed.

(** The line of a row of numbers: its text after stripping, and the axis
    words found on it. *)
Lemma row_line_read (row : Writer.csv_row) (line : string) :
  Writer.numeric_row row = true -> Writer.row_line row = Some line ->
  exists x y,
    Writer.center_x row = Some x /\ Writer.center_y row = Some y
    /\ Tok._strip_comments (with_newline line) = line
    /\ Tok.MOVE_CMD_RE line = true
    /\ Tok.COORD_RE_finditer line
       = ("X"%char, x) :: ("Y"%char, y)
         :: match Writer.center_z row with
            | Some t => if is_empty t then [] else [("Z"%char, t)]
            | None => []
            end.
Proof.
  unfold Writer.numeric_row, Writer.row_line.
  destruct (Writer.center_x row) as [x|]; [|discriminate].
  destruct (Writer.center_y row) as [y|]; [|discriminate].
  intros Hn [= <-]. exists x, y. split; [reflexivity|]. split; [reflexivity|].
  apply andb_true_iff in Hn as [Hn Ha]. apply andb_true_iff in Hn as [Hn Hz].
  apply andb_true_iff in Hn as [Hx Hy].
  apply plain_number_shape in Hx. apply plain_number_shape in Hy.
  destruct (number_shape_chars x Hx) as (Hxc & Hxne & Hxl).
  destruct (number_shape_chars y Hy) as (Hyc & Hyne & Hyl).
  destruct (number_chars_clean x Hxc) as [Hxp Hxs].
  destruct (number_chars_clean y Hyc) as [Hyp Hys].
  rewrite (add_word_tail "A"), (add_word_tail "Z"), !sapp_assoc.
  cbn [append]. rewrite !sapp_assoc. cbn [append].
  set (za := Writer.add_word "Z" (Writer.center_z row) EmptyString
             ++ Writer.add_word "A" (Writer.angle_deg row) EmptyString).
  (* the two optional words *)
  assert (Hza : occurs "(" za = false /\ occurs ";" za = false
                /\ ends_number za = true
                /\ (forall c, last_char (y ++ za) = Some c -> Tok.is_space c = false)
                /\ Tok.COORD_RE_finditer za
                   = match Writer.center_z row with
                     | Some t => if is_empty t then [] else [("Z"%char, t)]
                     | None => []
                     end).
  { subst za.
    assert (Hdig : forall c, Tok.is_digit c = true -> Tok.is_space c = false).
    { intros c Hc. destruct (Tok.is_space c) eqn:E; [|reflexivity].
      unfold Tok.is_digit, Tok.is_space, Tok.in_range in *.
      apply andb_true_iff in Hc as [Hc1 Hc2].
      apply N.leb_le in Hc1. apply N.leb_le in Hc2.
      repeat (apply orb_true_iff in E as [E | E]);
        try (apply andb_true_iff in E as [E1 E2];
             apply N.leb_le in E1; apply N.leb_le in E2; lia);
        apply N.eqb_eq in E; lia. }
    destruct (numeric_word "A" _ Ha) as [[Hwa Hva] | (a & Hva & Hae & Has & Hwa)];
      destruct (numeric_word "Z" _ Hz) as [[Hwz Hvz] | (z & Hvz & Hze & Hzs & Hwz)];
      rewrite Hwa, Hwz.
    - cbn [append]. repeat split; try reflexivity.
      + rewrite sapp_nil_r. intros c Hc. apply Hdig, Hyl, Hc.
      + destruct Hvz as [-> | ->]; reflexivity.
    - destruct (number_shape_chars z Hzs) as (Hzc & Hzne & Hzl).
      destruct (number_chars_clean z Hzc) as [Hzp Hzs'].
      rewrite sapp_nil_r. cbn [occurs ends_number]. rewrite Hzp, Hzs'.
      repeat split; try reflexivity.
      + intros c. change (String " " (String "Z" z)) with (" Z" ++ z).
        rewrite <- sapp_assoc, last_char_app by exact Hzne.
        intros Hc. apply Hdig, Hzl, Hc.
      + rewrite finditer_cons. cbn [Tok.axis_letter Ascii.eqb Bool.eqb orb].
        rewrite <- (sapp_nil_r z) at 1.
        rewrite (finditer_word "Z" "Z") by (try assumption; reflexivity).
        rewrite Hvz, Hze. reflexivity.
    - destruct (number_shape_chars a Has) as (Hac & Hane & Hal).
      destruct (number_chars_clean a Hac) as [Hap Has'].
      cbn [append occurs ends_number]. rewrite Hap, Has'.
      repeat split; try reflexivity.
      + intros c. change (String " " (String "A" a)) with (" A" ++ a).
        rewrite <- sapp_assoc, last_char_app by exact Hane.
        intros Hc. apply Hdig, Hal, Hc.
      + rewrite !finditer_cons. cbn [Tok.axis_letter Ascii.eqb Bool.eqb orb].
        rewrite (finditer_number_chars a Hac).
        destruct Hvz as [-> | ->]; reflexivity.
    - destruct (number_shape_chars a Has) as (Hac & Hane & Hal).
      destruct (number_chars_clean a Hac) as [Hap Has'].
      destruct (number_shape_chars z Hzs) as (Hzc & Hzne & Hzl).
      destruct (number_chars_clean z Hzc) as [Hzp Hzs'].
      cbn [append occurs ends_number]. rewrite occurs_app, occurs_app.
      cbn [occurs]. rewrite Hap, Has', Hzp, Hzs'.
      repeat split; try reflexivity.
      + intros c.
        change (String " " (String "Z" (z ++ String " " (String "A" a))))
          with ((" Z" ++ z) ++ " A" ++ a).
        rewrite <- !sapp_assoc, last_char_app by exact Hane.
        intros Hc. apply Hdig, Hal, Hc.
      + rewrite finditer_cons. cbn [Tok.axis_letter Ascii.eqb Bool.eqb orb].
        rewrite (finditer_word "Z" "Z") by (try assumption; reflexivity).
        rewrite !finditer_cons. cbn [Tok.axis_letter Ascii.eqb Bool.eqb orb].
        rewrite (finditer_number_chars a Hac), Hvz, Hze. reflexivity. }
  destruct Hza as (Hzap & Hzas & Hzae & Hzal & Hzaf).
  split; [|split].
  - apply strip_plain_line.
    + cbn [occurs]. rewrite occurs_app. cbn [occurs]. rewrite occurs_app.
      rewrite Hxp, Hyp, Hzap. reflexivity.
    + cbn [occurs]. rewrite occurs_app. cbn [occurs]. rewrite occurs_app.
      rewrite Hxs, Hys, Hzas. reflexivity.
    + intros c [= <-]. reflexivity.
    + intros c.
      change (String "G" (String "1" (String " " (String "X"
                (x ++ String " " (String "Y" (y ++ za)))))))
        with ("G1 X" ++ (x ++ (" Y" ++ (y ++ za)))).
      rewrite <- (sapp_assoc x " Y" (y ++ za)).
      rewrite <- (sapp_assoc "G1 X" (x ++ " Y") (y ++ za)).
      rewrite last_char_app by (destruct y; [contradiction | discriminate]).
      apply Hzal.
  - reflexivity.
  - do 3 (rewrite finditer_cons; cbn [Tok.axis_letter Ascii.eqb Bool.eqb orb]).
    rewrite (finditer_word "X" "X") by (try assumption; reflexivity).
    rewrite finditer_cons. cbn [Tok.axis_letter Ascii.eqb Bool.eqb orb].
    rewrite (finditer_word "Y" "Y") by (try assumption; reflexivity).
    rewrite Hzaf. reflexivity.
Qed.

(** The z a row leaves the tracker with. *)
Lemma row_step (row : Writer.csv_row) (line : string) (st : state) :
  Writer.numeric_row row = true -> Writer.row_line row = Some line ->
  exists x y,
    Writer.center_x row = Some x /\ Writer.center_y row = Some y
    /\ let z := match Writer.center_z row with
                | Some t => if is_empty t then cur_z st else float_of_string t
                | None => cur_z st
                end in
       snd (step st (with_newline line))
       = Some (float_of_string x, float_of_string y, z, extruding_state st)
       /\ cur_z (fst (step st (with_newline line))) = z
       /\ extruding_state (fst (step st (with_newline line))) = extruding_state st.
Proof.
  intros Hn Hl.
  destruct (row_line_read row line Hn Hl) as (x & y & Hx & Hy & Hs & Hm & Hf).
  exists x, y. split; [exact Hx|]. split; [exact Hy|].
  rewrite step_motion by (unfold is_motion_line; rewrite Hs; exact Hm).
  rewrite Hs. unfold apply_move, _parse_coords. rewrite Hf.
  destruct (Writer.center_z row) as [[|a t]|]; cbn; repeat split; reflexivity.
Qed.

Lemma gen_rows (rows : list Writer.csv_row) (st : state) :
  forallb Writer.numeric_row rows = true ->
  gen st (map with_newline (Writer.row_lines rows))
  = row_samples (cur_z st) (extruding_state st) rows.
Proof.
  revert st. induction rows as [|row rows IH]; intros st Hn; [reflexivity|].
  cbn [forallb] in Hn. apply andb_true_iff in Hn as [Hrow Hrows].
  cbn [Writer.row_lines row_samples].
  destruct (Writer.row_line row) as [line|] eqn:Hl.
  - destruct (row_step row line st Hrow Hl) as (x & y & Hx & Hy & Hs & Hz & Hf).
    rewrite Hx, Hy. cbn [map gen].
    destruct (step st (with_newline line)) as [st' out]. cbn [fst snd] in *.
    subst out. rewrite (IH st' Hrows), Hz, Hf. reflexivity.
  - unfold Writer.row_line in Hl.
    destruct (Writer.center_x row); [destruct (Writer.center_y row)|];
      try discriminate; apply IH; exact Hrows.
Qed.

(** X20.  A motion line written as [G1 X<x> Y<y>], with or without a
    [Z<z>] word, each value a plain decimal number, is read back for what it
    says: the sample holds the floats of the texts of x and y, the float of
    z or else the z the tracker had, and the flag the tracker had. *)
Theorem canonical_motion_line_reads_back (st : state) (x y z : string) :
  plain_number x = true -> plain_number y = true -> plain_number z = true ->
  snd (step st (with_newline ("G1 X" ++ x ++ " Y" ++ y)))
  = Some (float_of_string x, float_of_string y, cur_z st, extruding_state st)
  /\ snd (step st (with_newline ("G1 X" ++ x ++ " Y" ++ y ++ " Z" ++ z)))
     = Some (float_of_string x, float_of_string y, float_of_string z,
             extruding_state st).
Proof.
  intros Hx Hy Hz. split.
  - assert (Hn : Writer.numeric_row (Writer.mkRow (Some x) (Some y) None None) = true)
      by (cbn; rewrite Hx, Hy; reflexivity).
    destruct (row_step _ ("G1 X" ++ x ++ " Y" ++ y) st Hn eq_refl)
      as (x' & y' & [= <-] & [= <-] & Hs & _).
    exact Hs.
  - destruct z as [|a z]; [discriminate Hz|].
    assert (Hn : Writer.numeric_row
                   (Writer.mkRow (Some x) (Some y) (Some (String a z)) None) = true)
      by (cbn; rewrite Hx, Hy, Hz; reflexivity).
    destruct (row_step _ (("G1 X" ++ x ++ " Y" ++ y) ++ " Z" ++ String a z) st
                Hn eq_refl)
      as (x' & y' & [= <-] & [= <-] & Hs & _).
    cbn [Writer.center_z is_empty] in Hs.
    rewrite sapp_assoc in Hs. cbn [append] in Hs. rewrite sapp_assoc in Hs.
    exact Hs.
Qed.

(** X21.  What [csv_to_gcode] writes the raw parser reads back: for rows
    whose fields are plain decimal numbers the samples are, row by row, the
    floats of [center_x] and [center_y], with the float of the last
    [center_z] given so far (that of the header's [Z0] before any) and the
    flag 0; a row without x or y gives no sample, and header, footer and
    the A word give none and alter none. *)
Theorem csv_to_gcode_reads_back (rows : list Writer.csv_row) :
  forallb Writer.numeric_row rows = true ->
  parse_gcode_points_extrude (F := F) (Writer.csv_to_gcode rows)
  = row_samples (float_of_string "0") 0 rows.
Proof.
  intros Hn. unfold parse_gcode_points_extrude, Writer.csv_to_gcode.
  rewrite !map_app, !gen_app.
  change (gen init (map with_newline Writer.HEADER)) with (@nil (@sample F)).
  cbn [app]. rewrite gen_rows by exact Hn.
  change (cur_z (run init (map with_newline Writer.HEADER)))
    with (float_of_string (F := F) "0").
  change (extruding_state (run (F := F) init (map with_newline Writer.HEADER)))
    with 0.
  cbn [Writer.FOOTER map gen].
  rewrite step_unrecognized by reflexivity. apply app_nil_r.
Qed.

End ReadBack.

(** ** The further properties at concrete inputs *)

Module MoreWitnesses.
Import RefFloat Inputs.
Local Open Scope string_scope.

Lemma loop_branches_witness :
  Tok.MOVE_CMD_RE "G1 X5" = true /\ ARC_CMD_RE "G1 X5" = false
  /\ ARC_CMD_RE "G2 X1 Y1 I1" = true /\ Tok.MOVE_CMD_RE "G2 X1 Y1 I1" = false.
Proof.
  split; [reflexivity|]. split.
  - exact (proj2 (proj2 (proj2 (proj2 (proj2
             (proj1 (loop_branches_exclusive "G1 X5") eq_refl)))))).
  - split; [reflexivity|].
    exact (proj1 (proj2 (loop_branches_exclusive "G2 X1 Y1 I1") eq_refl)).
Defined.

Lemma skipped_lines_witness :
  recognized "M104 S200 ; heat" = false
  /\ step (F := Q) init "M104 S200 ; heat" = (init, None).
Proof.
  split; [reflexivity|].
  exact (proj1 (proj2 (unrecognized_lines_are_skipped (F := Q) []))
           init "M104 S200 ; heat" eq_refl).
Defined.

Lemma arc_lines_witness :
  is_arc_line "G2 X1 Y1 I1" = true
  /\ step (F := Q) init "G2 X1 Y1 I1" = (init, None)
  /\ step2 (F := Q) init2 "G2 X1 Y1 I1" = (init2, None).
Proof.
  split; [reflexivity|].
  exact (arc_lines_are_ignored (F := Q) init init2 "G2 X1 Y1 I1" eq_refl).
Defined.

Lemma bookkeeping_witness :
  forallb (fun raw => negb (is_g92_line raw)) retract_file = true
  /\ e_offset (run (F := Q) init retract_file) = f0.
Proof.
  split; [reflexivity|].
  exact (proj2 (extrusion_bookkeeping (F := Q) retract_file) eq_refl).
Defined.

Lemma debug_cap_witness :
  debug_count (fst (step (F := Q) init "G1 X1")) <> debug_count (F := Q) init
  /\ emits (F := Q) "G1 X1" = true.
Proof.
  assert (Hd : debug_count (fst (step (F := Q) init "G1 X1"))
               <> debug_count (F := Q) init) by (vm_compute; discriminate).
  split; [exact Hd|].
  exact (proj1 (proj2 (debug_output_is_capped (F := Q) []) init "G1 X1" Hd)).
Defined.

Lemma xy_tracker_witness :
  emits_xy (F := Q) "G1 X3" = true
  /\ nth_error (parse_gcode_points (F := Q) ["G1 X1 Y2"; "G1 Z5"; "G1 X3"]) 1
     = Some (3, 2)%Q.
Proof.
  split; [reflexivity|].
  exact (proj1 (proj2 (xy_tracker_follows_raw_tracker (F := Q)
                         ["G1 X1 Y2"; "G1 Z5"; "G1 X3"]))
           ["G1 X1 Y2"; "G1 Z5"] "G1 X3" [] eq_refl eq_refl).
Defined.

Lemma strip_result_witness :
  single_line "  G1 X1 (fast) ; done " = true
  /\ occurs ";" (Tok._strip_comments "  G1 X1 (fast) ; done ") = false.
Proof.
  split; [reflexivity|].
  exact (proj2 (proj2 (proj2 (strip_comments_result "  G1 X1 (fast) ; done ")))
           eq_refl).
Defined.

Lemma parse_coords_witness :
  Unicode.mem Unicode.dotted_I (Unicode._parse_coords (F := Q) dotted_line) = true
  /\ Unicode.get Unicode.dotted_I (Unicode._parse_coords (F := Q) dotted_line)
     = Some 5%Q
  /\ (In Unicode.dotted_I Unicode.ascii_keys
      \/ (Unicode.dotted_I = Unicode.dotted_I /\ In Unicode.dotted_I dotted_line))
  /\ Unicode.get (Tok.code "X")
       (Unicode._parse_coords (F := Q) (Unicode.decode "G1 X1 Y7 x2"))
     = Dict.get "X" (_parse_coords (F := Q) "G1 X1 Y7 x2").
Proof.
  split; [reflexivity|]. split; [|split].
  - exact (proj1 (parse_coords_lookup (F := Q) dotted_line Unicode.dotted_I)).
  - exact (proj1 (proj2 (parse_coords_lookup (F := Q) dotted_line Unicode.dotted_I))
             eq_refl).
  - exact (proj2 (proj2 (proj2 (parse_coords_lookup (F := Q)
             (Unicode.decode "G1 X1 Y7 x2") (Tok.code "X"))))
             "G1 X1 Y7 x2" "X"%char eq_refl eq_refl).
Defined.

Lemma lin_interpolate_witness :
  0 <= 1
  /\ exists pts, _lin_interpolate (F := Q) (0, 0)%Q (1, 0)%Q 0 = Some pts
                 /\ pts = [(1, 0)%Q].
Proof.
  split; [lia|].
  destruct (lin_interpolate_total (F := Q) (0, 0)%Q (1, 0)%Q (0, 0)%Q 0)
    as (pts & Hp & _ & _ & Hone).
  exists pts. split; [exact Hp | apply Hone; lia].
Defined.

Lemma pushed_run_witness :
  emitted (settings 3 1) (None, Some (0, 0)%Q) (3, 0)%Q = Some (tl line_points)
  /\ tl line_points <> []
  /\ last (tl line_points) (0, 0)%Q = (3, 0)%Q.
Proof.
  assert (He : emitted (settings 3 1) (None, Some (0, 0)%Q) (3, 0)%Q
               = Some (tl line_points)) by reflexivity.
  assert (Hne : tl line_points <> []) by discriminate.
  split; [exact He|]. split; [exact Hne|].
  exact (proj1 (pushed_run_ends_at_input_point (settings 3 1)
                  (None, Some (0, 0)%Q) (3, 0)%Q (0, 0)%Q (tl line_points) He)
           Hne).
Defined.

Lemma zero_distance_witness :
  feqb (straight_sample_dist (settings 3 0)) f0 = true
  /\ parse_gcode_points line_file = [(0, 0); (3, 0)]%Q
  /\ fleb (distance (0, 0)%Q (3, 0)%Q) f0 = false
  /\ collect_sparse_points line_file 5 (settings 3 0) = None.
Proof.
  split; [reflexivity|]. split; [reflexivity|]. split; [reflexivity|].
  exact (proj2 (proj2 (proj2 (zero_sample_distance_is_an_error line_file 5
           (settings 3 0) (0, 0)%Q (3, 0)%Q [] eq_refl eq_refl eq_refl)))).
Defined.

Lemma corner_density_witness :
  turn_angle (F := Q) (0, 0)%Q (1, 0)%Q (1, 1)%Q = Some (Qmake 1963411 1250000)
  /\ fleb (angle_threshold flat_corner_settings) (Qmake 1963411 1250000) = true
  /\ -1 <= corner_density flat_corner_settings <= 0
  /\ emitted flat_corner_settings (Some (0, 0)%Q, Some (1, 0)%Q) (1, 1)%Q
     = Some [].
Proof.
  assert (Hc : -1 <= corner_density flat_corner_settings <= 0) by (cbn; lia).
  split; [reflexivity|]. split; [reflexivity|]. split; [exact Hc|].
  exact (proj1 (corner_density_edge_cases flat_corner_settings
                  (0, 0)%Q (1, 0)%Q (1, 1)%Q (Qmake 1963411 1250000)
                  eq_refl eq_refl) Hc).
Defined.

Lemma collection_bound_witness :
  0 <= 3 /\ 3 <= batch_size (settings 10 (Qmake 1 2))
  /\ len (accumulate 3 (fst (batch_points_for_spline six_points_file
                                (settings 10 (Qmake 1 2)))))
     <= Z.max (3 * 2) 10.
Proof.
  assert (H0 : 0 <= 3) by lia.
  assert (H3 : 3 <= batch_size (settings 10 (Qmake 1 2))) by (cbn; lia).
  split; [exact H0|]. split; [exact H3|].
  exact (proj2 (accumulated_collection_is_bounded six_points_file 3
                  (settings 10 (Qmake 1 2)) H0) H3).
Defined.

Lemma sparse_points_witness :
  resampled_points line_file (settings 3 1) = (line_points, true)
  /\ collect_sparse_points line_file 2 (settings 3 1) = Some ([0; 3], [0; 0])%Q
  /\ subseq (accumulate 2 (fst (batch_points_for_spline line_file (settings 3 1))))
            line_points.
Proof.
  split; [reflexivity|]. split; [reflexivity|].
  exact (proj1 (sparse_points_are_resampled_points line_file 2 (settings 3 1)
                  line_points [0; 3]%Q [0; 0]%Q eq_refl eq_refl)).
Defined.

Lemma sparse_identity_witness :
  resampled_points line_file (settings 3 1) = (line_points, true)
  /\ len line_points <= 4
  /\ collect_sparse_points line_file 4 (settings 3 1)
     = Some (map fst line_points, map snd line_points).
Proof.
  assert (Hl : len line_points <= 4) by (cbn; lia).
  split; [reflexivity|]. split; [exact Hl|].
  exact (sparse_mode_is_identity_below_cap line_file 4 (settings 3 1)
           line_points eq_refl Hl).
Defined.

Lemma batch_count_witness :
  3 <= batch_size (settings 3 1)
  /\ len (midstream_batches line_file (settings 3 1)) = 2.
Proof.
  assert (H3 : 3 <= batch_size (settings 3 1)) by (cbn; lia).
  split; [exact H3|].
  exact (midstream_batch_count line_file (settings 3 1) H3).
Defined.

Lemma exponent_witness :
  plain_number "1" = true /\ plain_number "-05" = true
  /\ Tok.COORD_RE_finditer "X1e-05" = [("X"%char, "1"); ("E"%char, "-05")].
Proof.
  split; [reflexivity|]. split; [reflexivity|].
  exact (proj1 (exponent_is_read_as_e_word (F := Q) "X" "X" "e" "1" "-05"
                  EmptyString eq_refl eq_refl eq_refl (or_introl eq_refl) eq_refl)).
Defined.

Lemma canonical_line_witness :
  plain_number "1.5" = true /\ plain_number "-2" = true
  /\ plain_number ".25" = true
  /\ snd (step (F := Q) init (with_newline "G1 X1.5 Y-2 Z.25"))
     = Some (Qmake 3 2, Qmake (-2) 1, Qmake 1 4, 0).
Proof.
  split; [reflexivity|]. split; [reflexivity|]. split; [reflexivity|].
  exact (proj2 (canonical_motion_line_reads_back (F := Q) init "1.5" "-2" ".25"
                  eq_refl eq_refl eq_refl)).
Defined.

Lemma csv_read_back_witness :
  forallb Writer.numeric_row wheel_rows = true
  /\ parse_gcode_points_extrude (F := Q) (Writer.csv_to_gcode wheel_rows)
     = [(Qmake 3 2, 2%Q, Qmake 1 5, 0); (4%Q, 5%Q, Qmake 1 5, 0)].
Proof.
  split; [reflexivity|].
  exact (csv_to_gcode_reads_back (F := Q) wheel_rows eq_refl).
Defined.

End MoreWitnesses.
